(** * ViralBoost server: the real-time hub and the in-memory store

    A shallow embedding of [src/server.js] (first revision in the file,
    lines 1-595): the WebSocket connection handlers ([join], [message],
    [dm], [get_dm_history], [typing], [dm_typing], [close]) and the HTTP
    handlers over the in-memory fallback store ([/api/register-user],
    [/api/user/:email], [/api/projects], [/api/projects/:id/vote],
    [/api/groups] and its messages and settings, [/api/report],
    [/api/admin-dm], and the admin routes that ban a user, delete a
    project and list reports and messages).

    Node runs every handler to completion on one event loop, so a handler
    is a function from the process state and its inputs to the new state
    and the list of effects it performed, in program order.  A frame that
    makes the [message] listener throw ends the process; [ws_receive] has
    no result for it. *)

From stdpp Require Import gmap strings list fin_maps pretty sorting.

Local Open Scope string_scope.
Local Open Scope list_scope.
Local Open Scope Z_scope.

(** ** JavaScript values

    A field of a parsed JSON frame or request body is modelled as an
    optional string: [None] is [undefined] (the property is absent),
    [Some s] is the string [s].  A string is a sequence of code units. *)

Abbreviation value := (option string).

(** [v || d] where [d] is a string literal: [undefined] and the empty
    string are falsy. *)
Definition or_str (v : value) (d : string) : string :=
  match v with
  | Some s => if String.eqb s "" then d else s
  | None => d
  end.

(** [n || 0] for an optional number. *)
Definition or_zero (n : option Z) : Z := default 0 n.

(** [n || d] for a number. *)
Definition or_num (n d : Z) : Z := if decide (n = 0) then d else n.

(** [s.slice(0, n)]. *)
Definition slice0 (n : nat) (s : string) : string := String.substring 0 n s.

(** [l.slice(-n)]: the last [n] elements, all of them when there are fewer. *)
Definition slice_last {A} (n : nat) (l : list A) : list A :=
  drop (length l - n) l.

(** ** [Set] and [Map] of JavaScript, in insertion order *)

Section JsSet.
Context {A : Type} `{EqDecision A}.

Definition Set_add (x : A) (l : list A) : list A :=
  if decide (x ∈ l) then l else l ++ [x].

Definition Set_delete (x : A) (l : list A) : list A :=
  filter (λ y, y ≠ x) l.
End JsSet.

Section JsMap.
Context {K V : Type} `{EqDecision K}.

Fixpoint Map_get (k : K) (m : list (K * V)) : option V :=
  match m with
  | [] => None
  | (k', v) :: r => if decide (k' = k) then Some v else Map_get k r
  end.

(** An existing key keeps its position; a new key goes last. *)
Fixpoint Map_set (k : K) (v : V) (m : list (K * V)) : list (K * V) :=
  match m with
  | [] => [(k, v)]
  | (k', v') :: r =>
      if decide (k' = k) then (k, v) :: r else (k', v') :: Map_set k v r
  end.

Definition Map_delete (k : K) (m : list (K * V)) : list (K * V) :=
  filter (λ kv, kv.1 ≠ k) m.

Definition Map_values (m : list (K * V)) : list V := m.*2.

Definition Map_has (k : K) (m : list (K * V)) : Prop := k ∈ m.*1.
End JsMap.

(** [if (!m.has(k)) m.set(k, d)] on a map that is only read by key. *)
Definition ensure `{Countable K} {V} (k : K) (d : V) (m : gmap K V) : gmap K V :=
  match m !! k with
  | Some _ => m
  | None => <[k := d]> m
  end.

(** ** [getDMKey]

    [[a, b].sort()] with the default comparison: [undefined] goes last,
    strings are compared by code units, and the sort is stable, so the two
    elements are swapped exactly when the second is strictly smaller.
    [join(':')] prints [undefined] as the empty string. *)

Definition sort2 (a b : value) : value * value :=
  match a, b with
  | Some x, Some y => if String.ltb y x then (b, a) else (a, b)
  | None, Some _ => (b, a)
  | _, _ => (a, b)
  end.

Definition join2 (sep : string) (p : value * value) : string :=
  default "" p.1 +:+ sep +:+ default "" p.2.

Definition getDMKey (a b : value) : string := join2 ":" (sort2 a b).

(** ** Data model *)

(** The identity of a [ws] object. *)
Abbreviation Conn := nat.

(** Readings of the clock and of the random source taken by one handler
    run: [Date.now()], [Math.random()] (the double drawn, by its index
    among the doubles of the unit interval), and the first and second
    [new Date()].  [Date.now() + Math.random()] is a double; its two
    summands are kept apart (floating-point addition is not modelled), and
    a [Date] is its epoch reading (the rendering of [toISOString] is not
    modelled). *)
Record Clock := {
  Date_now : Z;
  Math_random : N;
  new_Date : Z;
  new_Date_2 : Z
}.

Record Profile := {
  pr_id : value;
  pr_name : string;
  pr_plan : string;
  pr_avatar : string
}.

Record Msg := {
  m_id : Z * N;
  m_userId : string;
  m_name : string;
  m_plan : string;
  m_text : string;
  m_timestamp : Z;
  m_avatar : string
}.

Record DmMsg := {
  dm_id : Z * N;
  dm_fromId : string;
  dm_fromName : string;
  dm_fromPlan : string;
  dm_toId : string;
  dm_text : string;
  dm_timestamp : Z;
  dm_read : bool
}.

(** [userObj] of [/api/register-user]. *)
Record UserObj := {
  uo_name : value;
  uo_email : string;
  uo_username : value;
  uo_plan : string;
  uo_avatar : value;
  uo_projectsCount : Z;
  uo_updatedAt : Z
}.

(** A record of [inMemoryUsers]: the properties of [userObj], [createdAt],
    and [banned] (absent, hence falsy, until the ban route sets it). *)
Record User := {
  u_obj : UserObj;
  u_createdAt : Z;
  u_banned : bool
}.

(** A showcase project: the fields the server reads, and the rest of the
    request body carried along untouched. *)
Record Project := {
  pj_id : string;
  pj_votes : Z;
  pj_views : Z;
  pj_createdAt : Z;
  pj_body : list (string * string)
}.

(** A parsed inbound frame: [data.type] and the properties the handlers
    read, each a string or missing.  The frame [null], and the frames
    whose [text] is not a string, are added by [Parsed] and [ws_receive]
    below. *)
Record Data := {
  d_type : value;
  d_userId : value;
  d_name : value;
  d_plan : value;
  d_avatar : value;
  d_text : value;
  d_toId : value;
  d_fromName : value;
  d_fromPlan : value;
  d_withId : value;
  d_isTyping : option bool
}.

(** Frames the server sends. *)
Inductive Outbound :=
| history (messages : list Msg)
| online_users (users : list Profile)
| user_joined (user : option Profile)
| user_left (userId : string)
| message (m : Msg)
| dm (m : DmMsg)
| dm_sent (m : DmMsg)
| dm_history (withId : value) (messages : list DmMsg)
| typing (userId : string) (name : value) (isTyping : option bool)
| dm_typing (userId : string) (name : value) (isTyping : option bool)
| new_project (project : Project)
| vote_update (projectId : string) (votes : Z).

(** Bodies of HTTP responses. *)
Inductive Response :=
| res_ok
| res_error (status : Z) (error : string)
| res_project (project : Project)
| res_votes (votes : Z)
| res_already_voted.

(** What a handler does to the outside, in program order: a frame written
    to a socket, a write handed to the Mongo driver, an HTTP response. *)
Inductive Effect :=
| Send (ws : Conn) (f : Outbound)
| DbChat (m : Msg)
| DbDm (m : DmMsg)
| DbUser (set : UserObj) (setOnInsert_createdAt : Z)
| DbProject (p : Project)
| DbIncVotes (id : string)
| Reply (r : Response).

(** The module-level bindings of the server. *)
Record State := {
  db : bool;
  next_ws : Conn;
  clients : list Conn;
  connectedUserId : gmap Conn string;
  userSockets : gmap value (list Conn);
  onlineUsers : list (value * Profile);
  publicMessages : list Msg;
  dmThreads : gmap string (list DmMsg);
  inMemoryUsers : gmap string User;
  inMemoryProjects : list Project;
  inMemoryVotes : gmap string (gset string)
}.

Definition init : State := {|
  db := false;
  next_ws := 0%nat;
  clients := [];
  connectedUserId := ∅;
  userSockets := ∅;
  onlineUsers := [];
  publicMessages := [];
  dmThreads := ∅;
  inMemoryUsers := ∅;
  inMemoryProjects := [];
  inMemoryVotes := ∅
|}.

(** Assignments to the module-level bindings. *)
Definition set_db (v : bool) (s : State) : State :=
  {| db := v; next_ws := next_ws s; clients := clients s;
     connectedUserId := connectedUserId s; userSockets := userSockets s;
     onlineUsers := onlineUsers s; publicMessages := publicMessages s;
     dmThreads := dmThreads s; inMemoryUsers := inMemoryUsers s;
     inMemoryProjects := inMemoryProjects s; inMemoryVotes := inMemoryVotes s |}.

Definition set_next_ws (v : Conn) (s : State) : State :=
  {| db := db s; next_ws := v; clients := clients s;
     connectedUserId := connectedUserId s; userSockets := userSockets s;
     onlineUsers := onlineUsers s; publicMessages := publicMessages s;
     dmThreads := dmThreads s; inMemoryUsers := inMemoryUsers s;
     inMemoryProjects := inMemoryProjects s; inMemoryVotes := inMemoryVotes s |}.

Definition set_clients (v : list Conn) (s : State) : State :=
  {| db := db s; next_ws := next_ws s; clients := v;
     connectedUserId := connectedUserId s; userSockets := userSockets s;
     onlineUsers := onlineUsers s; publicMessages := publicMessages s;
     dmThreads := dmThreads s; inMemoryUsers := inMemoryUsers s;
     inMemoryProjects := inMemoryProjects s; inMemoryVotes := inMemoryVotes s |}.

Definition set_connectedUserId (v : gmap Conn string) (s : State) : State :=
  {| db := db s; next_ws := next_ws s; clients := clients s;
     connectedUserId := v; userSockets := userSockets s;
     onlineUsers := onlineUsers s; publicMessages := publicMessages s;
     dmThreads := dmThreads s; inMemoryUsers := inMemoryUsers s;
     inMemoryProjects := inMemoryProjects s; inMemoryVotes := inMemoryVotes s |}.

Definition set_userSockets (v : gmap value (list Conn)) (s : State) : State :=
  {| db := db s; next_ws := next_ws s; clients := clients s;
     connectedUserId := connectedUserId s; userSockets := v;
     onlineUsers := onlineUsers s; publicMessages := publicMessages s;
     dmThreads := dmThreads s; inMemoryUsers := inMemoryUsers s;
     inMemoryProjects := inMemoryProjects s; inMemoryVotes := inMemoryVotes s |}.

Definition set_onlineUsers (v : list (value * Profile)) (s : State) : State :=
  {| db := db s; next_ws := next_ws s; clients := clients s;
     connectedUserId := connectedUserId s; userSockets := userSockets s;
     onlineUsers := v; publicMessages := publicMessages s;
     dmThreads := dmThreads s; inMemoryUsers := inMemoryUsers s;
     inMemoryProjects := inMemoryProjects s; inMemoryVotes := inMemoryVotes s |}.

Definition set_publicMessages (v : list Msg) (s : State) : State :=
  {| db := db s; next_ws := next_ws s; clients := clients s;
     connectedUserId := connectedUserId s; userSockets := userSockets s;
     onlineUsers := onlineUsers s; publicMessages := v;
     dmThreads := dmThreads s; inMemoryUsers := inMemoryUsers s;
     inMemoryProjects := inMemoryProjects s; inMemoryVotes := inMemoryVotes s |}.

Definition set_dmThreads (v : gmap string (list DmMsg)) (s : State) : State :=
  {| db := db s; next_ws := next_ws s; clients := clients s;
     connectedUserId := connectedUserId s; userSockets := userSockets s;
     onlineUsers := onlineUsers s; publicMessages := publicMessages s;
     dmThreads := v; inMemoryUsers := inMemoryUsers s;
     inMemoryProjects := inMemoryProjects s; inMemoryVotes := inMemoryVotes s |}.

Definition set_inMemoryUsers (v : gmap string User) (s : State) : State :=
  {| db := db s; next_ws := next_ws s; clients := clients s;
     connectedUserId := connectedUserId s; userSockets := userSockets s;
     onlineUsers := onlineUsers s; publicMessages := publicMessages s;
     dmThreads := dmThreads s; inMemoryUsers := v;
     inMemoryProjects := inMemoryProjects s; inMemoryVotes := inMemoryVotes s |}.

Definition set_inMemoryProjects (v : list Project) (s : State) : State :=
  {| db := db s; next_ws := next_ws s; clients := clients s;
     connectedUserId := connectedUserId s; userSockets := userSockets s;
     onlineUsers := onlineUsers s; publicMessages := publicMessages s;
     dmThreads := dmThreads s; inMemoryUsers := inMemoryUsers s;
     inMemoryProjects := v; inMemoryVotes := inMemoryVotes s |}.

Definition set_inMemoryVotes (v : gmap string (gset string)) (s : State) : State :=
  {| db := db s; next_ws := next_ws s; clients := clients s;
     connectedUserId := connectedUserId s; userSockets := userSockets s;
     onlineUsers := onlineUsers s; publicMessages := publicMessages s;
     dmThreads := dmThreads s; inMemoryUsers := inMemoryUsers s;
     inMemoryProjects := inMemoryProjects s; inMemoryVotes := v |}.

(** ** The WebSocket hub *)

(** [wss.clients] holds the sockets whose [readyState] is [OPEN]. *)
Definition broadcastToAll (s : State) (data : Outbound) : list Effect :=
  (λ ws, Send ws data) <$> clients s.

Definition sendToUser (s : State) (userId : value) (data : Outbound) : list Effect :=
  match userSockets s !! userId with
  | None => []
  | Some sockets =>
      (λ ws, Send ws data) <$> filter (λ ws, ws ∈ clients s) sockets
  end.

Definition capacity : nat := 200.
Definition replay : nat := 50.
Definition max_text : nat := 500.

(** [publicMessages.push(msg); if (publicMessages.length > 200)
    publicMessages.shift()]. *)
Definition push_shift (msg : Msg) (l : list Msg) : list Msg :=
  let l' := l ++ [msg] in
  if decide (capacity < length l')%nat then drop 1 l' else l'.

(** Handlers are scoped to one connection [ws]; its closure variable
    [connectedUserId] is the entry of [ws] in the map of that name, absent
    while the variable is [null] or [undefined]. *)
Section Connection.
Variable ws : Conn.

Definition on_join (data : Data) (s : State) : State * list Effect :=
  let uid := d_userId data in
  let s1 := set_connectedUserId
              (match uid with
               | Some u => <[ws := u]> (connectedUserId s)
               | None => delete ws (connectedUserId s)
               end) s in
  let s2 := set_userSockets (ensure uid [] (userSockets s1)) s1 in
  let s3 := set_userSockets (alter (Set_add ws) uid (userSockets s2)) s2 in
  let s4 := set_onlineUsers
              (Map_set uid {| pr_id := uid;
                              pr_name := or_str (d_name data) "Anonyme";
                              pr_plan := or_str (d_plan data) "free";
                              pr_avatar := or_str (d_avatar data) "👤" |}
                 (onlineUsers s3)) s3 in
  (s4,
   Send ws (history (slice_last replay (publicMessages s4)))
     :: broadcastToAll s4 (online_users (Map_values (onlineUsers s4)))
     ++ broadcastToAll s4 (user_joined (Map_get uid (onlineUsers s4)))).

(** The [msg] object built by the [message] case, for a [text] that is a
    string or missing; [ws_receive] has the other texts. *)
Definition make_msg (userId : string) (clk : Clock) (data : Data) : Msg :=
  {| m_id := (Date_now clk, Math_random clk);
     m_userId := userId;
     m_name := or_str (d_name data) "Anonyme";
     m_plan := or_str (d_plan data) "free";
     m_text := slice0 max_text (or_str (d_text data) "");
     m_timestamp := new_Date clk;
     m_avatar := or_str (d_avatar data) "👤" |}.

(** The identity the connection is bound to: [connectedUserId] when it is
    truthy (the handlers start with [if (!connectedUserId) return]). *)
Definition bound (s : State) : option string :=
  match connectedUserId s !! ws with
  | Some u => if String.eqb u "" then None else Some u
  | None => None
  end.

Definition on_message (clk : Clock) (data : Data) (s : State) : State * list Effect :=
  match bound s with
  | None => (s, [])
  | Some u =>
      let msg := make_msg u clk data in
      let s1 := set_publicMessages (push_shift msg (publicMessages s)) s in
      (s1,
       (if db s1 then [DbChat msg] else [])
         ++ broadcastToAll s1 (message msg))
  end.

(** The [dmMsg] object built by the [dm] case, for a [text] that is a
    string or missing; [ws_receive] has the other texts. *)
Definition make_dm (userId toId : string) (clk : Clock) (data : Data) : DmMsg :=
  {| dm_id := (Date_now clk, Math_random clk);
     dm_fromId := userId;
     dm_fromName := or_str (d_fromName data) "Anonyme";
     dm_fromPlan := or_str (d_fromPlan data) "free";
     dm_toId := toId;
     dm_text := slice0 max_text (or_str (d_text data) "");
     dm_timestamp := new_Date clk;
     dm_read := false |}.

Definition on_dm (clk : Clock) (data : Data) (s : State) : State * list Effect :=
  match bound s with
  | None => (s, [])
  | Some u =>
      match d_toId data with
      | None => (s, [])
      | Some toId =>
          if String.eqb toId "" || String.eqb toId u then (s, [])
          else
            let dmMsg := make_dm u toId clk data in
            let key := getDMKey (Some u) (Some toId) in
            let s1 := set_dmThreads (ensure key [] (dmThreads s)) s in
            let s2 := set_dmThreads
                        (alter (λ l, l ++ [dmMsg]) key (dmThreads s1)) s1 in
            (s2,
             (if db s2 then [DbDm dmMsg] else [])
               ++ sendToUser s2 (Some toId) (dm dmMsg)
               ++ sendToUser s2 (Some u) (dm_sent dmMsg))
      end
  end.

Definition on_get_dm_history (data : Data) (s : State) : State * list Effect :=
  match bound s with
  | None => (s, [])
  | Some u =>
      let key := getDMKey (Some u) (d_withId data) in
      (s, [Send ws (dm_history (d_withId data)
                      (default [] (dmThreads s !! key)))])
  end.

Definition on_typing (data : Data) (s : State) : State * list Effect :=
  match bound s with
  | None => (s, [])
  | Some u =>
      (s, broadcastToAll s (typing u (d_name data) (d_isTyping data)))
  end.

Definition on_dm_typing (data : Data) (s : State) : State * list Effect :=
  match bound s with
  | None => (s, [])
  | Some u =>
      (s, sendToUser s (d_toId data)
            (dm_typing u (d_name data) (d_isTyping data)))
  end.

(** [ws.on('message')] on a frame that does not parse ([raw] is [None]:
    [JSON.parse] throws and the [catch] returns) or that parses to an
    object typed as [Data]; [ws_receive] has the other frames. *)
Definition ws_on_message (clk : Clock) (raw : option Data) (s : State)
  : State * list Effect :=
  match raw with
  | None => (s, [])
  | Some data =>
      if decide (d_type data = Some "join") then on_join data s
      else if decide (d_type data = Some "message") then on_message clk data s
      else if decide (d_type data = Some "dm") then on_dm clk data s
      else if decide (d_type data = Some "get_dm_history") then on_get_dm_history data s
      else if decide (d_type data = Some "typing") then on_typing data s
      else if decide (d_type data = Some "dm_typing") then on_dm_typing data s
      else (s, [])
  end.

(** [ws.on('close')].  The socket has already left [wss.clients]. *)
Definition ws_on_close (s : State) : State * list Effect :=
  match bound s with
  | None => (s, [])
  | Some u =>
      match userSockets s !! Some u with
      | None => (s, [])
      | Some sockets =>
          let sockets' := Set_delete ws sockets in
          let s1 := set_userSockets (<[Some u := sockets']> (userSockets s)) s in
          if decide (length sockets' = 0%nat) then
            let s2 := set_userSockets (delete (Some u) (userSockets s1)) s1 in
            let s3 := set_onlineUsers (Map_delete (Some u) (onlineUsers s2)) s2 in
            (s3,
             broadcastToAll s3 (user_left u)
               ++ broadcastToAll s3 (online_users (Map_values (onlineUsers s3))))
          else (s1, [])
      end
  end.
End Connection.

(** ** The HTTP handlers over the in-memory store *)

Record RegisterBody := {
  rb_name : value;
  rb_email : value;
  rb_plan : value;
  rb_createdAt : option Z;
  rb_projectsCount : option Z;
  rb_username : value;
  rb_avatar : value
}.

(** [{ ...existing, ...userObj, createdAt: existing.createdAt || new Date() }]
    where [existing] is the stored record, or [{}]. *)
Definition merge_user (existing : option User) (userObj : UserObj) (now : Z) : User :=
  {| u_obj := userObj;
     u_createdAt := default now (u_createdAt <$> existing);
     u_banned := default false (u_banned <$> existing) |}.

(** The [userObj] object built by [/api/register-user]. *)
Definition make_userObj (email : string) (clk : Clock) (body : RegisterBody)
  : UserObj :=
  {| uo_name := rb_name body;
     uo_email := email;
     uo_username := rb_username body;
     uo_plan := or_str (rb_plan body) "free";
     uo_avatar := rb_avatar body;
     uo_projectsCount := or_zero (rb_projectsCount body);
     uo_updatedAt := new_Date clk |}.

(** [createdAt || new Date()] on the [createdAt] of the request body: a
    missing or zero [createdAt] is falsy. *)
Definition createdAt_or_now (clk : Clock) (body : RegisterBody) : Z :=
  match rb_createdAt body with
  | Some t => or_num t (new_Date_2 clk)
  | None => new_Date_2 clk
  end.

(** [POST /api/register-user].  With a database the handler hands the
    driver [updateOne({ email }, { $set: userObj, $setOnInsert:
    { createdAt: createdAt || new Date() } }, { upsert: true })] and
    awaits it; the branch is the one of a call that resolves.  (When the
    call rejects, the [catch] answers 500 instead of [ok]; the state is
    the same.) *)
Definition register_user (clk : Clock) (body : RegisterBody) (s : State)
  : State * list Effect :=
  match rb_email body with
  | None => (s, [Reply (res_error 400 "Email requis")])
  | Some email =>
      if String.eqb email "" then (s, [Reply (res_error 400 "Email requis")])
      else
        let userObj := make_userObj email clk body in
        if db s then
          (s, [DbUser userObj (createdAt_or_now clk body); Reply res_ok])
        else
          let existing := inMemoryUsers s !! email in
          (set_inMemoryUsers
             (<[email := merge_user existing userObj (new_Date_2 clk)]>
                (inMemoryUsers s)) s,
           [Reply res_ok])
  end.

Record ProjectBody := {
  pb_id : value;
  pb_rest : list (string * string)
}.

(** [inMemoryProjects.unshift(proj); if (inMemoryProjects.length > 200)
    inMemoryProjects.pop()]. *)
Definition unshift_pop (proj : Project) (l : list Project) : list Project :=
  let l' := proj :: l in
  if decide (capacity < length l')%nat then take (length l' - 1) l' else l'.

(** [POST /api/projects]. *)
Definition post_project (clk : Clock) (body : ProjectBody) (s : State)
  : State * list Effect :=
  let proj :=
    {| pj_id := or_str (pb_id body) ("proj_" +:+ pretty (Date_now clk));
       pj_votes := 0;
       pj_views := 0;
       pj_createdAt := new_Date clk;
       pj_body := pb_rest body |} in
  let s1 := if db s then s
            else set_inMemoryProjects (unshift_pop proj (inMemoryProjects s)) s in
  (s1,
   (if db s then [DbProject proj] else [])
     ++ broadcastToAll s1 (new_project proj)
     ++ [Reply (res_project proj)]).

(** [proj.votes = v]. *)
Definition set_votes (v : Z) (proj : Project) : Project :=
  {| pj_id := pj_id proj; pj_votes := v; pj_views := pj_views proj;
     pj_createdAt := pj_createdAt proj; pj_body := pj_body proj |}.

(** [const proj = inMemoryProjects.find(p => p.id === id);
    if (proj) { proj.votes = (proj.votes || 0) + 1; newVotes = proj.votes; }]
    The record found is updated in place; [newVotes] starts at 0. *)
Definition count_vote (id : string) (projects : list Project) : list Project * Z :=
  match list_find (λ p, pj_id p = id) projects with
  | Some (i, proj) =>
      let votes := or_num (pj_votes proj) 0 + 1 in
      (<[i := set_votes votes proj]> projects, votes)
  | None => (projects, 0)
  end.

(** [POST /api/projects/:id/vote].  [result_votes] is [result?.votes] of the
    document the Mongo driver returns when [db] is set: the branch on [db]
    is the one of a call that resolves.  (When the call rejects, the voter
    is recorded all the same, nothing is broadcast and the [catch] answers
    500; the state is the same.) *)
Definition vote (id : string) (userId : value) (result_votes : option Z)
    (s : State) : State * list Effect :=
  match userId with
  | None => (s, [Reply (res_error 400 "userId requis")])
  | Some uid =>
      if String.eqb uid "" then (s, [Reply (res_error 400 "userId requis")])
      else
        let s1 := set_inMemoryVotes (ensure id ∅ (inMemoryVotes s)) s in
        if decide (uid ∈ default ∅ (inMemoryVotes s1 !! id)) then
          (s1, [Reply res_already_voted])
        else
          let s2 := set_inMemoryVotes
                      (alter (λ voters, voters ∪ {[uid]}) id (inMemoryVotes s1))
                      s1 in
          (* [r.1] is [inMemoryProjects] and [r.2] is [newVotes] after the
             branch on [db] *)
          let r := if db s2
                   then (inMemoryProjects s2, or_num (default 0 result_votes) 1)
                   else count_vote id (inMemoryProjects s2) in
          let s3 := set_inMemoryProjects r.1 s2 in
          (s3,
           (if db s2 then [DbIncVotes id] else [])
             ++ broadcastToAll s3 (vote_update id r.2)
             ++ [Reply (res_votes r.2)])
  end.

(** ** The event loop *)

Inductive Event :=
| db_connected
| connection
| ws_message (ws : Conn) (clk : Clock) (raw : option Data)
| ws_close (ws : Conn)
| http_register_user (clk : Clock) (body : RegisterBody)
| http_post_project (clk : Clock) (body : ProjectBody)
| http_vote (id : string) (userId : value) (result_votes : option Z).

(** One turn of the loop.  A [ws] object is allocated by the server when
    the handshake completes; frames and the close notification reach only
    sockets that are open. *)
Definition step (ev : Event) (s : State) : State * list Effect :=
  match ev with
  | db_connected => (set_db true s, [])
  | connection =>
      (set_next_ws (S (next_ws s))
         (set_clients (Set_add (next_ws s) (clients s)) s), [])
  | ws_message ws clk raw =>
      if decide (ws ∈ clients s) then ws_on_message ws clk raw s else (s, [])
  | ws_close ws =>
      if decide (ws ∈ clients s)
      then ws_on_close ws (set_clients (Set_delete ws (clients s)) s)
      else (s, [])
  | http_register_user clk body => register_user clk body s
  | http_post_project clk body => post_project clk body s
  | http_vote id userId result_votes => vote id userId result_votes s
  end.

Fixpoint run (evs : list Event) (s : State) : State * list Effect :=
  match evs with
  | [] => (s, [])
  | ev :: evs' =>
      let '(s1, out1) := step ev s in
      let '(s2, out2) := run evs' s1 in
      (s2, out1 ++ out2)
  end.

Definition exec (evs : list Event) (s : State) : State := (run evs s).1.

Definition reachable (s : State) : Prop := ∃ evs, exec evs init = s.

(** ** Observations the properties are stated with *)

(** [s'] has the bindings of the WebSocket hub that [s] has. *)
Definition same_hub (s s' : State) : Prop :=
  next_ws s' = next_ws s ∧ clients s' = clients s
  ∧ connectedUserId s' = connectedUserId s ∧ userSockets s' = userSockets s
  ∧ onlineUsers s' = onlineUsers s ∧ publicMessages s' = publicMessages s
  ∧ dmThreads s' = dmThreads s.

(** [s'] has the store, and the open sockets, that [s] has. *)
Definition same_store (s s' : State) : Prop :=
  db s' = db s ∧ next_ws s' = next_ws s ∧ clients s' = clients s
  ∧ inMemoryUsers s' = inMemoryUsers s
  ∧ inMemoryProjects s' = inMemoryProjects s
  ∧ inMemoryVotes s' = inMemoryVotes s.

(** The public message an event makes the server accept, if any: a frame
    of type [message] on an open connection that is bound to an identity. *)
Definition accepted (ev : Event) (s : State) : option Msg :=
  match ev with
  | ws_message ws clk (Some data) =>
      if decide (ws ∈ clients s ∧ d_type data = Some "message")
      then (λ u, make_msg u clk data) <$> bound ws s
      else None
  | _ => None
  end.

(** Every public message accepted along a run, oldest first. *)
Fixpoint sent (evs : list Event) (s : State) : list Msg :=
  match evs with
  | [] => []
  | ev :: evs' => option_list (accepted ev s) ++ sent evs' (step ev s).1
  end.

(** The event is a [join] frame on connection [ws]. *)
Definition is_join_on (ws : Conn) (ev : Event) : bool :=
  match ev with
  | ws_message ws' _ (Some data) =>
      bool_decide (ws' = ws ∧ d_type data = Some "join")
  | _ => false
  end.

(** No [join] frame on [ws] occurs in the run. *)
Definition never_joined (ws : Conn) (evs : list Event) : bool :=
  forallb (λ ev, negb (is_join_on ws ev)) evs.

(** The frame types whose handler starts with
    [if (!connectedUserId) return]. *)
Definition needs_identity (data : Data) : bool :=
  bool_decide (d_type data ∈ [Some "message"; Some "dm"; Some "get_dm_history";
                              Some "typing"; Some "dm_typing"]).

(** The frames that a list of effects writes to [ws], in order. *)
Definition frames_to (ws : Conn) (out : list Effect) : list Outbound :=
  omap (λ e, match e with
             | Send ws' f => if decide (ws' = ws) then Some f else None
             | _ => None
             end) out.

Definition is_history (f : Outbound) : bool :=
  match f with history _ => true | _ => false end.

(** The voter set of a target, empty until the first vote. *)
Definition voters (id : string) (s : State) : gset string :=
  default ∅ (inMemoryVotes s !! id).

(** The record [inMemoryProjects.find(p => p.id === id)] returns. *)
Definition find_project (id : string) (s : State) : option Project :=
  snd <$> list_find (λ p, pj_id p = id) (inMemoryProjects s).

(** The count the vote route reads for a target: [votes] of the record
    found, and 0 when there is none. *)
Definition vote_count (id : string) (s : State) : Z :=
  default 0 (pj_votes <$> find_project id s).

(** The writes handed to the Mongo driver among the effects of a handler. *)
Definition is_db_write (e : Effect) : bool :=
  match e with
  | Send _ _ | Reply _ => false
  | _ => true
  end.

Definition db_writes (out : list Effect) : list Effect :=
  filter (λ e, is_db_write e) out.

(** The replies among the effects of a handler. *)
Definition replies (out : list Effect) : list Response :=
  omap (λ e, match e with Reply r => Some r | _ => None end) out.

(** User [u] owns an open connection: a socket of its set is open. *)
Definition owns_open_connection (u : value) (s : State) : Prop :=
  ∃ ws, ws ∈ default [] (userSockets s !! u) ∧ ws ∈ clients s.

(** ** The other routes over the store, and the admin routes *)

(** A property value of a frame or of a request body that the server takes
    as it comes: a string, an integer or a boolean. *)
Inductive Json :=
| jstr (s : string)
| jnum (n : Z)
| jbool (b : bool).

#[global] Instance Json_eq_dec : EqDecision Json.
Proof. solve_decision. Defined.

(** An object, by its own properties; [{ ...body, k: v }] is
    [<[k := v]> body] and [Object.assign(g, settings)] is [settings ∪ g]. *)
Abbreviation Obj := (gmap string Json).

(** What a route answers. *)
Inductive Answer :=
| ans_ok
| ans_denied
| ans_not_found
| ans_user (user : User)
| ans_projects (projects : list Project)
| ans_list (items : list Obj)
| ans_group (group : Obj).

(** [GET /api/user/:email].  [found] is what [findOne] returns when [db]
    is set. *)

Definition get_user (email : string) (found : option User) (s : State) : Answer :=
  match (if db s then found else inMemoryUsers s !! email) with
  | Some user => ans_user user
  | None => ans_not_found
  end.

(** [[...inMemoryProjects].sort((a, b) => b.votes - a.votes)]: a stable
    sort, larger counts first.  The head of the list came before everything
    sorted so far, so it goes in front of the first record whose count is
    not larger. *)
Fixpoint insert_by_votes (p : Project) (l : list Project) : list Project :=
  match l with
  | [] => [p]
  | q :: r =>
      if decide (pj_votes p < pj_votes q) then q :: insert_by_votes p r
      else p :: q :: r
  end.

Definition sort_by_votes (l : list Project) : list Project :=
  foldr insert_by_votes [] l.

(** [GET /api/projects].  [found] is what the Mongo cursor returns when
    [db] is set. *)
Definition get_projects (found : list Project) (s : State) : Answer :=
  ans_projects (if db s then found else sort_by_votes (inMemoryProjects s)).

(** [process.env.ADMIN_KEY || 'viralboost-admin']. *)
Definition ADMIN_KEY (env : value) : string := or_str env "viralboost-admin".

(** Frames sent by the admin routes and the group routes. *)
Inductive AdminFrame :=
| banned (message : string)
| project_deleted (projectId : string)
| new_group (group : Obj)
| group_message (groupId : string) (message : Obj).

(** What these routes do to the outside: a frame written to a socket, a
    write handed to the Mongo driver, the HTTP response. *)
Inductive Out :=
| Notify (ws : Conn) (f : AdminFrame)
| DbBan (email : value) (bannedAt : Z)
| DbDeleteProject (id : string)
| DbInsert (collection : string) (doc : Obj)
| DbSetGroup (id : string) (creatorId : option Json) (set : option Obj)
| Answered (a : Answer).

(** [broadcastToAll] and [sendToUser] on these frames. *)
Definition notifyAll (s : State) (data : AdminFrame) : list Out :=
  (λ ws, Notify ws data) <$> clients s.

Definition notifyUser (s : State) (userId : value) (data : AdminFrame) : list Out :=
  match userSockets s !! userId with
  | None => []
  | Some sockets =>
      (λ ws, Notify ws data) <$> filter (λ ws, ws ∈ clients s) sockets
  end.

(** [u.banned = true]. *)
Definition set_banned (u : User) : User :=
  {| u_obj := u_obj u; u_createdAt := u_createdAt u; u_banned := true |}.

(** [POST /api/admin/ban]: [key] and [email] are the properties of that
    name of the request body.  With a database the update is awaited; the
    branch is the one of a call that resolves.  (When the call rejects,
    no frame is sent and the [catch] answers 500.) *)
Definition admin_ban (env : value) (clk : Clock) (key email : value) (s : State)
  : State * list Out :=
  if decide (key = Some (ADMIN_KEY env)) then
    let s1 :=
      if db s then s
      else match email with
           | Some e =>
               match inMemoryUsers s !! e with
               | Some u => set_inMemoryUsers (<[e := set_banned u]> (inMemoryUsers s)) s
               | None => s
               end
           | None => s
           end in
    (s1,
     (if db s then [DbBan email (new_Date clk)] else [])
       ++ notifyUser s1 email (banned "Ton compte a été suspendu.")
       ++ [Answered ans_ok])
  else (s, [Answered ans_denied]).

(** [DELETE /api/projects/:id]: [findIndex] then [splice(idx, 1)]. *)
Definition admin_delete_project (env : value) (key : value) (id : string)
    (s : State) : State * list Out :=
  if decide (key = Some (ADMIN_KEY env)) then
    let s1 :=
      if db s then s
      else match list_find (λ p, pj_id p = id) (inMemoryProjects s) with
           | Some (idx, _) =>
               set_inMemoryProjects (delete idx (inMemoryProjects s)) s
           | None => s
           end in
    (s1,
     (if db s then [DbDeleteProject id] else [])
       ++ notifyAll s1 (project_deleted id)
       ++ [Answered ans_ok])
  else (s, [Answered ans_denied]).

(** ** The event loop with the reading routes and the admin routes *)

Inductive Request :=
| core (ev : Event)
| http_get_user (email : string) (found : option User)
| http_get_projects (found : list Project)
| http_admin_ban (clk : Clock) (key email : value)
| http_admin_delete_project (key : value) (id : string).

(** One turn; [env] is the value of [process.env.ADMIN_KEY]. *)
Definition serve (env : value) (rq : Request) (s : State)
  : State * list (Effect + Out) :=
  match rq with
  | core ev => ((step ev s).1, inl <$> (step ev s).2)
  | http_get_user email found => (s, [inr (Answered (get_user email found s))])
  | http_get_projects found => (s, [inr (Answered (get_projects found s))])
  | http_admin_ban clk key email =>
      ((admin_ban env clk key email s).1, inr <$> (admin_ban env clk key email s).2)
  | http_admin_delete_project key id =>
      ((admin_delete_project env key id s).1,
       inr <$> (admin_delete_project env key id s).2)
  end.

Fixpoint serve_all (env : value) (rqs : list Request) (s : State) : State :=
  match rqs with
  | [] => s
  | rq :: rqs' => serve_all env rqs' (serve env rq s).1
  end.

Definition reachable_all (env : value) (s : State) : Prop :=
  ∃ rqs, serve_all env rqs init = s.

(** ** Further observations *)


(** The sockets registered under a user id. *)
Definition registered (u : value) (s : State) : list Conn :=
  default [] (userSockets s !! u).

(** The presence entry a [join] frame stores. *)
Definition join_profile (data : Data) : Profile :=
  {| pr_id := d_userId data;
     pr_name := or_str (d_name data) "Anonyme";
     pr_plan := or_str (d_plan data) "free";
     pr_avatar := or_str (d_avatar data) "👤" |}.

(** No socket is listed twice, in [wss.clients] or in a user's socket set;
    every open or bound socket was allocated; the roster has one entry per
    key, and its keys are the user ids whose socket set is not empty; an
    open socket is in the socket set of the identity it is bound to. *)
Definition hub_wf (s : State) : Prop :=
  NoDup (clients s)
  ∧ (∀ ws, ws ∈ clients s → (ws < next_ws s)%nat)
  ∧ (∀ u, NoDup (registered u s))
  ∧ NoDup (onlineUsers s).*1
  ∧ (∀ u, Map_has u (onlineUsers s) ↔ registered u s ≠ [])
  ∧ (∀ ws u, connectedUserId s !! ws = Some u → (ws < next_ws s)%nat)
  ∧ (∀ ws u, ws ∈ clients s → connectedUserId s !! ws = Some u →
             ws ∈ registered (Some u) s).

(** The frames of the admin routes written to [ws], in order. *)
Definition notices_to (ws : Conn) (out : list Out) : list AdminFrame :=
  omap (λ o, match o with
             | Notify ws' f => if decide (ws' = ws) then Some f else None
             | _ => None
             end) out.

(** The answers among the outputs of an admin route. *)
Definition answers (out : list Out) : list Answer :=
  omap (λ o, match o with Answered a => Some a | _ => None end) out.




(** No socket is bound to the empty identity, and every socket of a user's
    socket set is open and bound to that user. *)
Definition sets_hold_bound_sockets (s : State) : Prop :=
  (∀ ws v, connectedUserId s !! ws = Some v → v ≠ "")
  ∧ (∀ u ws, ws ∈ registered u s →
             ws ∈ clients s ∧ ∃ v, u = Some v ∧ connectedUserId s !! ws = Some v).

(** The sum of the counters of the records that carry [id]. *)
Definition votes_for (id : string) (l : list Project) : Z :=
  foldr (λ p acc, if decide (pj_id p = id) then pj_votes p + acc else acc) 0 l.

(** The in-memory project list holds at most 200 records, no counter is
    negative, and for every id the counters of the records that carry it
    sum to at most the number of voters recorded for it. *)
Definition store_wf (s : State) : Prop :=
  (length (inMemoryProjects s) ≤ 200)%nat
  ∧ Forall (λ p, 0 ≤ pj_votes p) (inMemoryProjects s)
  ∧ ∀ id, votes_for id (inMemoryProjects s) ≤ Z.of_nat (size (voters id s)).

(** The [proj] object built by [POST /api/projects]. *)
Definition make_project (clk : Clock) (body : ProjectBody) : Project :=
  {| pj_id := or_str (pb_id body) ("proj_" +:+ pretty (Date_now clk));
     pj_votes := 0;
     pj_views := 0;
     pj_createdAt := new_Date clk;
     pj_body := pb_rest body |}.

(** A [join] frame that binds a socket for the first time, or again to the
    identity it has, and names a non-empty identity. *)
Definition join_keeps_identity (rq : Request) (s : State) : bool :=
  match rq with
  | core (ws_message ws _ (Some data)) =>
      if decide (ws ∈ clients s ∧ d_type data = Some "join") then
        match d_userId data with
        | Some u =>
            negb (String.eqb u "")
            && bool_decide (connectedUserId s !! ws = None
                            ∨ connectedUserId s !! ws = Some u)
        | None => false
        end
      else true
  | _ => true
  end.

(** Every [join] frame of the run keeps the identity of its socket. *)
Fixpoint no_rebinding (env : value) (rqs : list Request) (s : State) : bool :=
  match rqs with
  | [] => true
  | rq :: rqs' =>
      join_keeps_identity rq s && no_rebinding env rqs' (serve env rq s).1
  end.

(** ** Groups, reports and messages to the admin *)

(** [v || d] on a property that may be missing. *)
Definition js_or (v : option Json) (d : Json) : Json :=
  match v with
  | Some (jstr s) => if String.eqb s "" then d else jstr s
  | Some (jnum n) => if Z.eqb n 0 then d else jnum n
  | Some (jbool b) => if b then jbool true else d
  | None => d
  end.

(** The arrays and the map these routes keep when there is no database. *)
Record Board := {
  inMemoryGroups : list Obj;
  inMemoryGroupMessages : gmap string (list Obj);
  inMemoryReports : list Obj;
  inMemoryAdminDMs : list Obj
}.

Definition board_init : Board :=
  {| inMemoryGroups := []; inMemoryGroupMessages := ∅;
     inMemoryReports := []; inMemoryAdminDMs := [] |}.

Definition set_inMemoryGroups (v : list Obj) (b : Board) : Board :=
  {| inMemoryGroups := v;
     inMemoryGroupMessages := inMemoryGroupMessages b;
     inMemoryReports := inMemoryReports b;
     inMemoryAdminDMs := inMemoryAdminDMs b |}.

Definition set_inMemoryGroupMessages (v : gmap string (list Obj)) (b : Board)
  : Board :=
  {| inMemoryGroups := inMemoryGroups b;
     inMemoryGroupMessages := v;
     inMemoryReports := inMemoryReports b;
     inMemoryAdminDMs := inMemoryAdminDMs b |}.

Definition set_inMemoryReports (v : list Obj) (b : Board) : Board :=
  {| inMemoryGroups := inMemoryGroups b;
     inMemoryGroupMessages := inMemoryGroupMessages b;
     inMemoryReports := v;
     inMemoryAdminDMs := inMemoryAdminDMs b |}.

Definition set_inMemoryAdminDMs (v : list Obj) (b : Board) : Board :=
  {| inMemoryGroups := inMemoryGroups b;
     inMemoryGroupMessages := inMemoryGroupMessages b;
     inMemoryReports := inMemoryReports b;
     inMemoryAdminDMs := v |}.

(** [insertOne(doc)] gives the document the [_id] the driver made up,
    unless it has one; the object is changed in place, so what is sent
    after the insertion carries it. *)
Definition inserted (oid : string) (doc : Obj) : Obj :=
  match doc !! "_id" with
  | Some _ => doc
  | None => <["_id" := jstr oid]> doc
  end.

(** [GET /api/groups]; [found] is what the driver returns. *)
Definition get_groups (found : list Obj) (s : State) (b : Board) : Answer :=
  ans_list (if db s then found else inMemoryGroups b).

(** [{ ...req.body, id: req.body.id || ('grp_' + Date.now()),
      createdAt: new Date(), membersCount: 1 }]. *)
Definition make_group (clk : Clock) (body : Obj) : Obj :=
  <["membersCount" := jnum 1]>
    (<["createdAt" := jnum (new_Date clk)]>
       (<["id" := js_or (body !! "id") (jstr ("grp_" +:+ pretty (Date_now clk)))]>
          body)).

(** [POST /api/groups]. *)
Definition post_group (clk : Clock) (oid : string) (body : Obj) (s : State)
    (b : Board) : Board * list Out :=
  let group := make_group clk body in
  if db s then
    (b, DbInsert "groups" group
        :: notifyAll s (new_group (inserted oid group))
        ++ [Answered (ans_group (inserted oid group))])
  else
    (set_inMemoryGroups (group :: inMemoryGroups b) b,
     notifyAll s (new_group group) ++ [Answered (ans_group group)]).

(** [GET /api/groups/:id/messages]:
    [inMemoryGroupMessages.get(req.params.id) || []]. *)
Definition get_group_messages (id : string) (found : list Obj) (s : State)
    (b : Board) : Answer :=
  ans_list (if db s then found
            else default [] (inMemoryGroupMessages b !! id)).

(** [{ ...req.body, groupId: req.params.id, timestamp: new Date() }]. *)
Definition make_group_message (id : string) (clk : Clock) (body : Obj) : Obj :=
  <["timestamp" := jnum (new_Date clk)]> (<["groupId" := jstr id]> body).

(** [POST /api/groups/:id/messages]. *)
Definition post_group_message (id : string) (clk : Clock) (oid : string)
    (body : Obj) (s : State) (b : Board) : Board * list Out :=
  let msg := make_group_message id clk body in
  if db s then
    (b, DbInsert "group_messages" msg
        :: notifyAll s (group_message id (inserted oid msg))
        ++ [Answered ans_ok])
  else
    (set_inMemoryGroupMessages
       (alter (λ l, l ++ [msg]) id (ensure id [] (inMemoryGroupMessages b))) b,
     notifyAll s (group_message id msg) ++ [Answered ans_ok]).

(** [g.id === req.params.id && g.creatorId === requesterId]. *)
Definition owned_by (id : string) (requesterId : option Json) (g : Obj) : Prop :=
  g !! "id" = Some (jstr id) ∧ g !! "creatorId" = requesterId.

#[global] Instance owned_by_dec id requesterId g :
  Decision (owned_by id requesterId g).
Proof. unfold owned_by. apply _. Defined.

(** [Object.assign(g, settings)]; [settings] may be missing. *)
Definition Object_assign (g : Obj) (settings : option Obj) : Obj :=
  default ∅ settings ∪ g.

(** [PUT /api/groups/:id/settings]: [settings] and [requesterId] are the
    properties of that name of the request body. *)
Definition put_group_settings (id : string) (settings : option Obj)
    (requesterId : option Json) (s : State) (b : Board) : Board * list Out :=
  if db s then
    (b, [DbSetGroup id requesterId settings; Answered ans_ok])
  else
    (match list_find (owned_by id requesterId) (inMemoryGroups b) with
     | Some (i, g) =>
         set_inMemoryGroups
           (<[i := Object_assign g settings]> (inMemoryGroups b)) b
     | None => b
     end,
     [Answered ans_ok]).

(** [{ ...req.body, createdAt: new Date(), id: 'rep_' + Date.now(),
      status: 'pending' }]. *)
Definition make_report (clk : Clock) (body : Obj) : Obj :=
  <["status" := jstr "pending"]>
    (<["id" := jstr ("rep_" +:+ pretty (Date_now clk))]>
       (<["createdAt" := jnum (new_Date clk)]> body)).

(** [POST /api/report]. *)
Definition post_report (clk : Clock) (body : Obj) (s : State) (b : Board)
  : Board * list Out :=
  let report := make_report clk body in
  if db s then (b, [DbInsert "reports" report; Answered ans_ok])
  else (set_inMemoryReports (inMemoryReports b ++ [report]) b,
        [Answered ans_ok]).

(** [{ ...req.body, createdAt: new Date(), id: 'adm_' + Date.now(),
      read: false }]. *)
Definition make_admin_dm (clk : Clock) (body : Obj) : Obj :=
  <["read" := jbool false]>
    (<["id" := jstr ("adm_" +:+ pretty (Date_now clk))]>
       (<["createdAt" := jnum (new_Date clk)]> body)).

(** [POST /api/admin-dm]. *)
Definition post_admin_dm (clk : Clock) (body : Obj) (s : State) (b : Board)
  : Board * list Out :=
  let dm := make_admin_dm clk body in
  if db s then (b, [DbInsert "admin_dms" dm; Answered ans_ok])
  else (set_inMemoryAdminDMs (inMemoryAdminDMs b ++ [dm]) b,
        [Answered ans_ok]).

(** [GET /api/admin/reports] and [GET /api/admin/dms]; [key] is
    [req.query.key]. *)
Definition admin_reports (env : value) (key : value) (found : list Obj)
    (s : State) (b : Board) : Answer :=
  if decide (key = Some (ADMIN_KEY env)) then
    ans_list (if db s then found else inMemoryReports b)
  else ans_denied.

Definition admin_dms (env : value) (key : value) (found : list Obj)
    (s : State) (b : Board) : Answer :=
  if decide (key = Some (ADMIN_KEY env)) then
    ans_list (if db s then found else inMemoryAdminDMs b)
  else ans_denied.

(** The requests of these routes. *)
Inductive BoardRequest :=
| http_get_groups (found : list Obj)
| http_post_group (clk : Clock) (oid : string) (body : Obj)
| http_get_group_messages (id : string) (found : list Obj)
| http_post_group_message (id : string) (clk : Clock) (oid : string) (body : Obj)
| http_put_group_settings (id : string) (settings : option Obj)
    (requesterId : option Json)
| http_post_report (clk : Clock) (body : Obj)
| http_post_admin_dm (clk : Clock) (body : Obj)
| http_admin_reports (key : value) (found : list Obj)
| http_admin_dms (key : value) (found : list Obj).

(** One request, handled while the hub and the store are in state [s]. *)
Definition board_serve (env : value) (s : State) (rq : BoardRequest) (b : Board)
  : Board * list Out :=
  match rq with
  | http_get_groups found => (b, [Answered (get_groups found s b)])
  | http_post_group clk oid body => post_group clk oid body s b
  | http_get_group_messages id found =>
      (b, [Answered (get_group_messages id found s b)])
  | http_post_group_message id clk oid body =>
      post_group_message id clk oid body s b
  | http_put_group_settings id settings requesterId =>
      put_group_settings id settings requesterId s b
  | http_post_report clk body => post_report clk body s b
  | http_post_admin_dm clk body => post_admin_dm clk body s b
  | http_admin_reports key found => (b, [Answered (admin_reports env key found s b)])
  | http_admin_dms key found => (b, [Answered (admin_dms env key found s b)])
  end.

Fixpoint board_serve_all (env : value) (rqs : list (State * BoardRequest))
    (b : Board) : Board :=
  match rqs with
  | [] => b
  | (s, rq) :: rqs' => board_serve_all env rqs' (board_serve env s rq b).1
  end.

Definition board_reachable (env : value) (b : Board) : Prop :=
  ∃ rqs, board_serve_all env rqs board_init = b.

(** A group message filed under [id]: it carries [id] as its [groupId],
    and a [timestamp]. *)
Definition filed_under (id : string) (m : Obj) : Prop :=
  m !! "groupId" = Some (jstr id) ∧ ∃ t, m !! "timestamp" = Some (jnum t).

(** ** Frames that end the process

    The listener of [message] has a [try] around [JSON.parse] and none
    around the [switch]: an exception thrown there is caught by nobody and
    the process exits.  Two expressions can throw: [data.type] when the
    frame is the text [null], and [(data.text || '').slice(0, 500)] when
    [text] is a truthy value without [slice]. *)

(** What [JSON.parse(raw)] gives: nothing (it throws), [null], or an object
    that has the properties of [data], except that its [text] is [text]: a
    string, an integer or a boolean, or missing ([d_text data] is not
    read; a [text] that is an object or an array is not modelled).  A
    frame that is a number, a string, a boolean or an array has no [type]
    and is handled as an object without properties. *)
Inductive Parsed :=
| not_json
| json_null
| json_object (data : Data) (text : option Json).

(** [data] with [text] as its [text]. *)
Definition with_text (text : value) (data : Data) : Data :=
  {| d_type := d_type data; d_userId := d_userId data; d_name := d_name data;
     d_plan := d_plan data; d_avatar := d_avatar data; d_text := text;
     d_toId := d_toId data; d_fromName := d_fromName data;
     d_fromPlan := d_fromPlan data; d_withId := d_withId data;
     d_isTyping := d_isTyping data |}.

(** The string that [text] is, if it is one; in [text || ''] a missing
    [text], 0 and [false] are falsy like the empty string. *)
Definition as_string (text : option Json) : value :=
  match text with
  | Some (jstr t) => Some t
  | _ => None
  end.

(** [(text || '').slice] is a function: [text] is a string, or falsy.  A
    number other than 0 and [true] are truthy and have no [slice]. *)
Definition has_slice (text : option Json) : bool :=
  match text with
  | None | Some (jstr _) => true
  | Some (jnum n) => bool_decide (n = 0)
  | Some (jbool b) => negb b
  end.

(** [ws.on('message')] on any frame; [None] is the uncaught [TypeError],
    after which the process is gone.  The [message] and [dm] cases reach
    the [text] of their object literal after their guards, and before
    anything is stored or sent. *)
Definition ws_receive (ws : Conn) (clk : Clock) (parsed : Parsed) (s : State)
  : option (State * list Effect) :=
  match parsed with
  | not_json => Some (ws_on_message ws clk None s)
  | json_null => None
  | json_object data text =>
      let typed := with_text (as_string text) data in
      if decide (d_type data = Some "message") then
        match bound ws s with
        | None => Some (s, [])
        | Some _ =>
            if has_slice text then Some (on_message ws clk typed s) else None
        end
      else if decide (d_type data = Some "dm") then
        match bound ws s with
        | None => Some (s, [])
        | Some u =>
            match d_toId data with
            | None => Some (s, [])
            | Some toId =>
                if String.eqb toId "" || String.eqb toId u then Some (s, [])
                else if has_slice text then Some (on_dm ws clk typed s)
                     else None
            end
        end
      else Some (ws_on_message ws clk (Some typed) s)
  end.

(** ** Sample frames and runs *)

Definition clock_at (t : Z) : Clock :=
  {| Date_now := t; Math_random := 0%N; new_Date := t; new_Date_2 := t |}.

Definition frame (type : string) : Data :=
  {| d_type := Some type; d_userId := None; d_name := None; d_plan := None;
     d_avatar := None; d_text := None; d_toId := None; d_fromName := None;
     d_fromPlan := None; d_withId := None; d_isTyping := None |}.

(** [{ type: 'join', userId, name }]. *)
Definition join_frame (userId name : string) : Data :=
  {| d_type := Some "join"; d_userId := Some userId; d_name := Some name;
     d_plan := None; d_avatar := None; d_text := None; d_toId := None;
     d_fromName := None; d_fromPlan := None; d_withId := None;
     d_isTyping := None |}.

(** [{ type: 'message', name, text }]. *)
Definition message_frame (name text : string) : Data :=
  {| d_type := Some "message"; d_userId := None; d_name := Some name;
     d_plan := None; d_avatar := None; d_text := Some text; d_toId := None;
     d_fromName := None; d_fromPlan := None; d_withId := None;
     d_isTyping := None |}.

(** [{ type: 'dm', toId, text }]. *)
Definition dm_frame (toId text : string) : Data :=
  {| d_type := Some "dm"; d_userId := None; d_name := None; d_plan := None;
     d_avatar := None; d_text := Some text; d_toId := Some toId;
     d_fromName := None; d_fromPlan := None; d_withId := None;
     d_isTyping := None |}.

(** [{ type: 'get_dm_history', withId }]. *)
Definition dm_history_frame (withId : string) : Data :=
  {| d_type := Some "get_dm_history"; d_userId := None; d_name := None;
     d_plan := None; d_avatar := None; d_text := None; d_toId := None;
     d_fromName := None; d_fromPlan := None; d_withId := Some withId;
     d_isTyping := None |}.

Definition register_body (email name : string) : RegisterBody :=
  {| rb_name := Some name; rb_email := Some email; rb_plan := None;
     rb_createdAt := None; rb_projectsCount := None; rb_username := None;
     rb_avatar := None |}.

(** Two sockets open; socket 0 joins as [a], socket 1 as [b]. *)
Definition two_users : list Event :=
  [connection; connection;
   ws_message 0%nat (clock_at 1) (Some (join_frame "a" "Alice"));
   ws_message 1%nat (clock_at 2) (Some (join_frame "b" "Bob"))].

(** One socket joins as [a], joins again as [b], then closes. *)
Definition rebind_then_close : list Event :=
  [connection;
   ws_message 0%nat (clock_at 1) (Some (join_frame "a" "Alice"));
   ws_message 0%nat (clock_at 2) (Some (join_frame "b" "Bob"));
   ws_close 0%nat].

(** One socket sends a [join] frame without [userId], then closes. *)
Definition unnamed_join_then_close : list Event :=
  [connection; ws_message 0%nat (clock_at 1) (Some (frame "join"));
   ws_close 0%nat].

(** Project [p1] is published. *)
Definition one_project : list Event :=
  [http_post_project (clock_at 1) {| pb_id := Some "p1"; pb_rest := [] |}].


(** [a@x.com] registers, and [a] joins on socket 0. *)
Definition registered_and_joined : list Event :=
  [http_register_user (clock_at 1) (register_body "a@x.com" "Alice");
   connection;
   ws_message 0%nat (clock_at 2) (Some (join_frame "a@x.com" "Alice"))].

(** Project [p1] is published and [u1] votes for it. *)
Definition one_vote : list Event :=
  one_project ++ [http_vote "p1" (Some "u1") None].

(** The body of a request that creates group [g1] for creator [u1]. *)
Definition group_body : Obj :=
  {[ "id" := jstr "g1"; "creatorId" := jstr "u1"; "name" := jstr "Makers";
     "membersCount" := jnum 99 ]}.

(** The body of a group message that names another group. *)
Definition group_message_body : Obj :=
  {[ "text" := jstr "hi"; "groupId" := jstr "g2" ]}.

(** The body of a report that calls itself resolved. *)
Definition report_body : Obj :=
  {[ "reason" := jstr "spam"; "status" := jstr "resolved" ]}.

(** Group [g1] is created and a message is posted to it; a report and a
    message to the admin are sent. *)
Definition board_run : list (State * BoardRequest) :=
  [(init, http_post_group (clock_at 1) "o1" group_body);
   (init, http_post_group_message "g1" (clock_at 2) "o2" group_message_body);
   (init, http_post_report (clock_at 3) report_body);
   (init, http_post_admin_dm (clock_at 4) report_body)].

(** [n] chat messages of socket 0; the text of the [i]-th is the number
    [i]. *)
Definition chatter (n : nat) : list Event :=
  (λ i, ws_message 0%nat (clock_at (Z.of_nat i))
          (Some (message_frame "Alice" (pretty i)))) <$> seq 1 n.

(** Two sockets open; socket 0 joins as [a] and sends 500 messages. *)
Definition long_chat : list Event :=
  [connection; connection;
   ws_message 0%nat (clock_at 0) (Some (join_frame "a" "Alice"))]
  ++ chatter 500.

(** * Properties *)

(** ** Strings and slices *)

Lemma or_str_Some (s d : string) : s ≠ "" → or_str (Some s) d = s.
Proof. intros H. simpl. by apply String.eqb_neq in H as ->. Qed.

Lemma substring_0_length (n : nat) (s : string) :
  String.length (String.substring 0 n s) = (n `min` String.length s)%nat.
Proof.
  revert s. induction n as [|n IH]; intros [|c s]; simpl; auto.
Qed.


Lemma slice0_short (n : nat) (s : string) :
  (String.length s ≤ n)%nat → slice0 n s = s.
Proof.
  unfold slice0. revert s.
  induction n as [|n IH]; intros [|c s]; simpl; intros Hlen; auto; try lia.
  f_equal. apply IH. lia.
Qed.

Lemma slice0_prefix (n : nat) (s : string) :
  ∃ rest, s = slice0 n s +:+ rest.
Proof.
  unfold slice0. revert s. induction n as [|n IH]; intros [|c s]; simpl.
  - by exists "".
  - by exists (String c s).
  - by exists "".
  - destruct (IH s) as [rest Hrest]. exists rest.
    change (String c s = String c (String.substring 0 n s +:+ rest)).
    congruence.
Qed.

Lemma slice_last_length {A} (n : nat) (l : list A) :
  length (slice_last n l) = (n `min` length l)%nat.
Proof. unfold slice_last. rewrite length_drop. lia. Qed.

Lemma slice_last_suffix {A} (n : nat) (l : list A) :
  slice_last n l `suffix_of` l.
Proof. apply suffix_drop. Qed.

Lemma slice_last_all {A} (n : nat) (l : list A) :
  (length l ≤ n)%nat → slice_last n l = l.
Proof. unfold slice_last. intros H. by replace (length l - n)%nat with 0%nat by lia. Qed.

Lemma slice_last_app {A} (n : nat) (l : list A) (x : A) :
  slice_last (S n) (l ++ [x]) = slice_last n l ++ [x].
Proof.
  unfold slice_last. rewrite length_app. simpl.
  replace (length l + 1 - S n)%nat with (length l - n)%nat by lia.
  rewrite drop_app_le; [done | lia].
Qed.

(** A window over a window is the smaller window. *)
Lemma slice_last_slice_last {A} (n m : nat) (l : list A) :
  (n ≤ m)%nat → slice_last n (slice_last m l) = slice_last n l.
Proof.
  intros Hnm. unfold slice_last. rewrite length_drop, drop_drop. f_equal. lia.
Qed.

(** ** The bounded public buffer *)

Lemma push_shift_slice (msg : Msg) (l : list Msg) :
  (length l ≤ capacity)%nat →
  push_shift msg l = slice_last capacity (l ++ [msg]).
Proof.
  intros Hlen. unfold push_shift, slice_last.
  rewrite length_app. simpl. case_decide.
  - f_equal. lia.
  - by replace (length l + 1 - capacity)%nat with 0%nat by lia.
Qed.

Lemma push_shift_length (msg : Msg) (l : list Msg) :
  length (push_shift msg l)
  = if decide (length l < capacity)%nat then S (length l) else length l.
Proof.
  unfold push_shift. rewrite length_app. simpl.
  repeat case_decide; rewrite ?length_drop, ?length_app; simpl; lia.
Qed.

Lemma push_shift_cases (msg : Msg) (l : list Msg) :
  push_shift msg l
  = (if decide (length l < capacity)%nat then l else drop 1 l) ++ [msg].
Proof.
  unfold push_shift. rewrite length_app. simpl.
  repeat case_decide; try lia; try done.
  rewrite drop_app_le; [done|]. unfold capacity in *. lia.
Qed.

Lemma push_shift_last (msg : Msg) (l : list Msg) :
  last (push_shift msg l) = Some msg.
Proof. rewrite push_shift_cases. apply last_snoc. Qed.

(** ** Maps that are created on first use *)

Section Ensure.
Context `{Countable K} {V : Type}.
Implicit Types (m : gmap K V) (k : K) (d : V) (f : V → V).

Lemma ensure_present m k d v : m !! k = Some v → ensure k d m = m.
Proof. unfold ensure. by intros ->. Qed.

Lemma ensure_lookup m k d : ensure k d m !! k = Some (default d (m !! k)).
Proof.
  unfold ensure. destruct (m !! k) eqn:E; simpl; [done|].
  apply lookup_insert_eq.
Qed.

Lemma ensure_lookup_ne m k k' d : k ≠ k' → ensure k d m !! k' = m !! k'.
Proof.
  intros Hne. unfold ensure. destruct (m !! k); [done|].
  by apply lookup_insert_ne.
Qed.

Lemma alter_ensure_lookup m k d f :
  alter f k (ensure k d m) !! k = Some (f (default d (m !! k))).
Proof. by rewrite lookup_alter_eq, ensure_lookup. Qed.

Lemma alter_ensure_lookup_ne m k k' d f :
  k ≠ k' → alter f k (ensure k d m) !! k' = m !! k'.
Proof. intros Hne. by rewrite lookup_alter_ne, ensure_lookup_ne. Qed.
End Ensure.

(** ** The canonical thread key *)

Lemma sort2_sym (a b : value) :
  sort2 a b = sort2 b a ∨ (sort2 a b = (a, b) ∧ sort2 b a = (b, a) ∧ a = b).
Proof.
  destruct a as [x|], b as [y|]; simpl; auto.
  unfold String.ltb. rewrite (String.compare_antisym y x).
  destruct (String.compare x y) eqn:E; simpl; auto.
  apply String.compare_eq_iff in E as ->. auto.
Qed.

Lemma getDMKey_sym (a b : value) : getDMKey a b = getDMKey b a.
Proof.
  unfold getDMKey.
  destruct (sort2_sym a b) as [-> | (-> & -> & ->)]; done.
Qed.

(** ** Dispatch on [data.type] *)

Section Dispatch.
Variables (ws : Conn) (clk : Clock) (data : Data) (s : State).

Lemma dispatch_join :
  d_type data = Some "join" →
  ws_on_message ws clk (Some data) s = on_join ws data s.
Proof. intros H. unfold ws_on_message. rewrite H. by repeat case_decide. Qed.

Lemma dispatch_message :
  d_type data = Some "message" →
  ws_on_message ws clk (Some data) s = on_message ws clk data s.
Proof. intros H. unfold ws_on_message. rewrite H. by repeat case_decide. Qed.

Lemma dispatch_dm :
  d_type data = Some "dm" →
  ws_on_message ws clk (Some data) s = on_dm ws clk data s.
Proof. intros H. unfold ws_on_message. rewrite H. by repeat case_decide. Qed.

Lemma dispatch_get_dm_history :
  d_type data = Some "get_dm_history" →
  ws_on_message ws clk (Some data) s = on_get_dm_history ws data s.
Proof. intros H. unfold ws_on_message. rewrite H. by repeat case_decide. Qed.

Lemma dispatch_typing :
  d_type data = Some "typing" →
  ws_on_message ws clk (Some data) s = on_typing ws data s.
Proof. intros H. unfold ws_on_message. rewrite H. by repeat case_decide. Qed.

Lemma dispatch_dm_typing :
  d_type data = Some "dm_typing" →
  ws_on_message ws clk (Some data) s = on_dm_typing ws data s.
Proof. intros H. unfold ws_on_message. rewrite H. by repeat case_decide. Qed.
End Dispatch.

(** The identity bound to a connection is non-empty. *)
Lemma bound_nonempty (ws : Conn) (s : State) (u : string) :
  bound ws s = Some u → u ≠ "".
Proof.
  unfold bound. destruct (connectedUserId s !! ws) as [v|]; [|done].
  destruct (String.eqb_spec v ""); [done|]. congruence.
Qed.

Lemma bound_lookup (ws : Conn) (s : State) (u : string) :
  bound ws s = Some u → connectedUserId s !! ws = Some u.
Proof.
  unfold bound. destruct (connectedUserId s !! ws) as [v|]; [|done].
  destruct (String.eqb v ""); [done|]. congruence.
Qed.

Lemma bound_anonymous (ws : Conn) (s : State) :
  connectedUserId s !! ws = None → bound ws s = None.
Proof. unfold bound. by intros ->. Qed.

(** ** Direct messages *)

(** What an accepted [dm] frame does. *)
Lemma on_dm_accepted (ws : Conn) (clk : Clock) (data : Data) (s : State)
    (u toId : string) :
  bound ws s = Some u → d_toId data = Some toId → toId ≠ "" → toId ≠ u →
  let dmMsg := make_dm u toId clk data in
  let key := getDMKey (Some u) (Some toId) in
  let s' := set_dmThreads
              (alter (λ l, l ++ [dmMsg]) key (ensure key [] (dmThreads s))) s in
  on_dm ws clk data s
  = (s', (if db s then [DbDm dmMsg] else [])
           ++ sendToUser s' (Some toId) (dm dmMsg)
           ++ sendToUser s' (Some u) (dm_sent dmMsg)).
Proof.
  intros Hb Hto Hne1 Hne2. unfold on_dm. rewrite Hb, Hto.
  apply String.eqb_neq in Hne1 as ->. apply String.eqb_neq in Hne2 as ->.
  done.
Qed.

(** claim C6: the thread key does not depend on the order of the two
    identities, so both parties of a conversation read one thread: after
    two direct messages from [a] to [b], a [get_dm_history] request by [b]
    naming [a], and one by [a] naming [b], both answer with the earlier
    thread followed by the two messages in the order they were sent. *)
Theorem dm_thread_is_shared :
  (∀ a b : value, getDMKey a b = getDMKey b a) ∧
  (∀ (s : State) (wa wb : Conn) (a b : string) (clk1 clk2 clk3 : Clock)
     (d1 d2 ha hb : Data),
     bound wa s = Some a → bound wb s = Some b → a ≠ b →
     d_type d1 = Some "dm" → d_toId d1 = Some b →
     d_type d2 = Some "dm" → d_toId d2 = Some b →
     d_type hb = Some "get_dm_history" → d_withId hb = Some a →
     d_type ha = Some "get_dm_history" → d_withId ha = Some b →
     let s1 := (ws_on_message wa clk1 (Some d1) s).1 in
     let s2 := (ws_on_message wa clk2 (Some d2) s1).1 in
     let thread := default [] (dmThreads s !! getDMKey (Some a) (Some b))
                     ++ [make_dm a b clk1 d1; make_dm a b clk2 d2] in
     ws_on_message wb clk3 (Some hb) s2
       = (s2, [Send wb (dm_history (Some a) thread)])
     ∧ ws_on_message wa clk3 (Some ha) s2
       = (s2, [Send wa (dm_history (Some b) thread)])).
Proof.
  split; [apply getDMKey_sym|].
  intros s wa wb a b clk1 clk2 clk3 d1 d2 ha hb Ha Hb Hab
    Ht1 Hto1 Ht2 Hto2 Hthb Hwb Htha Hwa s1 s2 thread.
  assert (b ≠ "") as Hb0 by (by eapply bound_nonempty).
  assert (b ≠ a) as Hba by done.
  assert (s1 = (on_dm wa clk1 d1 s).1) as Hs1
    by (unfold s1; by rewrite dispatch_dm).
  rewrite (on_dm_accepted wa clk1 d1 s a b) in Hs1 by done. simpl in Hs1.
  assert (bound wa s1 = Some a) as Ha1 by (by rewrite Hs1).
  assert (s2 = (on_dm wa clk2 d2 s1).1) as Hs2
    by (unfold s2; by rewrite dispatch_dm).
  rewrite (on_dm_accepted wa clk2 d2 s1 a b) in Hs2 by done. simpl in Hs2.
  assert (dmThreads s2 !! getDMKey (Some a) (Some b) = Some thread) as Hth.
  { rewrite Hs2. simpl. rewrite alter_ensure_lookup. f_equal.
    rewrite Hs1. simpl. rewrite alter_ensure_lookup. simpl.
    unfold thread. by rewrite <- app_assoc. }
  clearbody s2 s1. split.
  - rewrite dispatch_get_dm_history by done. unfold on_get_dm_history.
    replace (bound wb s2) with (Some b) by (by rewrite Hs2, Hs1).
    rewrite Hwb, (getDMKey_sym (Some b) (Some a)), Hth. done.
  - rewrite dispatch_get_dm_history by done. unfold on_get_dm_history.
    replace (bound wa s2) with (Some a) by (by rewrite Hs2, Hs1).
    rewrite Hwa, Hth. done.
Qed.

(** ** Runs of the event loop *)

Lemma run_app (evs1 evs2 : list Event) (s : State) :
  run (evs1 ++ evs2) s
  = ((run evs2 (run evs1 s).1).1, (run evs1 s).2 ++ (run evs2 (run evs1 s).1).2).
Proof.
  revert s. induction evs1 as [|ev evs1 IH]; intros s; simpl.
  - by destruct (run evs2 s).
  - destruct (step ev s) as [s1 out1]. rewrite IH.
    destruct (run evs1 s1) as [s2 out2]. simpl.
    by rewrite app_assoc.
Qed.

Lemma exec_cons (ev : Event) (evs : list Event) (s : State) :
  exec (ev :: evs) s = exec evs (step ev s).1.
Proof.
  unfold exec. simpl. destruct (step ev s) as [s1 out1]. simpl.
  by destruct (run evs s1).
Qed.

Lemma exec_app (evs1 evs2 : list Event) (s : State) :
  exec (evs1 ++ evs2) s = exec evs2 (exec evs1 s).
Proof. unfold exec. by rewrite run_app. Qed.

Lemma exec_snoc (evs : list Event) (ev : Event) (s : State) :
  exec (evs ++ [ev]) s = (step ev (exec evs s)).1.
Proof. rewrite exec_app. by rewrite exec_cons. Qed.

Lemma sent_app (evs1 evs2 : list Event) (s : State) :
  sent (evs1 ++ evs2) s = sent evs1 s ++ sent evs2 (exec evs1 s).
Proof.
  revert s. induction evs1 as [|ev evs1 IH]; intros s; simpl; [done|].
  by rewrite IH, exec_cons, app_assoc.
Qed.

(** Induction over the states the server can be in. *)
Lemma reachable_ind (P : State → Prop) :
  P init →
  (∀ ev s, reachable s → P s → P (step ev s).1) →
  ∀ s, reachable s → P s.
Proof.
  intros H0 Hstep s [evs <-].
  induction evs as [|ev evs IH] using rev_ind; [done|].
  rewrite exec_snoc. apply Hstep; [by exists evs | done].
Qed.

Lemma reachable_step (ev : Event) (s : State) :
  reachable s → reachable (step ev s).1.
Proof. intros [evs <-]. exists (evs ++ [ev]). apply exec_snoc. Qed.

(** ** Frame lemmas: which bindings a handler can change *)

Lemma register_user_hub (clk : Clock) (body : RegisterBody) (s : State) :
  same_hub s (register_user clk body s).1.
Proof. unfold register_user. by repeat case_match. Qed.

Lemma post_project_hub (clk : Clock) (body : ProjectBody) (s : State) :
  same_hub s (post_project clk body s).1.
Proof. unfold post_project. simpl. by destruct (db s). Qed.

Lemma register_user_votes (clk : Clock) (body : RegisterBody) (s : State) :
  inMemoryVotes (register_user clk body s).1 = inMemoryVotes s.
Proof. unfold register_user. by repeat case_match. Qed.

Lemma post_project_votes (clk : Clock) (body : ProjectBody) (s : State) :
  inMemoryVotes (post_project clk body s).1 = inMemoryVotes s.
Proof. unfold post_project. simpl. by destruct (db s). Qed.

Lemma vote_hub (id : string) (userId : value) (rv : option Z) (s : State) :
  same_hub s (vote id userId rv s).1.
Proof. unfold vote. by repeat (case_match || case_decide). Qed.

Lemma on_join_store (ws : Conn) (data : Data) (s : State) :
  same_store s (on_join ws data s).1.
Proof. done. Qed.

Lemma on_message_store (ws : Conn) (clk : Clock) (data : Data) (s : State) :
  same_store s (on_message ws clk data s).1.
Proof. unfold on_message. by case_match. Qed.

(** The handlers other than [join] and [message] change [dmThreads] at
    most. *)
Lemma ws_on_message_other (ws : Conn) (clk : Clock) (data : Data) (s : State) :
  d_type data ≠ Some "join" → d_type data ≠ Some "message" →
  let s' := (ws_on_message ws clk (Some data) s).1 in
  same_store s s'
  ∧ connectedUserId s' = connectedUserId s ∧ userSockets s' = userSockets s
  ∧ onlineUsers s' = onlineUsers s ∧ publicMessages s' = publicMessages s.
Proof.
  intros Hj Hm. unfold ws_on_message.
  rewrite !decide_False by done.
  unfold on_dm, on_get_dm_history, on_typing, on_dm_typing.
  by repeat (case_match || case_decide).
Qed.

Lemma ws_on_message_store (ws : Conn) (clk : Clock) (raw : option Data)
    (s : State) :
  same_store s (ws_on_message ws clk raw s).1.
Proof.
  destruct raw as [data|]; [|done].
  destruct (decide (d_type data = Some "join")) as [Hj|Hj].
  { rewrite dispatch_join by done. apply on_join_store. }
  destruct (decide (d_type data = Some "message")) as [Hm|Hm].
  { rewrite dispatch_message by done. apply on_message_store. }
  by apply ws_on_message_other.
Qed.

(** [close] changes the socket sets and the roster at most. *)
Lemma ws_on_close_frame (ws : Conn) (s : State) :
  let s' := (ws_on_close ws s).1 in
  same_store s s'
  ∧ connectedUserId s' = connectedUserId s
  ∧ publicMessages s' = publicMessages s ∧ dmThreads s' = dmThreads s.
Proof. unfold ws_on_close. by repeat (case_match || case_decide). Qed.

(** Closes a goal that one component of a frame lemma states. *)
Ltac by_frame lem :=
  let F := fresh "F" in
  pose proof lem as F;
  unfold same_hub, same_store in F; cbv zeta in F;
  destruct_and!;
  repeat match goal with
         | H : ?x = _ |- context [?x] => rewrite H; clear H
         end;
  done.

(** What a turn does to the public buffer. *)
Lemma step_publicMessages (ev : Event) (s : State) :
  publicMessages (step ev s).1
  = match accepted ev s with
    | Some msg => push_shift msg (publicMessages s)
    | None => publicMessages s
    end.
Proof.
  destruct ev as [| |ws clk [data|]|ws|clk body|clk body|id userId rv];
    unfold accepted, step.
  - done.
  - done.
  - case_decide as Hws.
    + destruct (decide (d_type data = Some "message")) as [Hty|Hty].
      * rewrite dispatch_message by done.
        rewrite decide_True by done. unfold on_message.
        by destruct (bound ws s).
      * rewrite decide_False by tauto.
        destruct (decide (d_type data = Some "join")) as [Hj|Hj].
        -- by rewrite dispatch_join.
        -- by_frame (ws_on_message_other ws clk data s Hj Hty).
    + rewrite decide_False by tauto. done.
  - by case_decide.
  - case_decide; [|done].
    by_frame (ws_on_close_frame ws (set_clients (Set_delete ws (clients s)) s)).
  - by_frame (register_user_hub clk body s).
  - by_frame (post_project_hub clk body s).
  - by_frame (vote_hub id userId rv s).
Qed.

Lemma step_clients (ev : Event) (s : State) :
  clients (step ev s).1
  = match ev with
    | connection => Set_add (next_ws s) (clients s)
    | ws_close ws =>
        if decide (ws ∈ clients s) then Set_delete ws (clients s) else clients s
    | _ => clients s
    end.
Proof.
  destruct ev as [| |ws clk raw|ws|clk body|clk body|id userId rv]; unfold step.
  - done.
  - done.
  - case_decide; [|done]. by_frame (ws_on_message_store ws clk raw s).
  - case_decide; [|done].
    by_frame (ws_on_close_frame ws (set_clients (Set_delete ws (clients s)) s)).
  - by_frame (register_user_hub clk body s).
  - by_frame (post_project_hub clk body s).
  - by_frame (vote_hub id userId rv s).
Qed.

Lemma step_next_ws (ev : Event) (s : State) :
  next_ws (step ev s).1
  = match ev with
    | connection => S (next_ws s)
    | _ => next_ws s
    end.
Proof.
  destruct ev as [| |ws clk raw|ws|clk body|clk body|id userId rv]; unfold step.
  - done.
  - done.
  - case_decide; [|done]. by_frame (ws_on_message_store ws clk raw s).
  - case_decide; [|done].
    by_frame (ws_on_close_frame ws (set_clients (Set_delete ws (clients s)) s)).
  - by_frame (register_user_hub clk body s).
  - by_frame (post_project_hub clk body s).
  - by_frame (vote_hub id userId rv s).
Qed.

(** ** The open sockets *)

Lemma Set_add_NoDup (x : Conn) (l : list Conn) :
  NoDup l → NoDup (Set_add x l).
Proof.
  intros Hl. unfold Set_add. case_decide; [done|].
  apply NoDup_app. split_and!; [done| |apply NoDup_singleton].
  intros y Hy Hy'. apply list_elem_of_singleton in Hy'. by subst.
Qed.

Lemma Set_delete_NoDup (x : Conn) (l : list Conn) :
  NoDup l → NoDup (Set_delete x l).
Proof. apply NoDup_filter. Qed.

Lemma elem_of_Set_add (x y : Conn) (l : list Conn) :
  y ∈ Set_add x l ↔ y = x ∨ y ∈ l.
Proof.
  unfold Set_add. case_decide.
  - split; [by right | by intros [->|?]].
  - rewrite elem_of_app, list_elem_of_singleton. tauto.
Qed.

Lemma elem_of_Set_delete (x y : Conn) (l : list Conn) :
  y ∈ Set_delete x l ↔ y ≠ x ∧ y ∈ l.
Proof. unfold Set_delete. by rewrite list_elem_of_filter. Qed.

(** [wss.clients] never lists a socket twice, and every socket in it was
    allocated before. *)
Lemma clients_wf (s : State) :
  reachable s →
  NoDup (clients s) ∧ ∀ ws, ws ∈ clients s → (ws < next_ws s)%nat.
Proof.
  revert s. apply reachable_ind.
  - split; [constructor | by intros ws ?%elem_of_nil].
  - intros ev s _ [Hnd Hlt]. rewrite step_clients, step_next_ws.
    destruct ev; try done.
    + split; [by apply Set_add_NoDup|].
      intros ws [-> | Hin]%elem_of_Set_add; [lia|]. apply Hlt in Hin. lia.
    + case_decide; [|done]. split; [by apply Set_delete_NoDup|].
      intros ws' [_ Hin]%elem_of_Set_delete. by apply Hlt.
Qed.

(** ** Frames written by a broadcast *)

Lemma frames_to_app (ws : Conn) (out1 out2 : list Effect) :
  frames_to ws (out1 ++ out2) = frames_to ws out1 ++ frames_to ws out2.
Proof. apply omap_app. Qed.

Lemma frames_to_cons (ws : Conn) (e : Effect) (out : list Effect) :
  frames_to ws (e :: out)
  = match e with
    | Send ws' f => if decide (ws' = ws) then [f] else []
    | _ => []
    end ++ frames_to ws out.
Proof. unfold frames_to. simpl. destruct e; try done. by case_decide. Qed.

Lemma frames_to_sends (ws : Conn) (f : Outbound) (l : list Conn) :
  frames_to ws ((λ ws', Send ws' f) <$> l)
  = replicate (length (filter (λ ws', ws' = ws) l)) f.
Proof.
  induction l as [|x l IH]; [done|].
  rewrite fmap_cons, frames_to_cons, IH, filter_cons.
  by case_decide.
Qed.

Lemma filter_eq_NoDup (ws : Conn) (l : list Conn) :
  NoDup l →
  length (filter (λ ws', ws' = ws) l) = if decide (ws ∈ l) then 1%nat else 0%nat.
Proof.
  induction 1 as [|x l Hx Hnd IH]; [done|].
  rewrite filter_cons. destruct (decide (x = ws)) as [->|Hxw].
  - simpl. rewrite IH. rewrite decide_False by done.
    rewrite decide_True by left. done.
  - rewrite IH. destruct (decide (ws ∈ l)) as [Hin|Hin].
    + rewrite decide_True by (by right). done.
    + rewrite decide_False; [done|]. intros [?|?]%elem_of_cons; congruence.
Qed.

(** A broadcast writes its frame once to every open socket and to no
    other. *)
Lemma frames_to_broadcast (ws : Conn) (f : Outbound) (s : State) :
  NoDup (clients s) →
  frames_to ws (broadcastToAll s f) = if decide (ws ∈ clients s) then [f] else [].
Proof.
  intros Hnd. unfold broadcastToAll.
  rewrite frames_to_sends, filter_eq_NoDup by done. by case_decide.
Qed.

Lemma frames_to_broadcast_all (ws : Conn) (f : Outbound) (s : State) :
  Forall (λ g, g = f) (frames_to ws (broadcastToAll s f)).
Proof.
  unfold broadcastToAll. rewrite frames_to_sends.
  apply Forall_forall. by intros g ->%elem_of_replicate_inv.
Qed.

(** ** The public buffer is a window over the messages accepted *)

Lemma slice_last_window {A} (n : nat) (l r : list A) :
  slice_last n (slice_last n l ++ r) = slice_last n (l ++ r).
Proof.
  unfold slice_last. rewrite !length_app, length_drop.
  destruct (decide (length l ≤ n)%nat) as [Hle|Hgt].
  - replace (length l - n)%nat with 0%nat by lia. simpl.
    f_equal. lia.
  - rewrite <- (drop_app_le l r (length l - n)) by lia.
    rewrite drop_drop. f_equal. lia.
Qed.

Lemma public_buffer_window (evs : list Event) :
  publicMessages (exec evs init) = slice_last capacity (sent evs init).
Proof.
  induction evs as [|ev evs IH] using rev_ind; [done|].
  rewrite exec_snoc, sent_app, step_publicMessages. simpl.
  destruct (accepted ev (exec evs init)) as [msg|]; simpl.
  - rewrite push_shift_slice.
    + rewrite IH. apply slice_last_window.
    + rewrite IH, slice_last_length. lia.
  - by rewrite app_nil_r.
Qed.

(** claim C8: the public buffer never holds more than 200 messages; it is
    always the last 200 of the messages accepted so far, in the order they
    were accepted; and a turn of the loop either leaves it alone or puts
    the accepted message last, dropping the first one exactly when the
    buffer was full. *)
Theorem public_buffer_is_bounded_and_ordered (evs : list Event) :
  let s := exec evs init in
  (length (publicMessages s) ≤ 200)%nat
  ∧ publicMessages s = slice_last 200 (sent evs init)
  ∧ publicMessages s `suffix_of` sent evs init
  ∧ ∀ ev : Event,
      publicMessages (step ev s).1
      = match accepted ev s with
        | Some msg =>
            (if decide (length (publicMessages s) < 200)%nat
             then publicMessages s
             else drop 1 (publicMessages s)) ++ [msg]
        | None => publicMessages s
        end.
Proof.
  intros s. unfold s. rewrite public_buffer_window. split_and!.
  - rewrite slice_last_length. unfold capacity. lia.
  - done.
  - apply slice_last_suffix.
  - intros ev. rewrite step_publicMessages, public_buffer_window.
    destruct (accepted ev (exec evs init)); [|done].
    apply push_shift_cases.
Qed.

(** ** The [join] handler *)

Lemma on_join_out (ws : Conn) (data : Data) (s : State) :
  ∃ users user,
    (on_join ws data s).2
    = Send ws (history (slice_last replay (publicMessages s)))
        :: broadcastToAll s (online_users users)
        ++ broadcastToAll s (user_joined user).
Proof. by eexists _, _. Qed.

Lemma filter_none {A} (P : A → Prop) `{∀ x, Decision (P x)} (l : list A) :
  Forall (λ x, ¬ P x) l → filter P l = [].
Proof.
  induction 1 as [|x l Hx _ IH]; [done|].
  by rewrite filter_cons, decide_False.
Qed.

Lemma filter_history_broadcast (ws : Conn) (f : Outbound) (s : State) :
  is_history f = false →
  filter (λ g, is_history g) (frames_to ws (broadcastToAll s f)) = [].
Proof.
  intros Hf. apply filter_none.
  eapply Forall_impl; [apply frames_to_broadcast_all|].
  intros g -> Hg. by rewrite Hf in Hg.
Qed.

(** claim C4: a [join] frame makes the server write one [history] frame, to
    the joining connection and to no other; it carries the last
    [min(50, n)] of the [n] public messages accepted so far, oldest first,
    so after 500 messages it carries exactly the last 50. *)
Theorem join_replays_last_fifty (evs : list Event) (ws : Conn) (clk : Clock)
    (data : Data) :
  let s := exec evs init in
  let out := (step (ws_message ws clk (Some data)) s).2 in
  let window := slice_last 50 (sent evs init) in
  ws ∈ clients s → d_type data = Some "join" →
  filter (λ f, is_history f) (frames_to ws out) = [history window]
  ∧ (∀ ws', ws' ≠ ws → filter (λ f, is_history f) (frames_to ws' out) = [])
  ∧ length window = (50 `min` length (sent evs init))%nat
  ∧ window `suffix_of` sent evs init
  ∧ (length (sent evs init) = 500%nat → window = drop 450 (sent evs init)).
Proof.
  intros s out window Hws Hty.
  assert (slice_last replay (publicMessages s) = window) as Hwin.
  { unfold s. rewrite public_buffer_window.
    apply slice_last_slice_last. unfold replay, capacity. lia. }
  assert (∃ users user,
    out = Send ws (history window)
            :: broadcastToAll s (online_users users)
            ++ broadcastToAll s (user_joined user)) as (users & user & Hout).
  { unfold out, step. rewrite decide_True by done.
    rewrite dispatch_join by done.
    destruct (on_join_out ws data s) as (users & user & ->).
    rewrite Hwin. by eexists _, _. }
  rewrite Hout. split_and!.
  - rewrite frames_to_cons, decide_True by done.
    rewrite frames_to_app, !filter_app, !filter_history_broadcast by done.
    done.
  - intros ws' Hne. rewrite frames_to_cons, decide_False by done.
    rewrite frames_to_app, !filter_app, !filter_history_broadcast by done.
    done.
  - apply slice_last_length.
  - apply slice_last_suffix.
  - intros Hlen. unfold window, slice_last. by rewrite Hlen.
Qed.

(** ** The [message] handler *)

Lemma on_message_accepted (ws : Conn) (clk : Clock) (data : Data) (s : State)
    (u : string) :
  bound ws s = Some u →
  let msg := make_msg u clk data in
  on_message ws clk data s
  = (set_publicMessages (push_shift msg (publicMessages s)) s,
     (if db s then [DbChat msg] else []) ++ broadcastToAll s (message msg)).
Proof. intros Hb. unfold on_message. by rewrite Hb. Qed.

Lemma frames_to_db (ws : Conn) (b : bool) (e : Effect) :
  (∀ ws' f, e ≠ Send ws' f) →
  frames_to ws (if b then [e] else []) = [].
Proof.
  intros He. destruct b; [|done]. rewrite frames_to_cons.
  destruct e; try done. by destruct (He ws0 f).
Qed.

(** What the [message] case does with a frame typed as [Data], whose text
    is a string or missing, on an open connection bound to identity [u]:
    it stores a message made of the first 500 characters of the frame's
    text, the clock and random readings of this turn as id and timestamp,
    and [u] as sender; the message goes last in the public buffer, whose
    length grows by one unless it was full; and every open connection,
    those of the sender included, is written exactly one [message] frame
    carrying it while no other connection is written anything. *)
Lemma message_is_stored_and_broadcast (s : State) (ws : Conn) (u : string)
    (clk : Clock) (data : Data) :
  let msg := make_msg u clk data in
  let r := step (ws_message ws clk (Some data)) s in
  let text := or_str (d_text data) "" in
  reachable s → ws ∈ clients s → bound ws s = Some u →
  d_type data = Some "message" →
  (m_text msg = slice0 500 text
   ∧ String.length (m_text msg) = (500 `min` String.length text)%nat
   ∧ (∃ rest, text = m_text msg +:+ rest)
   ∧ m_id msg = (Date_now clk, Math_random clk)
   ∧ m_timestamp msg = new_Date clk
   ∧ m_userId msg = u)
  ∧ last (publicMessages r.1) = Some msg
  ∧ length (publicMessages r.1)
    = (if decide (length (publicMessages s) < 200)%nat
       then S (length (publicMessages s))
       else length (publicMessages s))
  ∧ clients r.1 = clients s
  ∧ (∀ ws', frames_to ws' r.2
            = if decide (ws' ∈ clients s) then [message msg] else [])
  ∧ (∀ ws', ws' ∈ clients s → bound ws' s = Some u →
            frames_to ws' r.2 = [message msg]).
Proof.
  intros msg r text Hreach Hws Hb Hty.
  assert (r = (set_publicMessages (push_shift msg (publicMessages s)) s,
               (if db s then [DbChat msg] else [])
                 ++ broadcastToAll s (message msg))) as ->.
  { unfold r, step. rewrite decide_True by done.
    rewrite dispatch_message by done. by apply on_message_accepted. }
  assert (∀ ws', frames_to ws'
            ((if db s then [DbChat msg] else [])
               ++ broadcastToAll s (message msg))
          = if decide (ws' ∈ clients s) then [message msg] else []) as Hout.
  { intros ws'. rewrite frames_to_app, frames_to_db by done.
    apply frames_to_broadcast. by apply clients_wf. }
  simpl. split_and!; try done.
  - apply substring_0_length.
  - apply slice0_prefix.
  - apply push_shift_last.
  - apply push_shift_length.
  - intros ws' Hin _. by rewrite Hout, decide_True.
Qed.

(** ** Anonymous connections *)

Lemma step_connectedUserId (ev : Event) (s : State) (ws : Conn) :
  is_join_on ws ev = false →
  connectedUserId (step ev s).1 !! ws = connectedUserId s !! ws.
Proof.
  destruct ev as [| |ws' clk [data|]|ws'|clk body|clk body|id userId rv];
    intros Hj; unfold step.
  - done.
  - done.
  - simpl in Hj. apply bool_decide_eq_false in Hj.
    case_decide; [|done].
    destruct (decide (d_type data = Some "join")) as [Hty|Hty].
    + assert (ws' ≠ ws) as Hne by tauto.
      rewrite dispatch_join by done. unfold on_join. simpl.
      destruct (d_userId data);
        [by rewrite lookup_insert_ne|by rewrite lookup_delete_ne].
    + destruct (decide (d_type data = Some "message")) as [Hm|Hm].
      * rewrite dispatch_message by done. unfold on_message.
        by case_match.
      * by_frame (ws_on_message_other ws' clk data s Hty Hm).
  - by case_decide.
  - case_decide; [|done].
    by_frame (ws_on_close_frame ws' (set_clients (Set_delete ws' (clients s)) s)).
  - by_frame (register_user_hub clk body s).
  - by_frame (post_project_hub clk body s).
  - by_frame (vote_hub id userId rv s).
Qed.

Lemma never_joined_anonymous (ws : Conn) (evs : list Event) :
  never_joined ws evs = true →
  connectedUserId (exec evs init) !! ws = None.
Proof.
  induction evs as [|ev evs IH] using rev_ind; intros Hnj; [done|].
  unfold never_joined in *. rewrite forallb_app in Hnj. simpl in Hnj.
  apply andb_prop in Hnj as [Hevs Hev]. rewrite andb_true_r in Hev.
  apply negb_true_iff in Hev.
  rewrite exec_snoc, step_connectedUserId by done. by apply IH.
Qed.

Lemma anonymous_dropped (ws : Conn) (clk : Clock) (data : Data) (s : State) :
  bound ws s = None → needs_identity data = true →
  ws_on_message ws clk (Some data) s = (s, []).
Proof.
  intros Hb Hty. apply bool_decide_eq_true in Hty.
  unfold ws_on_message, on_message, on_dm, on_get_dm_history, on_typing,
    on_dm_typing. rewrite Hb.
  repeat case_decide; try done.
  exfalso. repeat (apply elem_of_cons in Hty as [Hty|Hty]; [congruence|]).
  by apply elem_of_nil in Hty.
Qed.

(** claim C9: while no [join] frame has been handled on a connection, a
    frame of type [message], [dm], [get_dm_history], [typing] or
    [dm_typing] arriving on it changes nothing in the server (buffers,
    threads, registries, the set of open sockets) and makes the server
    write nothing to any socket. *)
Theorem anonymous_frames_are_dropped (evs : list Event) (ws : Conn)
    (clk : Clock) (data : Data) :
  let s := exec evs init in
  never_joined ws evs = true → needs_identity data = true →
  ws_on_message ws clk (Some data) s = (s, [])
  ∧ step (ws_message ws clk (Some data)) s = (s, []).
Proof.
  intros s Hnj Hty.
  assert (ws_on_message ws clk (Some data) s = (s, [])) as Hdrop.
  { apply anonymous_dropped; [|done].
    apply bound_anonymous. by apply never_joined_anonymous. }
  split; [done|]. unfold step. by case_decide.
Qed.

(** ** Sender fields *)

(** claim C10: the name, plan and avatar stored with a public message, and
    the name and plan stored with a direct message, are those of the frame
    that carried it (with the defaults [Anonyme], [free] and the bust
    emoji); only the sender id is the identity bound to the connection.
    The presence registry is neither read nor written, so two [message]
    frames on one connection that carry different names are stored under
    different sender names. *)
Theorem sender_fields_come_from_the_frame (s : State) (ws : Conn) (u : string) :
  bound ws s = Some u →
  (∀ clk data,
     d_type data = Some "message" →
     let s' := (ws_on_message ws clk (Some data) s).1 in
     ∃ msg, last (publicMessages s') = Some msg
       ∧ m_userId msg = u
       ∧ m_name msg = or_str (d_name data) "Anonyme"
       ∧ m_plan msg = or_str (d_plan data) "free"
       ∧ m_avatar msg = or_str (d_avatar data) "👤"
       ∧ onlineUsers s' = onlineUsers s)
  ∧ (∀ clk data toId,
       d_type data = Some "dm" → d_toId data = Some toId →
       toId ≠ "" → toId ≠ u →
       let s' := (ws_on_message ws clk (Some data) s).1 in
       ∃ dmMsg,
         last (default [] (dmThreads s' !! getDMKey (Some u) (Some toId)))
           = Some dmMsg
         ∧ dm_fromId dmMsg = u
         ∧ dm_fromName dmMsg = or_str (d_fromName data) "Anonyme"
         ∧ dm_fromPlan dmMsg = or_str (d_fromPlan data) "free"
         ∧ onlineUsers s' = onlineUsers s)
  ∧ (∀ clk1 clk2 d1 d2 n1 n2,
       d_type d1 = Some "message" → d_type d2 = Some "message" →
       d_name d1 = Some n1 → d_name d2 = Some n2 →
       n1 ≠ "" → n2 ≠ "" → n1 ≠ n2 →
       let s1 := (ws_on_message ws clk1 (Some d1) s).1 in
       let s2 := (ws_on_message ws clk2 (Some d2) s1).1 in
       ∃ m1 m2,
         last (publicMessages s1) = Some m1
         ∧ last (publicMessages s2) = Some m2
         ∧ m_userId m1 = u ∧ m_userId m2 = u
         ∧ m_name m1 = n1 ∧ m_name m2 = n2
         ∧ m_name m1 ≠ m_name m2).
Proof.
  intros Hb. split_and!.
  - intros clk data Hty s'. exists (make_msg u clk data).
    unfold s'. rewrite dispatch_message by done.
    rewrite (on_message_accepted ws clk data s u) by done. simpl.
    split_and!; try done. apply push_shift_last.
  - intros clk data toId Hty Hto Hne1 Hne2 s'.
    exists (make_dm u toId clk data).
    unfold s'. rewrite dispatch_dm by done.
    rewrite (on_dm_accepted ws clk data s u toId) by done. simpl.
    rewrite alter_ensure_lookup. simpl.
    split_and!; try done. apply last_snoc.
  - intros clk1 clk2 d1 d2 n1 n2 Hty1 Hty2 Hn1 Hn2 Hne1 Hne2 Hne s1 s2.
    exists (make_msg u clk1 d1), (make_msg u clk2 d2).
    assert (s1 = set_publicMessages
                   (push_shift (make_msg u clk1 d1) (publicMessages s)) s)
      as Hs1.
    { unfold s1. rewrite dispatch_message by done.
      by rewrite (on_message_accepted ws clk1 d1 s u). }
    assert (bound ws s1 = Some u) as Hb1 by (by rewrite Hs1).
    assert (s2 = set_publicMessages
                   (push_shift (make_msg u clk2 d2) (publicMessages s1)) s1)
      as Hs2.
    { unfold s2. rewrite dispatch_message by done.
      by rewrite (on_message_accepted ws clk2 d2 s1 u). }
    rewrite Hs2. rewrite Hs1 at 1. simpl.
    rewrite !push_shift_last, Hn1, Hn2, !or_str_Some by done.
    done.
Qed.

(** ** Votes *)

Lemma set_inMemoryVotes_same (s : State) :
  set_inMemoryVotes (inMemoryVotes s) s = s.
Proof. by destruct s. Qed.

Lemma voters_elem (id uid : string) (s : State) :
  uid ∈ voters id s → ∃ vs, inMemoryVotes s !! id = Some vs ∧ uid ∈ vs.
Proof.
  unfold voters. destruct (inMemoryVotes s !! id) as [vs|]; simpl.
  - by exists vs.
  - by intros ?%not_elem_of_empty.
Qed.

(** What a vote does to the voter sets. *)
Lemma step_voters (ev : Event) (s : State) (id : string) :
  voters id (step ev s).1
  = match ev with
    | http_vote id' (Some uid) _ =>
        if decide (id' = id ∧ uid ≠ "") then voters id s ∪ {[uid]}
        else voters id s
    | _ => voters id s
    end.
Proof.
  destruct ev as [| |ws clk raw|ws|clk body|clk body|id' userId rv].
  - done.
  - done.
  - unfold voters, step. case_decide; [|done].
    by_frame (ws_on_message_store ws clk raw s).
  - unfold voters, step. case_decide; [|done].
    by_frame (ws_on_close_frame ws (set_clients (Set_delete ws (clients s)) s)).
  - unfold voters, step. by rewrite register_user_votes.
  - unfold voters, step. by rewrite post_project_votes.
  - destruct userId as [uid|]; [|done].
    destruct (decide (id' = id ∧ uid ≠ "")) as [[-> Hne]|Hn]; unfold step, vote.
    + apply String.eqb_neq in Hne as ->.
      destruct (decide _) as [Hin|Hin]; simpl in *.
      * unfold voters in *. simpl. rewrite ensure_lookup in *. simpl in *.
        symmetry. rewrite (comm_L (∪)). apply subseteq_union_1_L.
        by apply singleton_subseteq_l.
      * unfold voters. simpl. by rewrite alter_ensure_lookup.
    + destruct (String.eqb_spec uid "") as [->|Hne]; [done|].
      assert (id' ≠ id) as Hid by tauto.
      case_decide; unfold voters; simpl.
      * by rewrite ensure_lookup_ne.
      * by rewrite alter_ensure_lookup_ne.
Qed.

(** A voter set never holds the empty identity. *)
Lemma voters_nonempty_ids (s : State) (id : string) :
  reachable s → "" ∉ voters id s.
Proof.
  revert s. apply reachable_ind.
  - unfold voters. simpl. rewrite lookup_empty. apply not_elem_of_empty.
  - intros ev s _ IH. rewrite step_voters.
    destruct ev as [| | | | | |id' [uid|] rv]; try done.
    destruct (decide _) as [[_ Hne]|_]; [|done].
    rewrite elem_of_union, elem_of_singleton. by intros [?|?].
Qed.

Lemma vote_duplicate (id uid : string) (rv : option Z) (s : State) :
  uid ≠ "" → uid ∈ voters id s →
  vote id (Some uid) rv s = (s, [Reply res_already_voted]).
Proof.
  intros Hne (vs & Hvs & Hin)%voters_elem. unfold vote.
  apply String.eqb_neq in Hne as ->.
  rewrite (ensure_present _ _ _ vs), set_inMemoryVotes_same by done.
  rewrite Hvs. simpl. by rewrite decide_True.
Qed.

(** claim C2: a vote by an identity that is already in the voter set of
    the target answers [{ ok: false, reason: 'already_voted' }] and leaves
    the whole server state as it was (counter and voter set included); so
    any number of retries give that same answer and that same state. *)
Theorem duplicate_vote_is_rejected (s : State) (id uid : string)
    (rv : option Z) :
  reachable s → uid ∈ voters id s →
  vote id (Some uid) rv s = (s, [Reply res_already_voted])
  ∧ ∀ n : nat,
      run (replicate n (http_vote id (Some uid) rv)) s
      = (s, replicate n (Reply res_already_voted)).
Proof.
  intros Hreach Hin.
  assert (uid ≠ "") as Hne.
  { intros ->. by eapply voters_nonempty_ids. }
  pose proof (vote_duplicate id uid rv s Hne Hin) as Hdup.
  split; [done|].
  induction n as [|n IH]; [done|].
  cbn [replicate run step]. by rewrite Hdup, IH.
Qed.

Lemma or_num_0 (n : Z) : or_num n 0 = n.
Proof. unfold or_num. by case_decide. Qed.

Lemma replies_app (out1 out2 : list Effect) :
  replies (out1 ++ out2) = replies out1 ++ replies out2.
Proof. apply omap_app. Qed.

Lemma replies_broadcast (s : State) (f : Outbound) :
  replies (broadcastToAll s f) = [].
Proof. unfold broadcastToAll. by induction (clients s). Qed.

(** After the in-place update the same record is found again. *)
Lemma list_find_set_votes (id : string) (l : list Project) (i : nat)
    (proj : Project) (v : Z) :
  list_find (λ p, pj_id p = id) l = Some (i, proj) →
  list_find (λ p, pj_id p = id) (<[i := set_votes v proj]> l)
  = Some (i, set_votes v proj).
Proof.
  intros (Hi & Hid & Hbefore)%list_find_Some. apply list_find_Some.
  split_and!.
  - apply list_lookup_insert_eq. by eapply lookup_lt_Some.
  - done.
  - intros j y Hj Hlt. rewrite list_lookup_insert_ne in Hj by lia.
    by eapply Hbefore.
Qed.

Lemma db_writes_app (out1 out2 : list Effect) :
  db_writes (out1 ++ out2) = db_writes out1 ++ db_writes out2.
Proof. apply filter_app. Qed.

Lemma db_writes_broadcast (s : State) (f : Outbound) :
  db_writes (broadcastToAll s f) = [].
Proof.
  unfold broadcastToAll, db_writes. induction (clients s) as [|ws l IH]; [done|].
  rewrite fmap_cons, filter_cons. by rewrite decide_False by (by intros []).
Qed.

(** What an accepted vote does. *)
Lemma vote_accepted (id uid : string) (rv : option Z) (s : State) :
  uid ≠ "" → uid ∉ voters id s →
  let r := if db s
           then (inMemoryProjects s, or_num (default 0 rv) 1)
           else count_vote id (inMemoryProjects s) in
  vote id (Some uid) rv s
  = (set_inMemoryProjects r.1
       (set_inMemoryVotes
          (alter (λ vs, vs ∪ {[uid]}) id (ensure id ∅ (inMemoryVotes s))) s),
     (if db s then [DbIncVotes id] else [])
       ++ broadcastToAll s (vote_update id r.2) ++ [Reply (res_votes r.2)]).
Proof.
  intros Hne Hnin r. unfold vote.
  apply String.eqb_neq in Hne as ->. simpl.
  rewrite ensure_lookup. simpl. by rewrite decide_False.
Qed.

(** What the vote route does without a database for a voter that is not
    yet in the voter set of the target: the voter is added to the set and
    the call is answered [{ ok: true, votes }].  When a project record
    with the target id exists, the first such record has its counter
    raised by exactly one, every other record is untouched, and [votes] is
    the new counter, which is also broadcast; when none exists, no record
    changes and [votes] is 0. *)
Lemma vote_counts_once_on_known_project (s : State) (id uid : string)
    (rv : option Z) :
  let r := vote id (Some uid) rv s in
  db s = false → uid ≠ "" → uid ∉ voters id s →
  voters id r.1 = voters id s ∪ {[uid]}
  ∧ db_writes r.2 = []
  ∧ match list_find (λ p, pj_id p = id) (inMemoryProjects s) with
    | Some (i, proj) =>
        inMemoryProjects r.1
          = <[i := set_votes (pj_votes proj + 1) proj]> (inMemoryProjects s)
        ∧ vote_count id r.1 = vote_count id s + 1
        ∧ replies r.2 = [res_votes (vote_count id r.1)]
        ∧ ∀ ws, ws ∈ clients s →
                Send ws (vote_update id (vote_count id r.1)) ∈ r.2
    | None =>
        inMemoryProjects r.1 = inMemoryProjects s
        ∧ replies r.2 = [res_votes 0]
    end.
Proof.
  intros r Hdb Hne Hnin. unfold r.
  rewrite vote_accepted by done. simpl. split.
  { unfold voters. simpl. rewrite alter_ensure_lookup. simpl.
    by destruct (inMemoryVotes s !! id). }
  rewrite !db_writes_app, !replies_app, db_writes_broadcast, replies_broadcast.
  rewrite Hdb. simpl.
  split; [done|].
  unfold count_vote, vote_count, find_project. simpl.
  destruct (list_find _ (inMemoryProjects s)) as [[i proj]|] eqn:Hfind; simpl.
  - rewrite or_num_0, (list_find_set_votes _ _ _ _ _ Hfind). simpl.
    split_and!; try done.
    intros ws Hws. apply elem_of_app. left.
    unfold broadcastToAll. apply list_elem_of_fmap. by exists ws.
  - done.
Qed.

(** claim C1, where the code departs from it: without a database, on a
    target id that no project record carries, the first voter and a
    second, distinct voter are both recorded and both answered
    [{ ok: true, votes: 0 }]; the counts 1 and 2 that the claim expects are
    not returned, and no counter exists afterwards. *)
Theorem vote_on_unknown_target_counts_nothing :
  let r1 := vote "p1" (Some "u1") None init in
  let r2 := vote "p1" (Some "u2") None r1.1 in
  find_project "p1" init = None
  ∧ ("u1" ∉ voters "p1" init) ∧ ("u2" ∉ voters "p1" r1.1)
  ∧ voters "p1" r2.1 = {[ "u1"; "u2" ]}
  ∧ replies r1.2 = [res_votes 0] ∧ replies r2.2 = [res_votes 0]
  ∧ find_project "p1" r2.1 = None ∧ vote_count "p1" r2.1 = 0
  ∧ ¬ (replies r1.2 = [res_votes 1] ∧ replies r2.2 = [res_votes 2]).
Proof.
  split_and!.
  - by vm_compute.
  - apply (bool_decide_unpack _). by vm_compute.
  - apply (bool_decide_unpack _). by vm_compute.
  - apply (bool_decide_unpack _). by vm_compute.
  - by vm_compute.
  - by vm_compute.
  - by vm_compute.
  - by vm_compute.
  - intros [Hfirst _]. vm_compute in Hfirst. discriminate.
Qed.

(** ** Registration *)

(** With a database the route leaves the in-memory store alone and hands
    the driver one upsert keyed by the email: [$set] carries the fields of
    the call, [$setOnInsert] the [createdAt] of the body, or the clock
    reading when the body gives none or gives 0. *)
Lemma register_user_upsert (s : State) (email : string) (clk : Clock)
    (body : RegisterBody) :
  db s = true → email ≠ "" → rb_email body = Some email →
  (register_user clk body s).1 = s
  ∧ db_writes (register_user clk body s).2
    = [DbUser (make_userObj email clk body)
         (match rb_createdAt body with
          | Some t => if decide (t = 0) then new_Date_2 clk else t
          | None => new_Date_2 clk
          end)].
Proof.
  intros Hdb Hne He. apply String.eqb_neq in Hne.
  unfold register_user. by rewrite He, Hne, Hdb.
Qed.


(** ** Presence *)

Section MapKeys.
Context {V : Type}.
Implicit Types (m : list (value * V)) (k : value).

Lemma Map_has_set k k' (v : V) m :
  Map_has k (Map_set k' v m) ↔ k = k' ∨ Map_has k m.
Proof.
  unfold Map_has. induction m as [|[k0 v0] m IH]; simpl.
  - rewrite list_elem_of_singleton, elem_of_nil. tauto.
  - case_decide; simpl; rewrite !elem_of_cons; [subst; tauto|].
    rewrite IH. tauto.
Qed.

Lemma Map_has_delete k k' m :
  Map_has k (Map_delete k' m) ↔ k ≠ k' ∧ Map_has k m.
Proof.
  unfold Map_has, Map_delete. rewrite !list_elem_of_fmap. split.
  - intros ([k0 v0] & -> & [Hne Hin]%list_elem_of_filter).
    split; [done|]. by exists (k0, v0).
  - intros [Hne ([k0 v0] & -> & Hin)]. exists (k0, v0).
    split; [done|]. by apply list_elem_of_filter.
Qed.

Lemma Map_get_set k (v : V) m : Map_get k (Map_set k v m) = Some v.
Proof.
  induction m as [|[k0 v0] m IH]; simpl.
  - by rewrite decide_True.
  - case_decide; simpl; [by rewrite decide_True|by rewrite decide_False].
Qed.
End MapKeys.

Lemma Set_add_nonempty (x : Conn) (l : list Conn) : Set_add x l ≠ [].
Proof.
  unfold Set_add. case_decide as Hin.
  - intros ->. by apply elem_of_nil in Hin.
  - by destruct l.
Qed.

(** What the code does keep in step: a presence entry exists exactly for
    the keys of [userSockets] whose socket set is not empty.  Nothing
    keeps closed sockets out of such a set. *)
Lemma presence_tracks_socket_sets (s : State) :
  reachable s →
  ∀ u, Map_has u (onlineUsers s) ↔ ∃ l, userSockets s !! u = Some l ∧ l ≠ [].
Proof.
  revert s.
  apply (reachable_ind (λ s, ∀ u, Map_has u (onlineUsers s)
                               ↔ ∃ l, userSockets s !! u = Some l ∧ l ≠ [])).
  - intros u. unfold Map_has. simpl. rewrite elem_of_nil, lookup_empty.
    split; [done|]. by intros (l & ? & _).
  - intros ev s _ IH.
    destruct ev as [| |ws clk [data|]|ws|clk body|clk body|id userId rv].
    + done.
    + done.
    + unfold step. case_decide; [|done].
      destruct (decide (d_type data = Some "join")) as [Hty|Hty].
      * rewrite dispatch_join by done.
        unfold on_join. simpl. intros u. rewrite Map_has_set.
        destruct (decide (u = d_userId data)) as [->|Hne].
        -- rewrite alter_ensure_lookup. split; [|by left].
           intros _. eexists. split; [done|]. apply Set_add_nonempty.
        -- rewrite alter_ensure_lookup_ne by done. rewrite <- IH. tauto.
      * destruct (decide (d_type data = Some "message")) as [Hm|Hm].
        -- rewrite dispatch_message by done. unfold on_message.
           by case_match.
        -- by_frame (ws_on_message_other ws clk data s Hty Hm).
    + unfold step. by case_decide.
    + unfold step. case_decide; [|done]. unfold ws_on_close.
      destruct (bound ws _) as [u0|] eqn:Hb; [|done].
      change (userSockets (set_clients (Set_delete ws (clients s)) s))
        with (userSockets s).
      destruct (userSockets s !! Some u0) as [sockets|] eqn:Hs; [|done].
      destruct (decide _) as [Hlen|Hlen]; simpl; intros u.
      * rewrite Map_has_delete, IH.
        destruct (decide (u = Some u0)) as [->|Hne].
        -- rewrite lookup_delete_eq. split; [tauto|]. by intros (l & ? & _).
        -- rewrite lookup_delete_ne, lookup_insert_ne by done. tauto.
      * rewrite IH. destruct (decide (u = Some u0)) as [->|Hne].
        -- rewrite lookup_insert_eq, Hs. split.
           ++ intros _. eexists. split; [done|].
              intros Heq. by rewrite Heq in Hlen.
           ++ intros _. exists sockets. split; [done|].
              intros ->. by apply Hlen.
        -- by rewrite lookup_insert_ne.
    + unfold step. by_frame (register_user_hub clk body s).
    + unfold step. by_frame (post_project_hub clk body s).
    + unfold step. by_frame (vote_hub id userId rv s).
Qed.

(** claim C3, where the code departs from it: a socket that joins as [a],
    joins again as [b] and then closes is removed from the set of [b] only.
    No socket is open any more, yet [a] is still on the presence roster,
    and the socket set of [a] still holds the closed socket. *)
Theorem presence_outlives_rebound_socket :
  let s := exec rebind_then_close init in
  clients s = []
  ∧ Map_has (Some "a") (onlineUsers s)
  ∧ ¬ owns_open_connection (Some "a") s
  ∧ userSockets s !! Some "a" = Some [0%nat]
  ∧ connectedUserId s !! 0%nat = Some "b".
Proof.
  split_and!.
  - by vm_compute.
  - vm_compute. constructor.
  - intros (ws & _ & Hopen). vm_compute in Hopen. by apply elem_of_nil in Hopen.
  - by vm_compute.
  - by vm_compute.
Qed.

(** The same happens to a [join] frame that names no user: the close
    handler skips its clean-up when [connectedUserId] is falsy, and the
    entry keyed [undefined] stays on the roster. *)
Lemma presence_outlives_unnamed_join :
  let s := exec unnamed_join_then_close init in
  clients s = []
  ∧ Map_has None (onlineUsers s)
  ∧ ¬ owns_open_connection None s.
Proof.
  split_and!.
  - by vm_compute.
  - vm_compute. constructor.
  - intros (ws & _ & Hopen). vm_compute in Hopen. by apply elem_of_nil in Hopen.
Qed.


(** * Further properties *)

(** ** Thread keys of colon-free identities *)








(** ** Runs with the admin routes *)

Lemma serve_all_app (env : value) (rqs1 rqs2 : list Request) (s : State) :
  serve_all env (rqs1 ++ rqs2) s = serve_all env rqs2 (serve_all env rqs1 s).
Proof. revert s. induction rqs1 as [|rq rqs1 IH]; intros s; simpl; [done|apply IH]. Qed.

Lemma reachable_all_ind (env : value) (P : State → Prop) :
  P init →
  (∀ rq s, reachable_all env s → P s → P (serve env rq s).1) →
  ∀ s, reachable_all env s → P s.
Proof.
  intros H0 Hstep s [rqs <-].
  induction rqs as [|rq rqs IH] using rev_ind; [done|].
  rewrite serve_all_app. simpl. apply Hstep; [by exists rqs | done].
Qed.

Lemma reachable_all_serve (env : value) (rq : Request) (s : State) :
  reachable_all env s → reachable_all env (serve env rq s).1.
Proof. intros [rqs <-]. exists (rqs ++ [rq]). by rewrite serve_all_app. Qed.

(** The admin routes leave the hub alone; a ban touches the user records
    only, a deletion the project records only. *)
Lemma admin_ban_frame (env : value) (clk : Clock) (key email : value) (s : State) :
  let s' := (admin_ban env clk key email s).1 in
  same_hub s s' ∧ db s' = db s
  ∧ inMemoryProjects s' = inMemoryProjects s ∧ inMemoryVotes s' = inMemoryVotes s.
Proof. unfold admin_ban. by repeat (case_match || case_decide). Qed.

Lemma admin_delete_project_frame (env : value) (key : value) (id : string)
    (s : State) :
  let s' := (admin_delete_project env key id s).1 in
  same_hub s s' ∧ db s' = db s
  ∧ inMemoryUsers s' = inMemoryUsers s ∧ inMemoryVotes s' = inMemoryVotes s.
Proof. unfold admin_delete_project. by repeat (case_match || case_decide). Qed.

(** A request other than a core event leaves the hub alone. *)
Lemma serve_hub (env : value) (rq : Request) (s : State) :
  (∀ ev, rq ≠ core ev) → same_hub s (serve env rq s).1.
Proof.
  destruct rq as [ev|email found|found|clk key email|key id]; intros Hrq.
  - by destruct (Hrq ev).
  - done.
  - done.
  - apply admin_ban_frame.
  - apply admin_delete_project_frame.
Qed.

(** ** Socket sets and roster, turn by turn *)

Section MapKeysMore.
Context {V : Type}.
Implicit Types (m : list (value * V)) (k : value).

Lemma Map_set_keys k (v : V) m :
  (Map_set k v m).*1 = if decide (k ∈ m.*1) then m.*1 else m.*1 ++ [k].
Proof.
  induction m as [|[k0 v0] m IH]; [done|].
  cbn [Map_set]. destruct (decide (k0 = k)) as [->|Hne].
  - rewrite !fmap_cons. cbn [fst]. by rewrite decide_True by left.
  - rewrite !fmap_cons, IH. cbn [fst].
    destruct (decide (k ∈ m.*1)) as [Hin|Hin].
    + by rewrite decide_True by (by right).
    + rewrite decide_False; [done|].
      intros [?|?]%elem_of_cons; congruence.
Qed.

Lemma Map_delete_keys k m :
  (Map_delete k m).*1 = filter (λ k', k' ≠ k) m.*1.
Proof.
  unfold Map_delete. induction m as [|[k0 v0] m IH]; [done|].
  rewrite fmap_cons, !filter_cons. cbn [fst].
  destruct (decide (k0 ≠ k)); [rewrite fmap_cons; cbn [fst]|]; by rewrite IH.
Qed.

Lemma Map_set_NoDup k (v : V) m : NoDup m.*1 → NoDup (Map_set k v m).*1.
Proof.
  intros Hnd. rewrite Map_set_keys. case_decide; [done|].
  apply NoDup_app. split_and!; [done| |apply NoDup_singleton].
  intros k' Hk' Hk. apply list_elem_of_singleton in Hk. by subst.
Qed.

Lemma Map_delete_NoDup k m : NoDup m.*1 → NoDup (Map_delete k m).*1.
Proof. rewrite Map_delete_keys. apply NoDup_filter. Qed.

Lemma Map_get_set_ne k k' (v : V) m :
  k ≠ k' → Map_get k' (Map_set k v m) = Map_get k' m.
Proof.
  intros Hne. induction m as [|[k0 v0] m IH]; simpl.
  - by rewrite decide_False.
  - destruct (decide (k0 = k)) as [->|Hk0]; simpl.
    + by rewrite !decide_False.
    + by rewrite IH.
Qed.

Lemma Map_get_delete_ne k k' m :
  k ≠ k' → Map_get k' (Map_delete k m) = Map_get k' m.
Proof.
  intros Hne. unfold Map_delete. induction m as [|[k0 v0] m IH]; simpl; [done|].
  rewrite filter_cons. simpl. destruct (decide (k0 ≠ k)) as [Hk0|Hk0]; simpl.
  - by rewrite IH.
  - apply dec_stable in Hk0 as ->. by rewrite decide_False.
Qed.

Lemma Map_get_None k m : ¬ Map_has k m → Map_get k m = None.
Proof.
  unfold Map_has. induction m as [|[k0 v0] m IH]; simpl; [done|].
  rewrite elem_of_cons. intros Hnot.
  rewrite decide_False by (intros ->; apply Hnot; by left).
  apply IH. tauto.
Qed.
End MapKeysMore.

Lemma on_join_registered (ws : Conn) (data : Data) (s : State) (u : value) :
  registered u (on_join ws data s).1
  = if decide (u = d_userId data) then Set_add ws (registered u s)
    else registered u s.
Proof.
  unfold registered, on_join. simpl. case_decide as Hu.
  - subst u. by rewrite alter_ensure_lookup.
  - by rewrite alter_ensure_lookup_ne.
Qed.

Lemma ws_on_close_registered (ws : Conn) (s : State) (u : value) :
  registered u (ws_on_close ws s).1
  = match bound ws s with
    | Some b =>
        if decide (u = Some b) then Set_delete ws (registered u s)
        else registered u s
    | None => registered u s
    end.
Proof.
  unfold registered, ws_on_close. destruct (bound ws s) as [b|]; [|done].
  destruct (userSockets s !! Some b) as [sockets|] eqn:Hs.
  - destruct (decide (length _ = 0%nat)) as [Hlen|Hlen]; simpl.
    + destruct (decide (u = Some b)) as [->|Hne].
      * rewrite lookup_delete_eq, Hs. simpl.
        by apply nil_length_inv in Hlen as ->.
      * by rewrite lookup_delete_ne, lookup_insert_ne.
    + destruct (decide (u = Some b)) as [->|Hne].
      * by rewrite lookup_insert_eq, Hs.
      * by rewrite lookup_insert_ne.
  - simpl. case_decide; [|done]. subst u. by rewrite Hs.
Qed.

(** The handlers other than [join] leave the roster and the bindings of
    the sockets alone, and those but [join] and [close] the socket sets. *)
Lemma on_message_hub (ws : Conn) (clk : Clock) (data : Data) (s : State) :
  let s' := (on_message ws clk data s).1 in
  connectedUserId s' = connectedUserId s ∧ userSockets s' = userSockets s
  ∧ onlineUsers s' = onlineUsers s ∧ dmThreads s' = dmThreads s.
Proof. unfold on_message. by case_match. Qed.

(** What a turn does to the socket set of [u]. *)
Lemma step_registered (ev : Event) (s : State) (u : value) :
  registered u (step ev s).1
  = match ev with
    | ws_message ws _ (Some data) =>
        if decide (ws ∈ clients s ∧ d_type data = Some "join"
                   ∧ u = d_userId data)
        then Set_add ws (registered u s) else registered u s
    | ws_close ws =>
        if decide (ws ∈ clients s ∧ bound ws s = Some (default "" u)
                   ∧ is_Some u)
        then Set_delete ws (registered u s) else registered u s
    | _ => registered u s
    end.
Proof.
  destruct ev as [| |ws clk [data|]|ws|clk body|clk body|id userId rv];
    unfold step.
  - done.
  - done.
  - destruct (decide (ws ∈ clients s)) as [Hws|Hws];
      [|by rewrite decide_False by tauto].
    destruct (decide (d_type data = Some "join")) as [Hj|Hj].
    + rewrite dispatch_join, on_join_registered by done.
      destruct (decide (u = d_userId data)) as [Hu|Hu].
      * by rewrite decide_True.
      * by rewrite decide_False by tauto.
    + rewrite decide_False by tauto. unfold registered.
      destruct (decide (d_type data = Some "message")) as [Hm|Hm].
      * rewrite dispatch_message by done.
        by destruct (on_message_hub ws clk data s) as (_ & -> & _).
      * by_frame (ws_on_message_other ws clk data s Hj Hm).
  - by case_decide.
  - destruct (decide (ws ∈ clients s)) as [Hws|Hws];
      [|by rewrite decide_False by tauto].
    rewrite ws_on_close_registered.
    change (bound ws (set_clients (Set_delete ws (clients s)) s))
      with (bound ws s).
    change (registered u (set_clients (Set_delete ws (clients s)) s))
      with (registered u s).
    destruct (bound ws s) as [b|] eqn:Hb.
    + destruct (decide (u = Some b)) as [->|Hne].
      * by rewrite decide_True.
      * rewrite decide_False; [done|].
        intros (_ & Heq & [u' ->]). simpl in Heq. congruence.
    + rewrite decide_False; [done|]. by intros (_ & ? & _).
  - unfold registered. by_frame (register_user_hub clk body s).
  - unfold registered. by_frame (post_project_hub clk body s).
  - unfold registered. by_frame (vote_hub id userId rv s).
Qed.


(** What a turn does to the roster. *)
Lemma step_roster (ev : Event) (s : State) :
  onlineUsers (step ev s).1
  = match ev with
    | ws_message ws _ (Some data) =>
        if decide (ws ∈ clients s ∧ d_type data = Some "join")
        then Map_set (d_userId data) (join_profile data) (onlineUsers s)
        else onlineUsers s
    | ws_close ws =>
        match bound ws s with
        | Some b =>
            if decide (ws ∈ clients s ∧ is_Some (userSockets s !! Some b)
                       ∧ Set_delete ws (registered (Some b) s) = [])
            then Map_delete (Some b) (onlineUsers s)
            else onlineUsers s
        | None => onlineUsers s
        end
    | _ => onlineUsers s
    end.
Proof.
  destruct ev as [| |ws clk [data|]|ws|clk body|clk body|id userId rv];
    unfold step.
  - done.
  - done.
  - destruct (decide (ws ∈ clients s)) as [Hws|Hws];
      [|by rewrite decide_False by tauto].
    destruct (decide (d_type data = Some "join")) as [Hj|Hj].
    + rewrite dispatch_join by done. by rewrite decide_True.
    + rewrite decide_False by tauto.
      destruct (decide (d_type data = Some "message")) as [Hm|Hm].
      * rewrite dispatch_message by done.
        by destruct (on_message_hub ws clk data s) as (_ & _ & -> & _).
      * by_frame (ws_on_message_other ws clk data s Hj Hm).
  - by case_decide.
  - destruct (decide (ws ∈ clients s)) as [Hws|Hws].
    + unfold ws_on_close, registered.
      change (bound ws (set_clients (Set_delete ws (clients s)) s))
        with (bound ws s).
      destruct (bound ws s) as [b|]; [|done].
      change (userSockets (set_clients (Set_delete ws (clients s)) s))
        with (userSockets s).
      destruct (userSockets s !! Some b) as [sockets|] eqn:Hs; simpl.
      * destruct (decide (length _ = 0%nat)) as [Hlen|Hlen]; simpl.
        -- rewrite decide_True; [done|].
           split_and!; [done|by eexists|by apply nil_length_inv].
        -- rewrite decide_False; [done|].
           intros (_ & _ & Heq). by rewrite Heq in Hlen.
      * rewrite decide_False; [done|]. by intros (_ & [? ?] & _).
    + destruct (bound ws s); [|done]. by rewrite decide_False by tauto.
  - by_frame (register_user_hub clk body s).
  - by_frame (post_project_hub clk body s).
  - by_frame (vote_hub id userId rv s).
Qed.

(** What a turn does to the binding of socket [ws']. *)
Lemma step_bindings (ev : Event) (s : State) (ws' : Conn) :
  connectedUserId (step ev s).1 !! ws'
  = match ev with
    | ws_message ws _ (Some data) =>
        if decide (ws ∈ clients s ∧ d_type data = Some "join" ∧ ws = ws')
        then d_userId data else connectedUserId s !! ws'
    | _ => connectedUserId s !! ws'
    end.
Proof.
  destruct ev as [| |ws clk [data|]|ws|clk body|clk body|id userId rv];
    try (by apply step_connectedUserId).
  unfold step.
  destruct (decide (ws ∈ clients s)) as [Hws|Hws];
    [|by rewrite decide_False by tauto].
  destruct (decide (d_type data = Some "join")) as [Hj|Hj].
  - rewrite dispatch_join by done. unfold on_join. simpl.
    destruct (decide (ws = ws')) as [->|Hne].
    + rewrite decide_True by done.
      destruct (d_userId data);
        [by rewrite lookup_insert_eq|by rewrite lookup_delete_eq].
    + rewrite decide_False by tauto.
      destruct (d_userId data);
        [by rewrite lookup_insert_ne|by rewrite lookup_delete_ne].
  - rewrite decide_False by tauto.
    destruct (decide (d_type data = Some "message")) as [Hm|Hm].
    + rewrite dispatch_message by done.
      by destruct (on_message_hub ws clk data s) as (-> & _).
    + by_frame (ws_on_message_other ws clk data s Hj Hm).
Qed.

Lemma Set_delete_nonmember (x : Conn) (l : list Conn) :
  x ∉ l → Set_delete x l = l.
Proof.
  intros Hx. unfold Set_delete. induction l as [|y l IH]; [done|].
  rewrite filter_cons. apply not_elem_of_cons in Hx as [Hne Hx].
  rewrite decide_True by done. by rewrite IH.
Qed.

(** ** The hub stays well formed *)

Lemma hub_wf_init : hub_wf init.
Proof.
  unfold hub_wf, registered, Map_has. simpl. split_and!.
  - constructor.
  - by intros ws ?%elem_of_nil.
  - intros u. rewrite lookup_empty. constructor.
  - constructor.
  - intros u. rewrite lookup_empty, elem_of_nil. simpl. tauto.
  - intros ws u. by rewrite lookup_empty.
  - by intros ws u ?%elem_of_nil.
Qed.

Lemma hub_wf_step (ev : Event) (s : State) : hub_wf s → hub_wf (step ev s).1.
Proof.
  intros (Hcl & Hlt & Hreg & Hros & Htr & Hbl & Hbr). unfold hub_wf. split_and!.
  - rewrite step_clients. destruct ev; try done.
    + by apply Set_add_NoDup.
    + case_decide; [|done]. by apply Set_delete_NoDup.
  - rewrite step_clients, step_next_ws. destruct ev; try done.
    + intros ws [-> | Hin]%elem_of_Set_add; [lia|]. apply Hlt in Hin. lia.
    + case_decide; [|done]. intros ws' [_ Hin]%elem_of_Set_delete. by apply Hlt.
  - intros u. rewrite step_registered.
    destruct ev as [| |ws clk [data|]|ws| | |]; try done.
    + case_decide; [|done]. by apply Set_add_NoDup.
    + case_decide; [|done]. by apply Set_delete_NoDup.
  - rewrite step_roster.
    destruct ev as [| |ws clk [data|]|ws| | |]; try done.
    + case_decide; [|done]. by apply Map_set_NoDup.
    + destruct (bound ws s); [|done]. case_decide; [|done].
      by apply Map_delete_NoDup.
  - intros u. rewrite step_roster, step_registered.
    destruct ev as [| |ws clk [data|]|ws| | |]; try done.
    + destruct (decide (ws ∈ clients s ∧ d_type data = Some "join"))
        as [[Hws Hj]|Hn].
      * rewrite Map_has_set. destruct (decide (u = d_userId data)) as [->|Hne].
        -- rewrite decide_True by done. split; [|by left].
           intros _. apply Set_add_nonempty.
        -- rewrite decide_False by tauto. rewrite <- Htr. tauto.
      * rewrite decide_False by tauto. apply Htr.
    + destruct (bound ws s) as [b|] eqn:Hb.
      * destruct (decide (u = Some b)) as [->|Hne].
        -- simpl.
           destruct (decide (ws ∈ clients s)) as [Hws|Hws].
           ++ rewrite (decide_True (P := _ ∧ Some b = Some b ∧ _))
                by (split_and!; [done..|by eexists]).
              destruct (userSockets s !! Some b) as [sockets|] eqn:Hs.
              ** destruct (decide (Set_delete ws (registered (Some b) s) = []))
                   as [He|He].
                 --- rewrite decide_True by (split_and!; [done|by eexists|done]).
                     rewrite Map_has_delete. tauto.
                 --- rewrite decide_False by tauto. rewrite Htr. split; [done|].
                     intros _ Hnil. apply He. by rewrite Hnil.
              ** rewrite decide_False by (intros (_ & [? ?] & _); done).
                 unfold registered. rewrite Hs. simpl. rewrite Htr.
                 unfold registered. rewrite Hs. done.
           ++ rewrite !decide_False by tauto. apply Htr.
        -- rewrite (decide_False (P := _ ∧ Some b = Some (default "" u) ∧ _)).
           ++ case_decide; [|apply Htr].
              rewrite Map_has_delete, Htr. tauto.
           ++ intros (_ & Heq & [u' ->]). simpl in Heq. congruence.
      * rewrite decide_False by (by intros (_ & ? & _)). apply Htr.
  - intros ws' u. rewrite step_bindings, step_next_ws.
    destruct ev as [| |ws clk [data|]|ws| | |]; try apply Hbl.
    + intros Hb%Hbl. lia.
    + case_decide as Hc; [|apply Hbl].
      destruct Hc as (Hws & _ & <-). intros _. by apply Hlt.
  - intros ws' u. rewrite step_clients, step_bindings, step_registered.
    destruct ev as [| |ws clk [data|]|ws| | |]; try apply Hbr.
    + intros [->|Hin]%elem_of_Set_add; [|by apply Hbr].
      intros Hb%Hbl. lia.
    + destruct (decide (ws ∈ clients s ∧ d_type data = Some "join" ∧ ws = ws'))
        as [(Hws & Hj & <-)|Hn].
      * intros _ Hu. rewrite decide_True by done.
        apply elem_of_Set_add. by left.
      * intros Hin Hb. case_decide; [|by apply Hbr].
        apply elem_of_Set_add. right. by apply Hbr.
    + destruct (decide (ws ∈ clients s)) as [Hws|Hws].
      * intros [Hne Hin]%elem_of_Set_delete Hb.
        case_decide; [|by apply Hbr].
        apply elem_of_Set_delete. split; [done|by apply Hbr].
      * intros Hin Hb. rewrite decide_False by tauto. by apply Hbr.
Qed.

Lemma hub_wf_same (s s' : State) : same_hub s s' → hub_wf s → hub_wf s'.
Proof.
  intros (Hn & Hc & Hb & Hu & Ho & _). unfold hub_wf, registered.
  by rewrite Hn, Hc, Hb, Hu, Ho.
Qed.

Lemma hub_wf_serve (env : value) (rq : Request) (s : State) :
  hub_wf s → hub_wf (serve env rq s).1.
Proof.
  intros Hwf. destruct rq as [ev|email found|found|clk key email|key id].
  - by apply hub_wf_step.
  - done.
  - done.
  - eapply hub_wf_same; [|done]. apply admin_ban_frame.
  - eapply hub_wf_same; [|done]. apply admin_delete_project_frame.
Qed.

Lemma hub_wf_reachable (env : value) (s : State) :
  reachable_all env s → hub_wf s.
Proof.
  revert s. apply reachable_all_ind; [apply hub_wf_init|].
  intros rq s _. apply hub_wf_serve.
Qed.

(** property X2: whatever requests the server has handled, [wss.clients]
    and every user's socket set list no socket twice, the presence roster
    has at most one entry per user id, it has an entry exactly for the
    user ids whose socket set is not empty, and every open socket is in
    the socket set of the identity it is bound to. *)
Theorem hub_stays_well_formed (env : value) (s : State) :
  reachable_all env s →
  NoDup (clients s)
  ∧ (∀ u, NoDup (registered u s))
  ∧ NoDup (onlineUsers s).*1
  ∧ (∀ u, Map_has u (onlineUsers s) ↔ registered u s ≠ [])
  ∧ (∀ ws u, ws ∈ clients s → bound ws s = Some u →
             ws ∈ registered (Some u) s).
Proof.
  intros Hreach.
  apply hub_wf_reachable in Hreach as (Hcl & _ & Hreg & Hkeys & Hroster & _ & Hb).
  split_and!; [done..|].
  intros ws u Hin Hbound. apply Hb; [done|]. by apply bound_lookup.
Qed.


(** ** Delivery to one user *)

Lemma elem_of_open_sockets (ws : Conn) (sockets : list Conn) (s : State) :
  ws ∈ filter (λ ws', ws' ∈ clients s) sockets ↔ ws ∈ sockets ∧ ws ∈ clients s.
Proof. rewrite list_elem_of_filter. tauto. Qed.

(** [sendToUser] writes its frame once to every open socket of the user's
    set and to no other. *)
Lemma frames_to_sendToUser (ws : Conn) (f : Outbound) (s : State) (u : value) :
  NoDup (registered u s) →
  frames_to ws (sendToUser s u f)
  = if decide (ws ∈ registered u s ∧ ws ∈ clients s) then [f] else [].
Proof.
  unfold registered, sendToUser. intros Hnd.
  destruct (userSockets s !! u) as [sockets|]; cbn [default] in *.
  - rewrite frames_to_sends, filter_eq_NoDup by (by apply NoDup_filter).
    destruct (decide (ws ∈ filter _ sockets)) as [Hin|Hin].
    + apply elem_of_open_sockets in Hin. by rewrite decide_True.
    + rewrite decide_False; [done|]. by rewrite <- elem_of_open_sockets.
  - rewrite decide_False; [done|]. by intros [?%elem_of_nil _].
Qed.

Lemma db_writes_sendToUser (s : State) (u : value) (f : Outbound) :
  db_writes (sendToUser s u f) = [].
Proof.
  unfold sendToUser, db_writes. destruct (userSockets s !! u) as [l|]; [|done].
  induction (filter _ l) as [|ws l' IH]; [done|].
  rewrite fmap_cons, filter_cons. by rewrite decide_False by (by intros []).
Qed.

Lemma step_ws_message (ws : Conn) (clk : Clock) (raw : option Data) (s : State) :
  ws ∈ clients s →
  step (ws_message ws clk raw) s = ws_on_message ws clk raw s.
Proof. intros Hws. unfold step. by rewrite decide_True. Qed.

(** property X3: an accepted direct message is appended to the thread of
    its pair and to no other thread, nothing else in the server changes,
    and it is written once as [dm] to every open socket registered under
    the recipient and once as [dm_sent] to every open socket registered
    under the sender, and to no other socket; when the recipient has no
    socket the message is stored all the same. *)
Theorem dm_is_filed_and_delivered (env : value) (s : State) (ws : Conn)
    (u toId : string) (clk : Clock) (data : Data) :
  let r := step (ws_message ws clk (Some data)) s in
  let dmMsg := make_dm u toId clk data in
  let key := getDMKey (Some u) (Some toId) in
  reachable_all env s → ws ∈ clients s → bound ws s = Some u →
  d_type data = Some "dm" → d_toId data = Some toId →
  toId ≠ "" → toId ≠ u →
  dmThreads r.1 !! key = Some (default [] (dmThreads s !! key) ++ [dmMsg])
  ∧ (∀ k, k ≠ key → dmThreads r.1 !! k = dmThreads s !! k)
  ∧ r.1 = set_dmThreads (dmThreads r.1) s
  ∧ db_writes r.2 = (if db s then [DbDm dmMsg] else [])
  ∧ ∀ ws',
      frames_to ws' r.2
      = (if decide (ws' ∈ registered (Some toId) s ∧ ws' ∈ clients s)
         then [dm dmMsg] else [])
        ++ (if decide (ws' ∈ registered (Some u) s ∧ ws' ∈ clients s)
            then [dm_sent dmMsg] else []).
Proof.
  intros r dmMsg key Hreach Hws Hb Hty Hto Hne1 Hne2.
  apply hub_wf_reachable in Hreach as (_ & _ & Hreg & _).
  unfold r. rewrite step_ws_message, dispatch_dm by done.
  rewrite (on_dm_accepted ws clk data s u toId) by done. simpl.
  fold key dmMsg. split_and!.
  - by rewrite alter_ensure_lookup.
  - intros k Hk. by rewrite alter_ensure_lookup_ne.
  - done.
  - rewrite !db_writes_app, !db_writes_sendToUser, app_nil_r.
    by destruct (db s).
  - intros ws'. rewrite !frames_to_app, frames_to_db by done.
    by rewrite !frames_to_sendToUser by apply Hreg.
Qed.


(** ** What is stored *)









(** ** Joining and leaving *)

(** property X5: a [join] frame on an open socket binds the socket to the
    identity named, adds it to that identity's socket set, and stores the
    profile of the frame as that identity's presence entry: an entry that
    existed is overwritten in place, a new one goes last, and no other
    entry or socket set changes.  The joining socket is written the
    history, then the roster, then [user_joined]; every other open socket
    is written the roster, then [user_joined]. *)
Theorem join_updates_presence (env : value) (s : State) (ws : Conn)
    (clk : Clock) (data : Data) :
  let r := step (ws_message ws clk (Some data)) s in
  let uid := d_userId data in
  let roster := Map_values (onlineUsers r.1) in
  reachable_all env s → ws ∈ clients s → d_type data = Some "join" →
  connectedUserId r.1 !! ws = uid
  ∧ registered uid r.1 = Set_add ws (registered uid s)
  ∧ (∀ k, k ≠ uid → registered k r.1 = registered k s)
  ∧ Map_get uid (onlineUsers r.1) = Some (join_profile data)
  ∧ (∀ k, k ≠ uid → Map_get k (onlineUsers r.1) = Map_get k (onlineUsers s))
  ∧ (onlineUsers r.1).*1
    = (if decide (uid ∈ (onlineUsers s).*1) then (onlineUsers s).*1
       else (onlineUsers s).*1 ++ [uid])
  ∧ frames_to ws r.2
    = [history (slice_last 50 (publicMessages s)); online_users roster;
       user_joined (Some (join_profile data))]
  ∧ ∀ ws', ws' ≠ ws →
      frames_to ws' r.2
      = if decide (ws' ∈ clients s)
        then [online_users roster; user_joined (Some (join_profile data))]
        else [].
Proof.
  intros r uid roster Hreach Hws Hj.
  apply hub_wf_reachable in Hreach as (Hcl & _).
  assert (r = on_join ws data s) as Hr
    by (unfold r; by rewrite step_ws_message, dispatch_join).
  assert (onlineUsers r.1 = Map_set uid (join_profile data) (onlineUsers s))
    as Hros by (by rewrite Hr).
  assert (r.2 = Send ws (history (slice_last 50 (publicMessages s)))
                  :: broadcastToAll s (online_users roster)
                  ++ broadcastToAll s
                       (user_joined (Map_get uid (onlineUsers r.1)))) as Hout
    by (unfold roster; by rewrite Hr).
  assert (Map_get uid (onlineUsers r.1) = Some (join_profile data)) as Hget
    by (rewrite Hros; apply Map_get_set).
  rewrite Hget in Hout. split_and!.
  - unfold r. rewrite step_bindings. by rewrite decide_True.
  - rewrite Hr, on_join_registered. by rewrite decide_True.
  - intros k Hk. rewrite Hr, on_join_registered. by rewrite decide_False.
  - done.
  - intros k Hk. rewrite Hros. by apply Map_get_set_ne.
  - rewrite Hros. apply Map_set_keys.
  - rewrite Hout, frames_to_cons, decide_True by done.
    rewrite frames_to_app, !frames_to_broadcast by done.
    by rewrite !decide_True by done.
  - intros ws' Hne. rewrite Hout, frames_to_cons, decide_False by done.
    rewrite frames_to_app, !frames_to_broadcast by done.
    by case_decide.
Qed.

Lemma step_ws_close (ws : Conn) (s : State) :
  ws ∈ clients s →
  step (ws_close ws) s
  = ws_on_close ws (set_clients (Set_delete ws (clients s)) s).
Proof. intros Hws. unfold step. by rewrite decide_True. Qed.

(** property X6: when an open socket bound to identity [u] closes, it
    leaves [wss.clients] and the socket set of [u].  If that set becomes
    empty, the presence entry of [u] is removed and every socket still open
    is written [user_left], then the new roster; otherwise the roster is
    kept and nothing is written.  The closed socket is written nothing. *)
Theorem close_updates_presence (env : value) (s : State) (ws : Conn)
    (u : string) :
  let r := step (ws_close ws) s in
  let roster := Map_values (onlineUsers r.1) in
  reachable_all env s → ws ∈ clients s → bound ws s = Some u →
  clients r.1 = Set_delete ws (clients s)
  ∧ ws ∈ registered (Some u) s
  ∧ registered (Some u) r.1 = Set_delete ws (registered (Some u) s)
  ∧ (∀ k, k ≠ Some u → registered k r.1 = registered k s)
  ∧ if decide (Set_delete ws (registered (Some u) s) = []) then
      onlineUsers r.1 = Map_delete (Some u) (onlineUsers s)
      ∧ ¬ Map_has (Some u) (onlineUsers r.1)
      ∧ ∀ ws',
          frames_to ws' r.2
          = if decide (ws' ∈ clients s ∧ ws' ≠ ws)
            then [user_left u; online_users roster] else []
    else
      onlineUsers r.1 = onlineUsers s
      ∧ Map_has (Some u) (onlineUsers r.1)
      ∧ r.2 = [].
Proof.
  intros r roster Hreach Hws Hb.
  apply hub_wf_reachable in Hreach as (Hcl & _ & _ & _ & Htr & _ & Hbr).
  assert (ws ∈ registered (Some u) s) as Hin
    by (apply Hbr; [done|by apply bound_lookup]).
  assert (is_Some (userSockets s !! Some u)) as [sockets Hs].
  { unfold registered in Hin. destruct (userSockets s !! Some u); [by eexists|].
    by apply elem_of_nil in Hin. }
  assert (registered (Some u) s = sockets) as Hreg
    by (unfold registered; by rewrite Hs).
  split_and!.
  - unfold r. rewrite step_clients. by rewrite decide_True.
  - done.
  - unfold r. rewrite step_registered. simpl.
    by rewrite decide_True by (split_and!; [done..|by eexists]).
  - intros k Hk. unfold r. rewrite step_registered.
    rewrite decide_False; [done|].
    intros (_ & Heq & [k' ->]). rewrite Hb in Heq. simpl in Heq. congruence.
  - assert (r = ws_on_close ws (set_clients (Set_delete ws (clients s)) s))
      as Hr by (unfold r; by apply step_ws_close).
    unfold roster. rewrite Hr. unfold ws_on_close.
    change (bound ws (set_clients (Set_delete ws (clients s)) s))
      with (bound ws s). rewrite Hb.
    change (userSockets (set_clients (Set_delete ws (clients s)) s))
      with (userSockets s). rewrite Hs, Hreg.
    destruct (decide (Set_delete ws sockets = [])) as [He|He].
    + rewrite He. simpl. split_and!.
      * done.
      * rewrite Map_has_delete. tauto.
      * intros ws'. rewrite frames_to_app.
        assert (NoDup (Set_delete ws (clients s))) as Hnd
          by (by apply Set_delete_NoDup).
        set (s' := set_onlineUsers _ _).
        assert (clients s' = Set_delete ws (clients s)) as Hcs by done.
        rewrite !frames_to_broadcast by (by rewrite Hcs).
        rewrite Hcs.
        destruct (decide (ws' ∈ Set_delete ws (clients s))) as [Hd|Hd].
        -- apply elem_of_Set_delete in Hd. by rewrite decide_True by tauto.
        -- rewrite decide_False; [done|].
           rewrite elem_of_Set_delete in Hd. tauto.
    + rewrite decide_False by (intros Hl; apply He; by apply nil_length_inv).
      simpl. split_and!; [done| |done].
      apply Htr. intros Hnil. rewrite Hnil in Hin. by apply elem_of_nil in Hin.
Qed.

(** ** Frames that store nothing *)

(** property X7: [typing] and [dm_typing] frames of a bound socket leave
    the server state as it was; a [typing] frame is written once to every
    open socket, a [dm_typing] frame once to every open socket registered
    under the recipient named, and to no other. *)
Theorem typing_is_ephemeral (env : value) (s : State) (ws : Conn) (u : string)
    (clk : Clock) (data : Data) :
  let r := step (ws_message ws clk (Some data)) s in
  reachable_all env s → ws ∈ clients s → bound ws s = Some u →
  (d_type data = Some "typing" →
   r.1 = s
   ∧ ∀ ws', frames_to ws' r.2
            = if decide (ws' ∈ clients s)
              then [typing u (d_name data) (d_isTyping data)] else [])
  ∧ (d_type data = Some "dm_typing" →
     r.1 = s
     ∧ ∀ ws', frames_to ws' r.2
              = if decide (ws' ∈ registered (d_toId data) s ∧ ws' ∈ clients s)
                then [dm_typing u (d_name data) (d_isTyping data)] else []).
Proof.
  intros r Hreach Hws Hb.
  apply hub_wf_reachable in Hreach as (Hcl & _ & Hreg & _).
  unfold r. rewrite step_ws_message by done. split; intros Hty.
  - rewrite dispatch_typing by done. unfold on_typing. rewrite Hb. simpl.
    split; [done|]. intros ws'. by apply frames_to_broadcast.
  - rewrite dispatch_dm_typing by done. unfold on_dm_typing. rewrite Hb. simpl.
    split; [done|]. intros ws'. by apply frames_to_sendToUser.
Qed.



(** ** Presence when no socket changes identity *)

Lemma no_rebinding_app (env : value) (rqs1 rqs2 : list Request) (s : State) :
  no_rebinding env (rqs1 ++ rqs2) s
  = no_rebinding env rqs1 s && no_rebinding env rqs2 (serve_all env rqs1 s).
Proof.
  revert s. induction rqs1 as [|rq rqs1 IH]; intros s; simpl; [done|].
  by rewrite IH, andb_assoc.
Qed.

Lemma bound_of_lookup (ws : Conn) (s : State) (v : string) :
  connectedUserId s !! ws = Some v → v ≠ "" → bound ws s = Some v.
Proof.
  intros Hl Hv. unfold bound. rewrite Hl.
  by apply String.eqb_neq in Hv as ->.
Qed.

Lemma sets_hold_bound_sockets_step (ev : Event) (s : State) :
  join_keeps_identity (core ev) s = true →
  sets_hold_bound_sockets s → sets_hold_bound_sockets (step ev s).1.
Proof.
  intros Hkeep [Hne Hsets]. split.
  - intros ws' v. rewrite step_bindings.
    destruct ev as [| |ws clk [data|]|ws| | |]; try apply Hne.
    case_decide as Hc; [|apply Hne]. destruct Hc as (Hws & Hj & _).
    simpl in Hkeep. rewrite decide_True in Hkeep by done.
    intros Hv. rewrite Hv in Hkeep.
    apply andb_prop in Hkeep as [Hv' _]. apply negb_true_iff in Hv'.
    by apply String.eqb_neq.
  - intros u ws'. rewrite step_registered, step_clients.
    destruct ev as [| |ws clk [data|]|ws|clk body|clk body|id userId rv].
    + intros Hin. by apply Hsets.
    + intros Hin. apply Hsets in Hin as (Hcl & v & -> & Hv).
      split; [apply elem_of_Set_add; by right|]. exists v.
      by rewrite step_bindings.
    + destruct (decide (ws ∈ clients s ∧ d_type data = Some "join")) as [[Hws Hj]|Hn].
      * simpl in Hkeep. rewrite decide_True in Hkeep by done.
        destruct (d_userId data) as [v|] eqn:Hv; [|done].
        apply andb_prop in Hkeep as [_ Hold]. apply bool_decide_eq_true in Hold.
        destruct (decide (u = Some v)) as [->|Hu].
        -- rewrite decide_True by done.
           intros [->|Hin]%elem_of_Set_add.
           ++ split; [done|]. exists v. split; [done|].
              rewrite step_bindings. by rewrite decide_True.
           ++ apply Hsets in Hin as (Hcl & v' & [= <-] & Hv').
              split; [done|]. exists v. split; [done|].
              rewrite step_bindings. case_decide as Hc; [|done].
              by destruct Hc as (_ & _ & ->).
        -- rewrite decide_False by tauto.
           intros Hin. apply Hsets in Hin as (Hcl & v' & -> & Hv').
           split; [done|]. exists v'. split; [done|].
           rewrite step_bindings. case_decide as Hc; [|done].
           destruct Hc as (_ & _ & ->). rewrite Hv' in Hold.
           destruct Hold as [?|?]; congruence.
      * rewrite decide_False by tauto.
        intros Hin. apply Hsets in Hin as (Hcl & v' & -> & Hv').
        split; [done|]. exists v'. split; [done|].
        rewrite step_bindings. by rewrite decide_False by tauto.
    + intros Hin. apply Hsets in Hin as (Hcl & v' & -> & Hv').
      split; [done|]. exists v'. by rewrite step_bindings.
    + destruct (decide (ws ∈ clients s)) as [Hws|Hws].
      * destruct (decide (bound ws s = Some (default "" u) ∧ is_Some u))
          as [[Hb Hu]|Hn].
        -- rewrite decide_True by done.
           intros [Hne' Hin]%elem_of_Set_delete.
           apply Hsets in Hin as (Hcl & v' & -> & Hv').
           split; [by apply elem_of_Set_delete|]. exists v'.
           by rewrite step_bindings.
        -- rewrite decide_False by tauto.
           intros Hin. apply Hsets in Hin as (Hcl & v' & -> & Hv').
           assert (ws' ≠ ws) as Hne'.
           { intros ->. apply Hn. split; [|by eexists]. simpl.
             apply bound_of_lookup; [done|]. by eapply Hne. }
           split; [by apply elem_of_Set_delete|]. exists v'.
           by rewrite step_bindings.
      * rewrite !decide_False by tauto.
        intros Hin. apply Hsets in Hin as (Hcl & v' & -> & Hv').
        split; [done|]. exists v'. by rewrite step_bindings.
    + intros Hin. apply Hsets in Hin as (Hcl & v' & -> & Hv').
      split; [done|]. exists v'. by rewrite step_bindings.
    + intros Hin. apply Hsets in Hin as (Hcl & v' & -> & Hv').
      split; [done|]. exists v'. by rewrite step_bindings.
    + intros Hin. apply Hsets in Hin as (Hcl & v' & -> & Hv').
      split; [done|]. exists v'. by rewrite step_bindings.
Qed.

Lemma sets_hold_bound_sockets_same (s s' : State) :
  same_hub s s' → sets_hold_bound_sockets s → sets_hold_bound_sockets s'.
Proof.
  intros (_ & Hc & Hb & Hu & _). unfold sets_hold_bound_sockets, registered.
  by rewrite Hc, Hb, Hu.
Qed.

Lemma sets_hold_bound_sockets_serve (env : value) (rq : Request) (s : State) :
  join_keeps_identity rq s = true →
  sets_hold_bound_sockets s → sets_hold_bound_sockets (serve env rq s).1.
Proof.
  intros Hkeep Hs. destruct rq as [ev|email found|found|clk key email|key id].
  - by apply sets_hold_bound_sockets_step.
  - done.
  - done.
  - eapply sets_hold_bound_sockets_same; [|done]. apply admin_ban_frame.
  - eapply sets_hold_bound_sockets_same; [|done]. apply admin_delete_project_frame.
Qed.

Lemma no_rebinding_sets (env : value) (rqs : list Request) :
  no_rebinding env rqs init = true →
  sets_hold_bound_sockets (serve_all env rqs init).
Proof.
  induction rqs as [|rq rqs IH] using rev_ind; intros Hno.
  - split.
    + intros ws v. simpl. by rewrite lookup_empty.
    + intros u ws. unfold registered. simpl. rewrite lookup_empty. simpl.
      by intros ?%elem_of_nil.
  - rewrite no_rebinding_app in Hno. apply andb_prop in Hno as [Hno Hlast].
    simpl in Hlast. rewrite andb_true_r in Hlast.
    rewrite serve_all_app. simpl.
    apply sets_hold_bound_sockets_serve; [done|by apply IH].
Qed.

(** property X9: in a run where every [join] frame names a non-empty
    identity and no socket joins under a second identity, the presence
    roster lists exactly the identities that have an open socket bound to
    them: an entry exists if and only if some open socket is bound to that
    identity, which is also when the identity owns an open connection. *)
Theorem presence_is_exact_without_rebinding (env : value) (rqs : list Request)
    (u : value) :
  let s := serve_all env rqs init in
  no_rebinding env rqs init = true →
  (Map_has u (onlineUsers s)
   ↔ ∃ ws v, u = Some v ∧ ws ∈ clients s ∧ bound ws s = Some v)
  ∧ (Map_has u (onlineUsers s) ↔ owns_open_connection u s).
Proof.
  intros s Hno.
  assert (hub_wf s) as (_ & _ & _ & _ & Htr & _ & Hbr)
    by (apply (hub_wf_reachable env); by exists rqs).
  destruct (no_rebinding_sets env rqs Hno) as [Hne Hsets]. fold s in Hne, Hsets.
  assert (Map_has u (onlineUsers s)
          ↔ ∃ ws v, u = Some v ∧ ws ∈ clients s ∧ bound ws s = Some v) as Hexact.
  { rewrite Htr. split.
    - intros Hreg. destruct (registered u s) as [|ws l] eqn:Hl; [done|].
      assert (ws ∈ registered u s) as Hin by (rewrite Hl; left).
      apply Hsets in Hin as (Hcl & v & -> & Hv).
      exists ws, v. split_and!; [done..|].
      apply bound_of_lookup; [done|]. by eapply Hne.
    - intros (ws & v & -> & Hcl & Hb) Hnil.
      apply bound_lookup in Hb. apply (Hbr _ _ Hcl) in Hb.
      rewrite Hnil in Hb. by apply elem_of_nil in Hb. }
  split; [done|]. rewrite Hexact. unfold owns_open_connection. split.
  - intros (ws & v & -> & Hcl & Hb). exists ws. split; [|done].
    apply Hbr; [done|]. by apply bound_lookup.
  - intros (ws & Hin & Hcl).
    apply (Hsets u ws) in Hin as (_ & v & -> & Hv).
    exists ws, v. split_and!; [done..|].
    apply bound_of_lookup; [done|]. by eapply Hne.
Qed.


(** ** User records *)

Lemma post_project_users (clk : Clock) (body : ProjectBody) (s : State) :
  inMemoryUsers (post_project clk body s).1 = inMemoryUsers s.
Proof. unfold post_project. simpl. by destruct (db s). Qed.

Lemma vote_users (id : string) (userId : value) (rv : option Z) (s : State) :
  inMemoryUsers (vote id userId rv s).1 = inMemoryUsers s.
Proof. unfold vote. by repeat (case_match || case_decide). Qed.

Lemma register_user_projects (clk : Clock) (body : RegisterBody) (s : State) :
  inMemoryProjects (register_user clk body s).1 = inMemoryProjects s.
Proof. unfold register_user. by repeat case_match. Qed.

(** What a registration does to the record kept under [e]. *)
Lemma register_user_lookup (clk : Clock) (body : RegisterBody) (s : State)
    (e : string) :
  inMemoryUsers (register_user clk body s).1 !! e
  = if decide (rb_email body = Some e ∧ e ≠ "" ∧ db s = false)
    then Some (merge_user (inMemoryUsers s !! e) (make_userObj e clk body)
                 (new_Date_2 clk))
    else inMemoryUsers s !! e.
Proof.
  unfold register_user. destruct (rb_email body) as [email|] eqn:He.
  - destruct (String.eqb_spec email "") as [->|Hne].
    + rewrite decide_False; [done|]. by intros ([= <-] & ? & _).
    + destruct (db s) eqn:Hdb.
      * rewrite decide_False; [done|]. by intros (_ & _ & ?).
      * simpl. destruct (decide (email = e)) as [->|Hee].
        -- rewrite decide_True by done. by rewrite lookup_insert_eq.
        -- rewrite decide_False by (intros ([= ?] & _); done).
           by rewrite lookup_insert_ne.
  - rewrite decide_False; [done|]. by intros (? & _).
Qed.

(** What a ban does to the record kept under [e]. *)
Lemma admin_ban_lookup (env : value) (clk : Clock) (key email : value)
    (s : State) (e : string) :
  inMemoryUsers (admin_ban env clk key email s).1 !! e
  = if decide (key = Some (ADMIN_KEY env) ∧ email = Some e ∧ db s = false)
    then set_banned <$> inMemoryUsers s !! e
    else inMemoryUsers s !! e.
Proof.
  unfold admin_ban. destruct (decide (key = Some (ADMIN_KEY env))) as [Hk|Hk];
    [|by rewrite decide_False by tauto].
  simpl. destruct (db s) eqn:Hdb.
  { rewrite decide_False; [done|]. by intros (_ & _ & ?). }
  destruct email as [e'|]; [|by rewrite decide_False by (by intros (_ & ? & _))].
  destruct (decide (e' = e)) as [->|Hee].
  - rewrite decide_True by done.
    destruct (inMemoryUsers s !! e) as [u|] eqn:Hu; simpl.
    + by rewrite lookup_insert_eq.
    + by rewrite Hu.
  - rewrite decide_False by (intros (_ & [= ?] & _); done).
    destruct (inMemoryUsers s !! e'); simpl; [|done].
    by rewrite lookup_insert_ne.
Qed.

(** What a turn does to the record kept under [e]. *)
Lemma serve_user_lookup (env : value) (rq : Request) (s : State) (e : string) :
  inMemoryUsers (serve env rq s).1 !! e
  = match rq with
    | core (http_register_user clk body) =>
        inMemoryUsers (register_user clk body s).1 !! e
    | http_admin_ban clk key email =>
        inMemoryUsers (admin_ban env clk key email s).1 !! e
    | _ => inMemoryUsers s !! e
    end.
Proof.
  destruct rq as [ev|email found|found|clk key email|key id]; try done.
  - destruct ev as [| |ws clk raw|ws|clk body|clk body|id userId rv];
      unfold serve; cbn [fst]; unfold step.
    + done.
    + done.
    + case_decide; [|done]. by_frame (ws_on_message_store ws clk raw s).
    + case_decide; [|done].
      by_frame (ws_on_close_frame ws (set_clients (Set_delete ws (clients s)) s)).
    + done.
    + by rewrite post_project_users.
    + by rewrite vote_users.
  - unfold serve. cbn [fst].
    by_frame (admin_delete_project_frame env key id s).
Qed.

(** property X10: without a database, a registration can be read back:
    fetching the registered email returns the record made of the fields of
    the request, with the creation date and the ban flag of the record it
    replaces (the clock reading and no ban when there was none), and
    fetching any other email returns what it returned before. *)
Theorem registered_user_can_be_fetched (s : State) (email : string)
    (clk : Clock) (body : RegisterBody) :
  let s' := (register_user clk body s).1 in
  db s = false → email ≠ "" → rb_email body = Some email →
  (∀ found,
     get_user email found s'
     = ans_user
         {| u_obj := make_userObj email clk body;
            u_createdAt := match inMemoryUsers s !! email with
                           | Some old => u_createdAt old
                           | None => new_Date_2 clk
                           end;
            u_banned := match inMemoryUsers s !! email with
                        | Some old => u_banned old
                        | None => false
                        end |})
  ∧ (∀ other found, other ≠ email →
       get_user other found s' = get_user other found s).
Proof.
  intros s' Hdb Hne He.
  assert (db s' = false) as Hdb'.
  { unfold s', register_user. by repeat case_match. }
  split.
  - intros found. unfold get_user. rewrite Hdb'. unfold s'.
    rewrite register_user_lookup, decide_True by done.
    unfold merge_user. by destruct (inMemoryUsers s !! email).
  - intros other found Hother. unfold get_user. rewrite Hdb', Hdb. unfold s'.
    rewrite register_user_lookup.
    rewrite decide_False; [done|]. intros (Heq & _). congruence.
Qed.

(** property X11: a user record is never removed, its creation date never
    changes, and a ban is never lifted: whatever requests follow, the
    email still has a record, with the same creation date, and banned if
    it was banned. *)
Theorem user_records_are_kept (env : value) (rqs : list Request) (s : State)
    (e : string) (u : User) :
  inMemoryUsers s !! e = Some u →
  ∃ u', inMemoryUsers (serve_all env rqs s) !! e = Some u'
        ∧ u_createdAt u' = u_createdAt u
        ∧ (u_banned u = true → u_banned u' = true).
Proof.
  revert s u. induction rqs as [|rq rqs IH]; intros s u Hu; simpl.
  { by exists u. }
  assert (∃ u1, inMemoryUsers (serve env rq s).1 !! e = Some u1
                ∧ u_createdAt u1 = u_createdAt u
                ∧ (u_banned u = true → u_banned u1 = true))
    as (u1 & Hu1 & Hc1 & Hb1).
  { rewrite serve_user_lookup.
    destruct rq as [ev|email found|found|clk key email|key id];
      try (by exists u).
    - destruct ev as [| |ws clk raw|ws|clk body|clk body|id userId rv];
        try (by exists u).
      rewrite register_user_lookup. case_decide; [|by exists u].
      rewrite Hu. by eexists.
    - rewrite admin_ban_lookup. case_decide; [|by exists u].
      rewrite Hu. by eexists. }
  destruct (IH _ _ Hu1) as (u' & Hu' & Hc' & Hb').
  exists u'. split_and!; [done|congruence|tauto].
Qed.


(** ** The admin routes *)

Lemma notices_to_cons (ws : Conn) (o : Out) (out : list Out) :
  notices_to ws (o :: out)
  = match o with
    | Notify ws' f => if decide (ws' = ws) then [f] else []
    | _ => []
    end ++ notices_to ws out.
Proof. unfold notices_to. simpl. destruct o; try done. by case_decide. Qed.

Lemma notices_to_app (ws : Conn) (out1 out2 : list Out) :
  notices_to ws (out1 ++ out2) = notices_to ws out1 ++ notices_to ws out2.
Proof. apply omap_app. Qed.

Lemma notices_to_sends (ws : Conn) (f : AdminFrame) (l : list Conn) :
  notices_to ws ((λ ws', Notify ws' f) <$> l)
  = replicate (length (filter (λ ws', ws' = ws) l)) f.
Proof.
  induction l as [|x l IH]; [done|].
  rewrite fmap_cons, notices_to_cons, IH, filter_cons.
  by case_decide.
Qed.

Lemma notices_to_notifyAll (ws : Conn) (f : AdminFrame) (s : State) :
  NoDup (clients s) →
  notices_to ws (notifyAll s f) = if decide (ws ∈ clients s) then [f] else [].
Proof.
  intros Hnd. unfold notifyAll.
  rewrite notices_to_sends, filter_eq_NoDup by done. by case_decide.
Qed.

Lemma notices_to_notifyUser (ws : Conn) (f : AdminFrame) (s : State) (u : value) :
  NoDup (registered u s) →
  notices_to ws (notifyUser s u f)
  = if decide (ws ∈ registered u s ∧ ws ∈ clients s) then [f] else [].
Proof.
  unfold registered, notifyUser. intros Hnd.
  destruct (userSockets s !! u) as [sockets|]; cbn [default] in *.
  - rewrite notices_to_sends, filter_eq_NoDup by (by apply NoDup_filter).
    destruct (decide (ws ∈ filter _ sockets)) as [Hin|Hin].
    + apply elem_of_open_sockets in Hin. by rewrite decide_True.
    + rewrite decide_False; [done|]. by rewrite <- elem_of_open_sockets.
  - rewrite decide_False; [done|]. by intros [?%elem_of_nil _].
Qed.

Lemma notices_to_db (ws : Conn) (b : bool) (o : Out) :
  (∀ ws' f, o ≠ Notify ws' f) →
  notices_to ws (if b then [o] else []) = [].
Proof.
  intros Ho. destruct b; [|done]. rewrite notices_to_cons.
  destruct o; try done. by destruct (Ho ws0 f).
Qed.

Lemma answers_app (out1 out2 : list Out) :
  answers (out1 ++ out2) = answers out1 ++ answers out2.
Proof. apply omap_app. Qed.

Lemma answers_sends (f : AdminFrame) (l : list Conn) :
  answers ((λ ws, Notify ws f) <$> l) = [].
Proof. by induction l. Qed.

Lemma answers_notifyUser (s : State) (u : value) (f : AdminFrame) :
  answers (notifyUser s u f) = [].
Proof.
  unfold notifyUser. destruct (userSockets s !! u); [|done].
  apply answers_sends.
Qed.

Lemma answers_db (b : bool) (o : Out) :
  (∀ a, o ≠ Answered a) → answers (if b then [o] else []) = [].
Proof. intros Ho. destruct b; [|done]. destruct o; try done. by destruct (Ho a). Qed.

(** property X12: a ban request whose key is not the admin key is answered
    with a refusal and changes and sends nothing, with or without a
    database.  Without a database, a request with the admin key is
    answered [ok]; the record of the email, if there is one, is flagged as
    banned and no other record changes; one [banned] frame is written to
    every open socket registered under the email and to no other; and the
    hub is left as it was: no socket is closed or unbound and the presence
    roster keeps its entries. *)
Theorem ban_flags_and_notifies (env : value) (clk : Clock) (key email : value)
    (s : State) :
  let r := admin_ban env clk key email s in
  (key ≠ Some (ADMIN_KEY env) → r = (s, [Answered ans_denied]))
  ∧ (key = Some (ADMIN_KEY env) → db s = false → hub_wf s →
     same_hub s r.1
     ∧ answers r.2 = [ans_ok]
     ∧ (∀ ws, notices_to ws r.2
              = if decide (ws ∈ registered email s ∧ ws ∈ clients s)
                then [banned "Ton compte a été suspendu."] else [])
     ∧ (∀ e, inMemoryUsers r.1 !! e
             = if decide (email = Some e)
               then set_banned <$> inMemoryUsers s !! e
               else inMemoryUsers s !! e)).
Proof.
  intros r. split.
  - intros Hk. unfold r, admin_ban. by rewrite decide_False.
  - intros Hk Hdb (_ & _ & Hreg & _).
    destruct (admin_ban_frame env clk key email s) as (Hhub & _).
    fold r in Hhub. split_and!.
    + done.
    + unfold r, admin_ban. rewrite decide_True by done. simpl.
      rewrite !answers_app, answers_notifyUser.
      by rewrite answers_db.
    + intros ws. unfold r, admin_ban. rewrite decide_True by done.
      cbn [snd]. rewrite !notices_to_app, notices_to_db by done.
      set (s1 := if db s then s else _).
      assert (same_hub s s1) as (_ & Hc & _ & Hu & _).
      { pose proof Hhub as Hh. unfold r, admin_ban in Hh.
        by rewrite decide_True in Hh. }
      assert (registered email s1 = registered email s) as Hr1
        by (unfold registered; by rewrite Hu).
      rewrite notices_to_notifyUser by (rewrite Hr1; apply Hreg).
      rewrite Hr1, Hc. simpl. by rewrite app_nil_r.
    + intros e. unfold r. rewrite admin_ban_lookup.
      destruct (decide (email = Some e)) as [->|He].
      * by rewrite decide_True.
      * by rewrite decide_False by tauto.
Qed.


(** ** The project list *)

Lemma unshift_pop_cases (proj : Project) (l : list Project) :
  unshift_pop proj l
  = proj :: (if decide (200 ≤ length l)%nat then take (length l - 1) l else l).
Proof.
  unfold unshift_pop, capacity. cbn [length].
  destruct (decide (200 ≤ length l)%nat) as [Hlen|Hlen].
  - rewrite decide_True by lia.
    replace (S (length l) - 1)%nat with (S (length l - 1)) by lia. done.
  - by rewrite decide_False by lia.
Qed.

Lemma post_project_memory (clk : Clock) (body : ProjectBody) (s : State) :
  db s = false →
  post_project clk body s
  = (set_inMemoryProjects
       (unshift_pop (make_project clk body) (inMemoryProjects s)) s,
     broadcastToAll s (new_project (make_project clk body))
       ++ [Reply (res_project (make_project clk body))]).
Proof. intros Hdb. unfold post_project. by rewrite Hdb. Qed.

(** property X13: without a database, publishing a project puts a record
    with no votes and no views at the head of the list, before the records
    that were there, and drops the last record when the list already held
    200; a lookup by the new record's id finds the new record, also when
    an older record carries the same id; every open socket is written one
    [new_project] frame and the request is answered with the record. *)
Theorem published_project_goes_first (s : State) (clk : Clock)
    (body : ProjectBody) :
  let r := post_project clk body s in
  let proj := make_project clk body in
  db s = false → hub_wf s →
  pj_votes proj = 0 ∧ pj_views proj = 0
  ∧ inMemoryProjects r.1
    = proj :: (if decide (200 ≤ length (inMemoryProjects s))%nat
               then take (length (inMemoryProjects s) - 1) (inMemoryProjects s)
               else inMemoryProjects s)
  ∧ find_project (pj_id proj) r.1 = Some proj
  ∧ vote_count (pj_id proj) r.1 = 0
  ∧ replies r.2 = [res_project proj]
  ∧ ∀ ws, frames_to ws r.2
          = if decide (ws ∈ clients s) then [new_project proj] else [].
Proof.
  intros r proj Hdb (Hcl & _). unfold r.
  rewrite post_project_memory by done. fold proj. cbn [fst snd].
  assert (inMemoryProjects
            (set_inMemoryProjects (unshift_pop proj (inMemoryProjects s)) s)
          = proj :: (if decide (200 ≤ length (inMemoryProjects s))%nat
                     then take (length (inMemoryProjects s) - 1)
                            (inMemoryProjects s)
                     else inMemoryProjects s)) as Hl
    by apply unshift_pop_cases.
  assert (find_project (pj_id proj)
            (set_inMemoryProjects (unshift_pop proj (inMemoryProjects s)) s)
          = Some proj) as Hfind.
  { unfold find_project. rewrite Hl. cbn [list_find].
    by rewrite decide_True. }
  split_and!; try done.
  - unfold vote_count. by rewrite Hfind.
  - by rewrite replies_app, replies_broadcast.
  - intros ws. rewrite frames_to_app, frames_to_broadcast by done.
    by rewrite app_nil_r.
Qed.

(** ** Counters and voters *)

Lemma votes_for_app (id : string) (l1 l2 : list Project) :
  votes_for id (l1 ++ l2) = votes_for id l1 + votes_for id l2.
Proof.
  unfold votes_for. induction l1 as [|p l1 IH]; simpl; [done|].
  case_decide; lia.
Qed.

Lemma votes_for_cons (id : string) (p : Project) (l : list Project) :
  votes_for id (p :: l)
  = (if decide (pj_id p = id) then pj_votes p else 0) + votes_for id l.
Proof. unfold votes_for. simpl. case_decide; lia. Qed.

Lemma votes_for_nonneg (id : string) (l : list Project) :
  Forall (λ p, 0 ≤ pj_votes p) l → 0 ≤ votes_for id l.
Proof.
  induction 1 as [|p l Hp _ IH]; [done|].
  rewrite votes_for_cons. case_decide; lia.
Qed.

Lemma votes_for_take (id : string) (n : nat) (l : list Project) :
  Forall (λ p, 0 ≤ pj_votes p) l → votes_for id (take n l) ≤ votes_for id l.
Proof.
  intros Hl. rewrite <- (take_drop n l) at 2. rewrite votes_for_app.
  pose proof (votes_for_nonneg id (drop n l) (Forall_drop _ n _ Hl)). lia.
Qed.

Lemma votes_for_delete (id : string) (i : nat) (l : list Project) :
  Forall (λ p, 0 ≤ pj_votes p) l → votes_for id (delete i l) ≤ votes_for id l.
Proof.
  intros Hl. destruct (l !! i) as [x|] eqn:Hi.
  - rewrite <- (take_drop_middle l i x Hi) at 2.
    rewrite delete_take_drop, !votes_for_app, votes_for_cons.
    assert (0 ≤ pj_votes x)
      by (eapply (Forall_lookup_1 (λ p, 0 ≤ pj_votes p)); done).
    case_decide; lia.
  - apply lookup_ge_None in Hi.
    by rewrite delete_take_drop, take_ge, drop_ge, app_nil_r by lia.
Qed.

Lemma votes_for_set_votes (id : string) (i : nat) (l : list Project)
    (p : Project) (v : Z) :
  l !! i = Some p →
  votes_for id (<[i := set_votes v p]> l)
  = votes_for id l + (if decide (pj_id p = id) then v - pj_votes p else 0).
Proof.
  intros Hi. rewrite <- (take_drop_middle l i p Hi) at 2.
  rewrite insert_take_drop by (by eapply lookup_lt_Some).
  rewrite !votes_for_app, !votes_for_cons. simpl. case_decide; lia.
Qed.

Lemma size_voters_add (vs : gset string) (uid : string) :
  uid ∉ vs → size (vs ∪ {[uid]}) = S (size vs).
Proof.
  intros Hnin. rewrite size_union by set_solver. rewrite size_singleton. lia.
Qed.

Lemma store_wf_vote (id : string) (userId : value) (rv : option Z) (s : State) :
  store_wf s → store_wf (vote id userId rv s).1.
Proof.
  intros (Hlen & Hpos & Hsum).
  destruct userId as [uid|]; [|done].
  destruct (String.eqb_spec uid "") as [->|Hne].
  { unfold vote. done. }
  destruct (decide (uid ∈ voters id s)) as [Hin|Hnin].
  { by rewrite vote_duplicate. }
  rewrite vote_accepted by done. cbn [fst].
  assert (∀ id', voters id'
            (set_inMemoryProjects
               (if db s then (inMemoryProjects s, or_num (default 0 rv) 1)
                else count_vote id (inMemoryProjects s)).1
               (set_inMemoryVotes
                  (alter (λ vs, vs ∪ {[uid]}) id
                     (ensure id ∅ (inMemoryVotes s))) s))
          = if decide (id = id') then voters id s ∪ {[uid]} else voters id' s)
    as Hvot.
  { intros id'. unfold voters. simpl. case_decide as Hid.
    - subst id'. by rewrite alter_ensure_lookup.
    - by rewrite alter_ensure_lookup_ne. }
  unfold store_wf. setoid_rewrite Hvot. simpl.
  destruct (db s).
  { simpl. split_and!; [done..|]. intros id'. case_decide; [|done]. subst id'.
    rewrite size_voters_add by done. specialize (Hsum id). lia. }
  unfold count_vote.
  destruct (list_find _ (inMemoryProjects s)) as [[i proj]|] eqn:Hfind; simpl.
  - apply list_find_Some in Hfind as (Hi & Hid & _).
    assert (0 ≤ pj_votes proj)
      by (eapply (Forall_lookup_1 (λ p, 0 ≤ pj_votes p)); done).
    rewrite or_num_0. split_and!.
    + by rewrite length_insert.
    + apply Forall_insert; [done|]. simpl. lia.
    + intros id'. rewrite votes_for_set_votes by done. specialize (Hsum id').
      destruct (decide (id = id')) as [<-|Hne'].
      * rewrite decide_True by done. rewrite size_voters_add by done. lia.
      * rewrite decide_False by congruence. lia.
  - split_and!; [done..|]. intros id'. case_decide; [|done]. subst id'.
    rewrite size_voters_add by done. specialize (Hsum id). lia.
Qed.

Lemma store_wf_same (s s' : State) :
  inMemoryProjects s' = inMemoryProjects s →
  inMemoryVotes s' = inMemoryVotes s →
  store_wf s → store_wf s'.
Proof. intros Hp Hv. unfold store_wf, voters. by rewrite Hp, Hv. Qed.

Lemma store_wf_projects (l : list Project) (s : State) :
  (length l ≤ 200)%nat →
  Forall (λ p, 0 ≤ pj_votes p) l →
  (∀ id, votes_for id l ≤ votes_for id (inMemoryProjects s)) →
  store_wf s → store_wf (set_inMemoryProjects l s).
Proof.
  intros Hlen Hpos Hle (_ & _ & Hsum). split_and!; [done..|].
  intros id. specialize (Hle id). specialize (Hsum id).
  change (voters id (set_inMemoryProjects l s)) with (voters id s).
  simpl. lia.
Qed.

Lemma store_wf_post_project (clk : Clock) (body : ProjectBody) (s : State) :
  store_wf s → store_wf (post_project clk body s).1.
Proof.
  intros Hwf. unfold post_project. cbn [fst]. destruct (db s); [done|].
  destruct Hwf as (Hlen & Hpos & Hsum).
  apply store_wf_projects; [| | |done].
  - rewrite unshift_pop_cases. cbn [length]. case_decide.
    + rewrite length_take. lia.
    + lia.
  - rewrite unshift_pop_cases. apply Forall_cons. split; [done|].
    case_decide; [by apply Forall_take|done].
  - intros id. rewrite unshift_pop_cases, votes_for_cons. cbn [pj_votes].
    set (rest := if decide (200 ≤ length (inMemoryProjects s))%nat
                 then take (length (inMemoryProjects s) - 1) (inMemoryProjects s)
                 else inMemoryProjects s).
    assert (votes_for id rest ≤ votes_for id (inMemoryProjects s))
      by (unfold rest; case_decide; [by apply votes_for_take|done]).
    destruct (decide (pj_id _ = id)); lia.
Qed.

Lemma store_wf_delete (env : value) (key : value) (id : string) (s : State) :
  store_wf s → store_wf (admin_delete_project env key id s).1.
Proof.
  intros Hwf. unfold admin_delete_project. case_decide; [|done]. cbn [fst].
  destruct (db s); [done|].
  destruct (list_find _ (inMemoryProjects s)) as [[idx p]|]; [|done].
  destruct Hwf as (Hlen & Hpos & Hsum).
  apply store_wf_projects; [| | |done].
  - pose proof (sublist_length _ _ (sublist_delete (inMemoryProjects s) idx)).
    lia.
  - by apply Forall_delete.
  - intros id'. by apply votes_for_delete.
Qed.

Lemma store_wf_serve (env : value) (rq : Request) (s : State) :
  store_wf s → store_wf (serve env rq s).1.
Proof.
  intros Hwf. destruct rq as [ev|email found|found|clk key email|key id];
    unfold serve; cbn [fst].
  - destruct ev as [| |ws clk raw|ws|clk body|clk body|id userId rv];
      unfold step.
    + done.
    + done.
    + case_decide; [|done].
      destruct (ws_on_message_store ws clk raw s) as (_ & _ & _ & _ & Hp & Hv).
      by eapply store_wf_same.
    + case_decide; [|done].
      destruct (ws_on_close_frame ws (set_clients (Set_delete ws (clients s)) s))
        as ((_ & _ & _ & _ & Hp & Hv) & _).
      by eapply store_wf_same.
    + eapply store_wf_same; [| |done].
      * apply register_user_projects.
      * apply register_user_votes.
    + by apply store_wf_post_project.
    + by apply store_wf_vote.
  - done.
  - done.
  - destruct (admin_ban_frame env clk key email s) as (_ & _ & Hp & Hv).
    by eapply store_wf_same.
  - by apply store_wf_delete.
Qed.

Lemma store_wf_reachable (env : value) (s : State) :
  reachable_all env s → store_wf s.
Proof.
  revert s. apply reachable_all_ind.
  - split_and!; [simpl; lia|constructor|].
    intros id. unfold votes_for. simpl. lia.
  - intros rq s _. apply store_wf_serve.
Qed.

(** property X14: whatever requests the server has handled, the in-memory
    project list holds at most 200 records. *)
Theorem project_list_is_bounded (env : value) (s : State) :
  reachable_all env s → (length (inMemoryProjects s) ≤ 200)%nat.
Proof. intros Hreach. by apply (store_wf_reachable env). Qed.

(** property X15: whatever requests the server has handled, no vote
    counter is negative, and for every project id the counters of the
    in-memory records that carry it sum to at most the number of distinct
    voters recorded for that id: no voter is ever counted twice. *)
Theorem votes_never_exceed_voters (env : value) (s : State) (id : string) :
  reachable_all env s →
  Forall (λ p, 0 ≤ pj_votes p) (inMemoryProjects s)
  ∧ votes_for id (inMemoryProjects s) ≤ Z.of_nat (size (voters id s))
  ∧ vote_count id s ≤ Z.of_nat (size (voters id s)).
Proof.
  intros (_ & Hpos & Hsum)%(store_wf_reachable env).
  split_and!; [done..|].
  specialize (Hsum id). unfold vote_count, find_project.
  destruct (list_find _ (inMemoryProjects s)) as [[i p]|] eqn:Hfind; simpl.
  - apply list_find_Some in Hfind as (Hi & Hid & _).
    rewrite <- (take_drop_middle _ i p Hi) in Hsum, Hpos.
    rewrite votes_for_app, votes_for_cons, decide_True in Hsum by done.
    apply Forall_app in Hpos as [Hpos1 Hpos2].
    apply Forall_cons in Hpos2 as [_ Hpos2].
    pose proof (votes_for_nonneg id _ Hpos1).
    pose proof (votes_for_nonneg id _ Hpos2). lia.
  - lia.
Qed.


(** ** Listing the projects *)

Lemma insert_by_votes_Permutation (p : Project) (l : list Project) :
  insert_by_votes p l ≡ₚ p :: l.
Proof.
  induction l as [|q l IH]; simpl; [done|].
  case_decide; [|done]. rewrite IH. apply Permutation_swap.
Qed.

Lemma sort_by_votes_Permutation (l : list Project) : sort_by_votes l ≡ₚ l.
Proof.
  induction l as [|p l IH]; simpl; [done|].
  by rewrite insert_by_votes_Permutation, IH.
Qed.

Lemma insert_by_votes_Sorted (p : Project) (l : list Project) :
  StronglySorted (λ a b, pj_votes b ≤ pj_votes a) l →
  StronglySorted (λ a b, pj_votes b ≤ pj_votes a) (insert_by_votes p l).
Proof.
  induction 1 as [|q l Hl IH Hq]; simpl.
  - repeat constructor.
  - case_decide as Hlt.
    + constructor; [done|].
      rewrite insert_by_votes_Permutation. constructor; [lia|done].
    + constructor; [by constructor|].
      constructor; [lia|]. eapply Forall_impl; [done|]. simpl. lia.
Qed.

Lemma sort_by_votes_Sorted (l : list Project) :
  StronglySorted (λ a b, pj_votes b ≤ pj_votes a) (sort_by_votes l).
Proof.
  induction l as [|p l IH]; simpl; [constructor|].
  by apply insert_by_votes_Sorted.
Qed.

(** Among the records with count [v], insertion keeps the new one first. *)
Lemma insert_by_votes_filter (v : Z) (p : Project) (l : list Project) :
  StronglySorted (λ a b, pj_votes b ≤ pj_votes a) l →
  filter (λ q, pj_votes q = v) (insert_by_votes p l)
  = filter (λ q, pj_votes q = v) (p :: l).
Proof.
  induction 1 as [|q l Hl IH Hq]; simpl; [done|].
  case_decide as Hlt; [|done].
  rewrite !filter_cons, IH, !filter_cons.
  destruct (decide (pj_votes q = v)) as [Hqv|Hqv]; [|done].
  destruct (decide (pj_votes p = v)); [lia|done].
Qed.

Lemma sort_by_votes_filter (v : Z) (l : list Project) :
  filter (λ q, pj_votes q = v) (sort_by_votes l)
  = filter (λ q, pj_votes q = v) l.
Proof.
  induction l as [|p l IH]; simpl; [done|].
  rewrite insert_by_votes_filter by apply sort_by_votes_Sorted.
  by rewrite !filter_cons, IH.
Qed.

(** property X16: without a database, the project listing returns the
    records of the in-memory list, each exactly once, ordered by
    decreasing vote count, records with equal counts in the order of the
    list (most recently published first); the list itself is not
    reordered. *)
Theorem projects_are_listed_by_votes (s : State) (found : list Project) :
  db s = false →
  ∃ listing,
    get_projects found s = ans_projects listing
    ∧ listing ≡ₚ inMemoryProjects s
    ∧ StronglySorted (λ a b, pj_votes b ≤ pj_votes a) listing
    ∧ ∀ v, filter (λ p, pj_votes p = v) listing
           = filter (λ p, pj_votes p = v) (inMemoryProjects s).
Proof.
  intros Hdb. exists (sort_by_votes (inMemoryProjects s)). split_and!.
  - unfold get_projects. by rewrite Hdb.
  - apply sort_by_votes_Permutation.
  - apply sort_by_votes_Sorted.
  - intros v. apply sort_by_votes_filter.
Qed.

(** ** Deleting a project *)

Lemma answers_notifyAll (s : State) (f : AdminFrame) :
  answers (notifyAll s f) = [].
Proof. apply answers_sends. Qed.

(** property X17: a deletion request whose key is not the admin key is
    refused and changes nothing.  With the key, and without a database,
    the first record carrying the id is removed and the others keep their
    order; every open socket is written [project_deleted], whether or not
    a record was found; and the voter set of the id is kept, so that a
    user who voted for the deleted project is still refused as
    [already_voted] when a project is published again under that id. *)
Theorem deleted_project_keeps_its_voters (env : value) (key : value)
    (id uid : string) (s : State) :
  let r := admin_delete_project env key id s in
  (key ≠ Some (ADMIN_KEY env) → r = (s, [Answered ans_denied]))
  ∧ (key = Some (ADMIN_KEY env) → db s = false → hub_wf s →
     inMemoryProjects r.1
       = match list_find (λ p, pj_id p = id) (inMemoryProjects s) with
         | Some (idx, _) =>
             take idx (inMemoryProjects s) ++ drop (S idx) (inMemoryProjects s)
         | None => inMemoryProjects s
         end
     ∧ answers r.2 = [ans_ok]
     ∧ (∀ ws, notices_to ws r.2
              = if decide (ws ∈ clients s) then [project_deleted id] else [])
     ∧ voters id r.1 = voters id s
     ∧ (uid ≠ "" → uid ∈ voters id s →
        ∀ clk body rv,
          pb_id body = Some id → id ≠ "" →
          let s2 := (post_project clk body r.1).1 in
          find_project id s2 = Some (make_project clk body)
          ∧ vote id (Some uid) rv s2 = (s2, [Reply res_already_voted]))).
Proof.
  intros r. split.
  - intros Hk. unfold r, admin_delete_project. by rewrite decide_False.
  - intros Hk Hdb (Hcl & _).
    destruct (admin_delete_project_frame env key id s)
      as ((_ & Hc & _) & Hdb' & _ & Hv).
    fold r in Hc, Hdb', Hv.
    assert (voters id r.1 = voters id s) as Hvot
      by (unfold voters; by rewrite Hv).
    split_and!.
    + unfold r, admin_delete_project. rewrite decide_True, Hdb by done.
      cbn [fst]. destruct (list_find _ _) as [[idx p]|]; [|done].
      apply delete_take_drop.
    + unfold r, admin_delete_project. rewrite decide_True, Hdb by done.
      cbn [snd]. by rewrite !answers_app, answers_notifyAll.
    + intros ws. unfold r, admin_delete_project.
      rewrite decide_True, Hdb by done. cbn [snd app].
      rewrite notices_to_app.
      set (s1 := match list_find _ _ with Some _ => _ | None => _ end).
      assert (clients s1 = clients s) as Hc1
        by (unfold s1; by destruct (list_find _ _) as [[??]|]).
      rewrite notices_to_notifyAll by (by rewrite Hc1).
      rewrite Hc1. by rewrite app_nil_r.
    + done.
    + intros Hne Hin clk body rv Hid Hid0 s2.
      assert (db r.1 = false) as Hdb1 by congruence.
      assert (s2 = set_inMemoryProjects
                     (unshift_pop (make_project clk body) (inMemoryProjects r.1))
                     r.1) as Hs2
        by (unfold s2; by rewrite post_project_memory).
      assert (pj_id (make_project clk body) = id) as Hpid.
      { simpl. rewrite Hid. by apply or_str_Some. }
      split.
      * unfold find_project. rewrite Hs2. simpl.
        rewrite unshift_pop_cases. cbn [list_find].
        by rewrite decide_True.
      * apply vote_duplicate; [done|].
        rewrite Hs2. change (voters id (set_inMemoryProjects _ r.1))
          with (voters id r.1). by rewrite Hvot.
Qed.

(** ** Groups and their messages *)

Lemma board_serve_all_app (env : value) (rqs1 rqs2 : list (State * BoardRequest))
    (b : Board) :
  board_serve_all env (rqs1 ++ rqs2) b
  = board_serve_all env rqs2 (board_serve_all env rqs1 b).
Proof.
  revert b. induction rqs1 as [|[s rq] rqs1 IH]; intros b; [done|].
  simpl. apply IH.
Qed.

Lemma board_reachable_ind (env : value) (P : Board → Prop) :
  P board_init →
  (∀ s rq b, board_reachable env b → P b → P (board_serve env s rq b).1) →
  ∀ b, board_reachable env b → P b.
Proof.
  intros Hinit Hstep b [rqs <-].
  induction rqs as [|[s rq] rqs IH] using rev_ind; [done|].
  rewrite board_serve_all_app. simpl. apply Hstep; [by exists rqs|done].
Qed.

Lemma make_group_message_lookup (id : string) (clk : Clock) (body : Obj) :
  make_group_message id clk body !! "groupId" = Some (jstr id)
  ∧ make_group_message id clk body !! "timestamp" = Some (jnum (new_Date clk))
  ∧ ∀ k, k ≠ "groupId" → k ≠ "timestamp" →
         make_group_message id clk body !! k = body !! k.
Proof.
  unfold make_group_message. split_and!.
  - rewrite lookup_insert_ne by done. by rewrite lookup_insert_eq.
  - by rewrite lookup_insert_eq.
  - intros k Hg Ht. by rewrite !lookup_insert_ne by done.
Qed.

(** property X18: without a database, a message posted to a group is
    stored last in that group's list and read back by the group's message
    route; it carries the id of the route as [groupId], whatever the body
    said, and the clock reading as [timestamp], and keeps the other
    properties of the body; no other group's list changes; every open
    socket is written one [group_message] frame.  The group need not
    exist. *)
Theorem group_message_is_filed_under_its_route (id : string) (clk : Clock)
    (oid : string) (body : Obj) (found : list Obj) (s : State) (b : Board) :
  let r := post_group_message id clk oid body s b in
  let msg := make_group_message id clk body in
  db s = false → NoDup (clients s) →
  msg !! "groupId" = Some (jstr id)
  ∧ msg !! "timestamp" = Some (jnum (new_Date clk))
  ∧ (∀ k, k ≠ "groupId" → k ≠ "timestamp" → msg !! k = body !! k)
  ∧ (∀ old, get_group_messages id found s b = ans_list old →
            get_group_messages id found s r.1 = ans_list (old ++ [msg]))
  ∧ (∀ id', id' ≠ id →
            get_group_messages id' found s r.1
            = get_group_messages id' found s b)
  ∧ inMemoryGroups r.1 = inMemoryGroups b
  ∧ inMemoryReports r.1 = inMemoryReports b
  ∧ inMemoryAdminDMs r.1 = inMemoryAdminDMs b
  ∧ answers r.2 = [ans_ok]
  ∧ ∀ ws, notices_to ws r.2
          = if decide (ws ∈ clients s) then [group_message id msg] else [].
Proof.
  intros r msg Hdb Hnd.
  destruct (make_group_message_lookup id clk body) as (Hg & Ht & Hk).
  subst r. unfold post_group_message. fold msg. rewrite Hdb.
  cbn [fst snd set_inMemoryGroupMessages inMemoryGroups inMemoryReports
         inMemoryAdminDMs].
  split_and!; try done.
  - unfold get_group_messages. rewrite Hdb.
    cbn [inMemoryGroupMessages set_inMemoryGroupMessages]. intros old [= <-].
    by rewrite alter_ensure_lookup.
  - intros id' Hne. unfold get_group_messages. rewrite Hdb.
    cbn [inMemoryGroupMessages set_inMemoryGroupMessages]. by rewrite alter_ensure_lookup_ne.
  - by rewrite answers_app, answers_notifyAll.
  - intros ws. rewrite notices_to_app, notices_to_notifyAll by done.
    by rewrite app_nil_r.
Qed.

Lemma filed_under_make (id : string) (clk : Clock) (body : Obj) :
  filed_under id (make_group_message id clk body).
Proof.
  destruct (make_group_message_lookup id clk body) as (Hg & Ht & _).
  split; [done|by eexists].
Qed.

(** property X19: whatever requests these routes have handled, a group's
    message list is never empty once it exists, and every message in it
    carries the id of that group as [groupId] and has a [timestamp]: a
    body cannot file a message under another group. *)
Theorem group_messages_stay_with_their_group (env : value) (b : Board)
    (id : string) (l : list Obj) :
  board_reachable env b →
  inMemoryGroupMessages b !! id = Some l →
  l ≠ [] ∧ Forall (filed_under id) l.
Proof.
  intros Hreach. revert id l. pattern b. revert b Hreach.
  apply board_reachable_ind; [intros id l; simpl; by rewrite lookup_empty|].
  intros s rq b _ IH id l.
  destruct rq as [found|clk oid body|id' found|id' clk oid body
                 |id' settings requesterId|clk body|clk body|key found
                 |key found]; simpl; try apply IH.
  - unfold post_group. destruct (db s); simpl; apply IH.
  - unfold post_group_message. destruct (db s); simpl; [apply IH|].
    destruct (decide (id' = id)) as [->|Hne].
    + rewrite alter_ensure_lookup. intros [= <-]. split.
      * by destruct (default [] (inMemoryGroupMessages b !! id)).
      * apply Forall_app. split; [|repeat constructor; apply filed_under_make].
        destruct (inMemoryGroupMessages b !! id) as [old|] eqn:Hold;
          [by apply (IH id old)|constructor].
    + rewrite alter_ensure_lookup_ne by done. apply IH.
  - unfold put_group_settings. destruct (db s); simpl; [apply IH|].
    destruct (list_find _ _) as [[i g]|]; simpl; apply IH.
  - unfold post_report. destruct (db s); simpl; apply IH.
  - unfold post_admin_dm. destruct (db s); simpl; apply IH.
Qed.

Lemma Object_assign_lookup (g : Obj) (settings : option Obj) (k : string) :
  Object_assign g settings !! k
  = match settings ≫= (λ o, o !! k) with
    | Some v => Some v
    | None => g !! k
    end.
Proof.
  unfold Object_assign. rewrite lookup_union.
  destruct settings as [o|]; simpl.
  - destruct (o !! k), (g !! k); done.
  - rewrite lookup_empty. by destruct (g !! k).
Qed.

(** property X20: without a database, a settings request is answered [ok]
    whether or not a group matched.  It changes at most the first group of
    the list whose [id] is the id of the route and whose [creatorId] is the
    [requesterId] of the body: that group gets the properties of
    [settings], which override its own, and keeps its other properties;
    every group with another id or another creator, and every later group
    of the same id and creator, is left as it was. *)
Theorem group_settings_need_the_creator (id : string) (settings : option Obj)
    (requesterId : option Json) (s : State) (b : Board) :
  let r := put_group_settings id settings requesterId s b in
  db s = false →
  r.2 = [Answered ans_ok]
  ∧ length (inMemoryGroups r.1) = length (inMemoryGroups b)
  ∧ (∀ i g, inMemoryGroups b !! i = Some g → ¬ owned_by id requesterId g →
            inMemoryGroups r.1 !! i = Some g)
  ∧ (∀ i g, inMemoryGroups b !! i = Some g → owned_by id requesterId g →
            (∀ j g', (j < i)%nat → inMemoryGroups b !! j = Some g' →
                     ¬ owned_by id requesterId g') →
            inMemoryGroups r.1 !! i = Some (Object_assign g settings))
  ∧ (∀ i j g g', (j < i)%nat →
                 inMemoryGroups b !! j = Some g' → owned_by id requesterId g' →
                 inMemoryGroups b !! i = Some g →
                 inMemoryGroups r.1 !! i = Some g)
  ∧ (∀ g k, Object_assign g settings !! k
            = match settings ≫= (λ o, o !! k) with
              | Some v => Some v
              | None => g !! k
              end)
  ∧ inMemoryGroupMessages r.1 = inMemoryGroupMessages b
  ∧ inMemoryReports r.1 = inMemoryReports b
  ∧ inMemoryAdminDMs r.1 = inMemoryAdminDMs b.
Proof.
  intros r Hdb. subst r. unfold put_group_settings. rewrite Hdb.
  cbn [fst snd].
  destruct (list_find (owned_by id requesterId) (inMemoryGroups b))
    as [[i0 g0]|] eqn:Hfind.
  - apply list_find_Some in Hfind as (Hi0 & Hown0 & Hfirst).
    cbn [set_inMemoryGroups inMemoryGroups inMemoryGroupMessages
           inMemoryReports inMemoryAdminDMs].
    split_and!; try done.
    + by rewrite length_insert.
    + intros i g Hi Hnot. rewrite list_lookup_insert_ne; [done|].
      intros <-. rewrite Hi0 in Hi. by injection Hi as ->.
    + intros i g Hi Hown Hbefore.
      assert (i = i0) as ->.
      { destruct (Nat.lt_trichotomy i i0) as [Hlt|[Heq|Hgt]]; [|done|].
        - by destruct (Hfirst i g Hi Hlt).
        - by destruct (Hbefore i0 g0 Hgt Hi0). }
      rewrite Hi0 in Hi. injection Hi as ->.
      apply list_lookup_insert_eq. by eapply lookup_lt_Some.
    + intros i j g g' Hlt Hj Hown Hi.
      rewrite list_lookup_insert_ne; [done|].
      intros <-. by destruct (Hfirst j g' Hj Hlt).
    + intros g k. apply Object_assign_lookup.
  - apply list_find_None in Hfind.
    split_and!; try done.
    + intros i g Hi Hown. by destruct (Forall_lookup_1 _ _ _ _ Hfind Hi).
    + intros g k. apply Object_assign_lookup.
Qed.

Lemma make_group_lookup (clk : Clock) (body : Obj) :
  make_group clk body !! "membersCount" = Some (jnum 1)
  ∧ make_group clk body !! "createdAt" = Some (jnum (new_Date clk))
  ∧ make_group clk body !! "id"
    = Some (js_or (body !! "id") (jstr ("grp_" +:+ pretty (Date_now clk))))
  ∧ ∀ k, k ∉ ["id"; "createdAt"; "membersCount"] →
         make_group clk body !! k = body !! k.
Proof.
  unfold make_group. split_and!.
  - by rewrite lookup_insert_eq.
  - rewrite lookup_insert_ne by done. by rewrite lookup_insert_eq.
  - rewrite !lookup_insert_ne by done. by rewrite lookup_insert_eq.
  - intros k Hk. rewrite !lookup_insert_ne; [done|..];
      intros <-; apply Hk; repeat constructor.
Qed.

(** property X21: without a database, a group that is created goes to the
    head of the list returned by the groups route, before the groups that
    were there, and the list is not cut.  The record has the properties of
    the body, except that [membersCount] is 1 and [createdAt] the clock
    reading whatever the body said, and that [id] is generated from the
    clock when the body gives none; every open socket is written one
    [new_group] frame.  When the body names an id, a settings request for
    that id by the body's [creatorId] then changes the new group, also when
    an older group has the same id and creator. *)
Theorem created_group_is_listed_first (clk : Clock) (oid : string) (body : Obj)
    (found : list Obj) (s : State) (b : Board) :
  let r := post_group clk oid body s b in
  let group := make_group clk body in
  db s = false → NoDup (clients s) →
  group !! "membersCount" = Some (jnum 1)
  ∧ group !! "createdAt" = Some (jnum (new_Date clk))
  ∧ group !! "id"
    = Some (js_or (body !! "id") (jstr ("grp_" +:+ pretty (Date_now clk))))
  ∧ (∀ k, k ∉ ["id"; "createdAt"; "membersCount"] → group !! k = body !! k)
  ∧ get_groups found s r.1 = ans_list (group :: inMemoryGroups b)
  ∧ answers r.2 = [ans_group group]
  ∧ (∀ ws, notices_to ws r.2
           = if decide (ws ∈ clients s) then [new_group group] else [])
  ∧ (∀ id settings,
       body !! "id" = Some (jstr id) → id ≠ "" →
       inMemoryGroups
         (put_group_settings id settings (body !! "creatorId") s r.1).1
       = Object_assign group settings :: inMemoryGroups b).
Proof.
  intros r group Hdb Hnd.
  destruct (make_group_lookup clk body) as (Hm & Hc & Hid & Hk).
  subst r. unfold post_group. fold group. rewrite Hdb. cbn [fst snd].
  split_and!; try done.
  - unfold get_groups. by rewrite Hdb.
  - by rewrite answers_app, answers_notifyAll.
  - intros ws. rewrite notices_to_app, notices_to_notifyAll by done.
    by rewrite app_nil_r.
  - intros id settings Hbody Hne.
    unfold put_group_settings. rewrite Hdb.
    cbn [fst set_inMemoryGroups inMemoryGroups].
    assert (owned_by id (body !! "creatorId") group) as Hown.
    { split.
      - fold group in Hid. rewrite Hid, Hbody. simpl.
        by apply String.eqb_neq in Hne as ->.
      - apply Hk. apply (bool_decide_unpack _). by vm_compute. }
    cbn [list_find]. by rewrite decide_True by done.
Qed.

(** ** Reports and messages to the admin *)

Lemma make_report_lookup (clk : Clock) (body : Obj) :
  make_report clk body !! "status" = Some (jstr "pending")
  ∧ make_report clk body !! "id"
    = Some (jstr ("rep_" +:+ pretty (Date_now clk)))
  ∧ make_report clk body !! "createdAt" = Some (jnum (new_Date clk))
  ∧ ∀ k, k ∉ ["createdAt"; "id"; "status"] →
         make_report clk body !! k = body !! k.
Proof.
  unfold make_report. split_and!.
  - by rewrite lookup_insert_eq.
  - rewrite lookup_insert_ne by done. by rewrite lookup_insert_eq.
  - rewrite !lookup_insert_ne by done. by rewrite lookup_insert_eq.
  - intros k Hk. rewrite !lookup_insert_ne; [done|..];
      intros <-; apply Hk; repeat constructor.
Qed.

Lemma make_admin_dm_lookup (clk : Clock) (body : Obj) :
  make_admin_dm clk body !! "read" = Some (jbool false)
  ∧ make_admin_dm clk body !! "id"
    = Some (jstr ("adm_" +:+ pretty (Date_now clk)))
  ∧ make_admin_dm clk body !! "createdAt" = Some (jnum (new_Date clk))
  ∧ ∀ k, k ∉ ["createdAt"; "id"; "read"] →
         make_admin_dm clk body !! k = body !! k.
Proof.
  unfold make_admin_dm. split_and!.
  - by rewrite lookup_insert_eq.
  - rewrite lookup_insert_ne by done. by rewrite lookup_insert_eq.
  - rewrite !lookup_insert_ne by done. by rewrite lookup_insert_eq.
  - intros k Hk. rewrite !lookup_insert_ne; [done|..];
      intros <-; apply Hk; repeat constructor.
Qed.

(** property X22: without a database, a report is stored after the
    reports already held, with status [pending], an id made from the
    clock and the clock reading as creation date, whatever the body said
    about these three, and with the other properties of the body; the
    reports route returns the list, the new report last, to a request with
    the admin key, and refuses any other key.  The same holds for a
    message to the admin, which is stored as not read. *)
Theorem reports_and_admin_dms_reach_the_admin (env : value) (clk : Clock)
    (body : Obj) (key : value) (found : list Obj) (s : State) (b : Board) :
  let r := post_report clk body s b in
  let report := make_report clk body in
  let r' := post_admin_dm clk body s b in
  let dm := make_admin_dm clk body in
  db s = false →
  (r.2 = [Answered ans_ok]
   ∧ report !! "status" = Some (jstr "pending")
   ∧ report !! "id" = Some (jstr ("rep_" +:+ pretty (Date_now clk)))
   ∧ report !! "createdAt" = Some (jnum (new_Date clk))
   ∧ (∀ k, k ∉ ["createdAt"; "id"; "status"] → report !! k = body !! k)
   ∧ admin_reports env key found s r.1
     = (if decide (key = Some (ADMIN_KEY env))
        then ans_list (inMemoryReports b ++ [report]) else ans_denied)
   ∧ inMemoryAdminDMs r.1 = inMemoryAdminDMs b
   ∧ inMemoryGroups r.1 = inMemoryGroups b
   ∧ inMemoryGroupMessages r.1 = inMemoryGroupMessages b)
  ∧ (r'.2 = [Answered ans_ok]
     ∧ dm !! "read" = Some (jbool false)
     ∧ dm !! "id" = Some (jstr ("adm_" +:+ pretty (Date_now clk)))
     ∧ dm !! "createdAt" = Some (jnum (new_Date clk))
     ∧ (∀ k, k ∉ ["createdAt"; "id"; "read"] → dm !! k = body !! k)
     ∧ admin_dms env key found s r'.1
       = (if decide (key = Some (ADMIN_KEY env))
          then ans_list (inMemoryAdminDMs b ++ [dm]) else ans_denied)
     ∧ inMemoryReports r'.1 = inMemoryReports b
     ∧ inMemoryGroups r'.1 = inMemoryGroups b
     ∧ inMemoryGroupMessages r'.1 = inMemoryGroupMessages b).
Proof.
  intros r report r' dm Hdb.
  destruct (make_report_lookup clk body) as (Hs & Hi & Hc & Hk).
  destruct (make_admin_dm_lookup clk body) as (Hs' & Hi' & Hc' & Hk').
  subst r r'. unfold post_report, post_admin_dm, admin_reports, admin_dms.
  rewrite Hdb. cbn [fst snd].
  split; split_and!; done.
Qed.

(** property X23: whatever requests these routes have handled, every
    report held in memory is still [pending] and every message to the
    admin is still not read: no route resolves a report or marks a message
    as read. *)
Theorem reports_are_never_resolved (env : value) (b : Board) :
  board_reachable env b →
  Forall (λ r, r !! "status" = Some (jstr "pending")) (inMemoryReports b)
  ∧ Forall (λ d, d !! "read" = Some (jbool false)) (inMemoryAdminDMs b).
Proof.
  revert b. apply board_reachable_ind; [by split; constructor|].
  intros s rq b _ [IHr IHd].
  destruct rq as [found|clk oid body|id' found|id' clk oid body
                 |id' settings requesterId|clk body|clk body|key found
                 |key found]; simpl; try done.
  - unfold post_group. by destruct (db s).
  - unfold post_group_message. by destruct (db s).
  - unfold put_group_settings. destruct (db s); simpl; [done|].
    by destruct (list_find _ _) as [[i g]|].
  - unfold post_report. destruct (db s); simpl; [done|].
    split; [|done]. apply Forall_app. split; [done|].
    repeat constructor. apply make_report_lookup.
  - unfold post_admin_dm. destruct (db s); simpl; [done|].
    split; [done|]. apply Forall_app. split; [done|].
    repeat constructor. apply make_admin_dm_lookup.
Qed.

(** ** Frames that end the process *)


(** A [message] frame of a bound socket is fatal when its text has no
    [slice]. *)
Lemma ws_receive_message_throws (ws : Conn) (clk : Clock) (data : Data)
    (text : option Json) (s : State) (u : string) :
  bound ws s = Some u → d_type data = Some "message" →
  has_slice text = false →
  ws_receive ws clk (json_object data text) s = None.
Proof.
  intros Hb Hty Hslice. unfold ws_receive.
  by rewrite decide_True, Hb, Hslice.
Qed.




(** claim C5, where the code departs from it: a [message] frame whose
    [text] is the number 123, sent on an open connection that has joined as
    [a], is neither stored nor broadcast: [(data.text || '').slice] is not
    a function, the [TypeError] is caught by nobody and the process exits,
    with the two clients it was serving.  The same frame with the string
    [hello] as text is stored last in the public buffer and written to
    both open connections; so the handler does for a string what the claim
    says and misses the texts that are not strings. *)
Theorem message_with_a_number_as_text_ends_the_process :
  let s := exec two_users init in
  let data := frame "message" in
  let msg := make_msg "a" (clock_at 3) (with_text (Some "hello") data) in
  clients s = [0%nat; 1%nat] ∧ bound 0%nat s = Some "a"
  ∧ ws_receive 0%nat (clock_at 3) (json_object data (Some (jnum 123))) s = None
  ∧ ∃ r, ws_receive 0%nat (clock_at 3)
           (json_object data (Some (jstr "hello"))) s = Some r
         ∧ m_text msg = "hello"
         ∧ publicMessages r.1 = publicMessages s ++ [msg]
         ∧ frames_to 0%nat r.2 = [message msg]
         ∧ frames_to 1%nat r.2 = [message msg].
Proof.
  split_and!.
  - by vm_compute.
  - by vm_compute.
  - by vm_compute.
  - eexists. split; [by vm_compute|]. split_and!; by vm_compute.
Qed.

(** ** Threads are created by direct messages only *)




(** * The properties on sample runs *)

(** Project [p1] exists and has no vote: [u1] votes, the count goes from 0
    to 1. *)
Lemma vote_counts_once_on_known_project_witness :
  let s := exec one_project init in
  let r := vote "p1" (Some "u1") None s in
  vote_count "p1" s = 0 ∧ vote_count "p1" r.1 = 1
  ∧ replies r.2 = [res_votes 1] ∧ voters "p1" r.1 = voters "p1" s ∪ {[ "u1" ]}.
Proof.
  intros s r.
  destruct (vote_counts_once_on_known_project s "p1" "u1" None)
    as (Hvoters & _ & Hcount).
  - reflexivity.
  - discriminate.
  - apply (bool_decide_unpack _). by vm_compute.
  - vm_compute in Hcount. destruct Hcount as (_ & _ & Hreply & _).
    split_and!; [by vm_compute | by vm_compute | exact Hreply | exact Hvoters].
Defined.

(** [u1] has voted on [p1]; three more attempts are all refused. *)
Lemma duplicate_vote_is_rejected_witness :
  let s := exec [http_vote "p1" (Some "u1") None] init in
  run (replicate 3 (http_vote "p1" (Some "u1") None)) s
  = (s, replicate 3 (Reply res_already_voted)).
Proof.
  intros s.
  apply (duplicate_vote_is_rejected s "p1" "u1" None).
  - by exists [http_vote "p1" (Some "u1") None].
  - apply (bool_decide_unpack _). by vm_compute.
Defined.

(** Socket 1 joins after [a] has sent 500 messages: socket 1, and not
    socket 0, is replayed the messages 451 to 500, in that order. *)
Lemma join_replays_last_fifty_witness :
  let s := exec long_chat init in
  let out := (step (ws_message 1%nat (clock_at 501)
                      (Some (join_frame "b" "Bob"))) s).2 in
  length (sent long_chat init) = 500%nat
  ∧ filter (λ f, is_history f) (frames_to 1%nat out)
    = [history (drop 450 (sent long_chat init))]
  ∧ (m_text <$> drop 450 (sent long_chat init)) = pretty <$> seq 451 50
  ∧ filter (λ f, is_history f) (frames_to 0%nat out) = [].
Proof.
  intros s out.
  assert (length (sent long_chat init) = 500%nat) as Hlen by (by vm_compute).
  destruct (join_replays_last_fifty long_chat 1%nat (clock_at 501)
              (join_frame "b" "Bob"))
    as (Hhistory & Hothers & _ & _ & Hlatest).
  - apply (bool_decide_unpack _). by vm_compute.
  - reflexivity.
  - split_and!.
    + exact Hlen.
    + rewrite <- (Hlatest Hlen). exact Hhistory.
    + apply (bool_decide_unpack _). by vm_compute.
    + apply (Hothers 0%nat). discriminate.
Defined.

(** [a] is joined on socket 0 and says hello: both open sockets are written
    the message once. *)
Lemma message_is_stored_and_broadcast_witness :
  let s := exec two_users init in
  let msg := make_msg "a" (clock_at 3) (message_frame "Alice" "hello") in
  let r := step (ws_message 0%nat (clock_at 3)
                   (Some (message_frame "Alice" "hello"))) s in
  m_text msg = "hello"
  ∧ last (publicMessages r.1) = Some msg
  ∧ length (publicMessages r.1) = 1%nat
  ∧ frames_to 0%nat r.2 = [message msg]
  ∧ frames_to 1%nat r.2 = [message msg].
Proof.
  intros s msg r.
  destruct (message_is_stored_and_broadcast s 0%nat "a" (clock_at 3)
              (message_frame "Alice" "hello"))
    as (_ & Hlast & Hlen & _ & Hout & _).
  - by exists two_users.
  - vm_compute. constructor.
  - by vm_compute.
  - reflexivity.
  - split_and!; [by vm_compute | exact Hlast | exact Hlen
                 | apply (Hout 0%nat) | apply (Hout 1%nat)].
Defined.

(** [a] sends [b] two direct messages; [b] asks for the history with [a]
    and reads both, in the order sent. *)
Lemma dm_thread_is_shared_witness :
  let s := exec two_users init in
  let s1 := (ws_on_message 0%nat (clock_at 3) (Some (dm_frame "b" "one")) s).1 in
  let s2 := (ws_on_message 0%nat (clock_at 4) (Some (dm_frame "b" "two")) s1).1 in
  ws_on_message 1%nat (clock_at 5) (Some (dm_history_frame "a")) s2
  = (s2, [Send 1%nat
            (dm_history (Some "a")
               [make_dm "a" "b" (clock_at 3) (dm_frame "b" "one");
                make_dm "a" "b" (clock_at 4) (dm_frame "b" "two")])]).
Proof.
  intros s s1 s2.
  apply (proj2 dm_thread_is_shared s 0%nat 1%nat "a" "b"
           (clock_at 3) (clock_at 4) (clock_at 5)
           (dm_frame "b" "one") (dm_frame "b" "two")
           (dm_history_frame "b") (dm_history_frame "a"));
    try reflexivity; try discriminate; by vm_compute.
Defined.


(** Socket 0 is open but has not joined: its chat message is dropped. *)
Lemma anonymous_frames_are_dropped_witness :
  step (ws_message 0%nat (clock_at 1) (Some (message_frame "Eve" "hi")))
    (exec [connection] init)
  = (exec [connection] init, []).
Proof.
  apply (anonymous_frames_are_dropped [connection] 0%nat (clock_at 1)
           (message_frame "Eve" "hi")); reflexivity.
Defined.

(** [a] joined as Alice but sends frames named Bob and then Carol: the
    stored messages carry Bob and Carol. *)
Lemma sender_fields_come_from_the_frame_witness :
  let s := exec two_users init in
  let s1 := (ws_on_message 0%nat (clock_at 3)
               (Some (message_frame "Bob" "x")) s).1 in
  let s2 := (ws_on_message 0%nat (clock_at 4)
               (Some (message_frame "Carol" "y")) s1).1 in
  Map_get (Some "a") (onlineUsers s2)
    = Some {| pr_id := Some "a"; pr_name := "Alice"; pr_plan := "free";
              pr_avatar := "👤" |}
  ∧ ∃ m1 m2,
      last (publicMessages s1) = Some m1 ∧ last (publicMessages s2) = Some m2
      ∧ m_userId m1 = "a" ∧ m_userId m2 = "a"
      ∧ m_name m1 = "Bob" ∧ m_name m2 = "Carol" ∧ m_name m1 ≠ m_name m2.
Proof.
  intros s s1 s2. split; [by vm_compute|].
  assert (bound 0%nat s = Some "a") as Hb by (by vm_compute).
  destruct (sender_fields_come_from_the_frame s 0%nat "a" Hb) as (_ & _ & Hpair).
  apply (Hpair (clock_at 3) (clock_at 4)
           (message_frame "Bob" "x") (message_frame "Carol" "y") "Bob" "Carol");
    try reflexivity; discriminate.
Defined.

(** ** Further properties on sample runs *)


(** After [a] and [b] have joined on sockets 0 and 1. *)
Lemma hub_stays_well_formed_witness :
  let s := serve_all None (core <$> two_users) init in
  clients s = [0%nat; 1%nat]
  ∧ NoDup (clients s)
  ∧ (∀ u, NoDup (registered u s))
  ∧ NoDup (onlineUsers s).*1
  ∧ (∀ u, Map_has u (onlineUsers s) ↔ registered u s ≠ [])
  ∧ (∀ ws u, ws ∈ clients s → bound ws s = Some u →
             ws ∈ registered (Some u) s).
Proof.
  intros s. split; [by vm_compute|].
  apply (hub_stays_well_formed None). by exists (core <$> two_users).
Defined.

(** [a] on socket 0 writes to [b] on socket 1: the message opens the thread
    [a:b], socket 1 is written [dm] and socket 0 [dm_sent]. *)
Lemma dm_is_filed_and_delivered_witness :
  let s := serve_all None (core <$> two_users) init in
  let r := step (ws_message 0%nat (clock_at 3) (Some (dm_frame "b" "one"))) s in
  let dmMsg := make_dm "a" "b" (clock_at 3) (dm_frame "b" "one") in
  dmThreads r.1 !! "a:b" = Some [dmMsg]
  ∧ frames_to 1%nat r.2 = [dm dmMsg]
  ∧ frames_to 0%nat r.2 = [dm_sent dmMsg].
Proof.
  intros s r dmMsg.
  destruct (dm_is_filed_and_delivered None s 0%nat "a" "b" (clock_at 3)
              (dm_frame "b" "one"))
    as (Hthread & _ & _ & _ & Hout).
  - by exists (core <$> two_users).
  - apply (bool_decide_unpack _). by vm_compute.
  - by vm_compute.
  - reflexivity.
  - reflexivity.
  - discriminate.
  - discriminate.
  - split_and!.
    + etrans; [exact Hthread|]. by vm_compute.
    + etrans; [exact (Hout 1%nat)|]. by vm_compute.
    + etrans; [exact (Hout 0%nat)|]. by vm_compute.
Defined.


(** Socket 0 joins as [a] while socket 1 is open: socket 0 is bound and
    registered, and socket 1 is written the roster and [user_joined]. *)
Lemma join_updates_presence_witness :
  let s := serve_all None (core <$> [connection; connection]) init in
  let data := join_frame "a" "Alice" in
  let r := step (ws_message 0%nat (clock_at 1) (Some data)) s in
  connectedUserId r.1 !! 0%nat = Some "a"
  ∧ registered (Some "a") r.1 = [0%nat]
  ∧ Map_get (Some "a") (onlineUsers r.1) = Some (join_profile data)
  ∧ (onlineUsers r.1).*1 = [Some "a"]
  ∧ frames_to 0%nat r.2
    = [history []; online_users [join_profile data];
       user_joined (Some (join_profile data))]
  ∧ frames_to 1%nat r.2
    = [online_users [join_profile data];
       user_joined (Some (join_profile data))].
Proof.
  intros s data r.
  destruct (join_updates_presence None s 0%nat (clock_at 1) data)
    as (Hbound & Hreg & _ & Hget & _ & Hkeys & Hown & Hout).
  - by exists (core <$> [connection; connection]).
  - apply (bool_decide_unpack _). by vm_compute.
  - reflexivity.
  - split_and!.
    + exact Hbound.
    + etrans; [exact Hreg|]. by vm_compute.
    + exact Hget.
    + etrans; [exact Hkeys|]. by vm_compute.
    + etrans; [exact Hown|]. by vm_compute.
    + etrans; [apply (Hout 1%nat); discriminate|]. by vm_compute.
Defined.

(** The only socket of [a] closes: [a] leaves the roster and socket 1 is
    written [user_left], then the roster with [b] alone. *)
Lemma close_updates_presence_witness :
  let s := serve_all None (core <$> two_users) init in
  let r := step (ws_close 0%nat) s in
  clients r.1 = [1%nat]
  ∧ registered (Some "a") r.1 = []
  ∧ ¬ Map_has (Some "a") (onlineUsers r.1)
  ∧ frames_to 1%nat r.2
    = [user_left "a"; online_users (Map_values (onlineUsers r.1))]
  ∧ frames_to 0%nat r.2 = [].
Proof.
  intros s r.
  destruct (close_updates_presence None s 0%nat "a")
    as (Hcl & _ & Hreg & _ & Hcase).
  - by exists (core <$> two_users).
  - apply (bool_decide_unpack _). by vm_compute.
  - by vm_compute.
  - rewrite decide_True in Hcase by (by vm_compute).
    destruct Hcase as (_ & Hgone & Hout).
    split_and!.
    + etrans; [exact Hcl|]. by vm_compute.
    + etrans; [exact Hreg|]. by vm_compute.
    + exact Hgone.
    + etrans; [exact (Hout 1%nat)|]. by vm_compute.
    + etrans; [exact (Hout 0%nat)|]. by vm_compute.
Defined.

(** [a] is typing: both open sockets are told, and nothing is stored. *)
Lemma typing_is_ephemeral_witness :
  let s := serve_all None (core <$> two_users) init in
  let r := step (ws_message 0%nat (clock_at 3) (Some (frame "typing"))) s in
  r.1 = s
  ∧ frames_to 0%nat r.2 = [typing "a" None None]
  ∧ frames_to 1%nat r.2 = [typing "a" None None].
Proof.
  intros s r.
  destruct (typing_is_ephemeral None s 0%nat "a" (clock_at 3) (frame "typing"))
    as [Htyping _].
  - by exists (core <$> two_users).
  - apply (bool_decide_unpack _). by vm_compute.
  - by vm_compute.
  - destruct (Htyping eq_refl) as [Hsame Hout].
    split_and!.
    + exact Hsame.
    + etrans; [exact (Hout 0%nat)|]. by vm_compute.
    + etrans; [exact (Hout 1%nat)|]. by vm_compute.
Defined.


(** [a] and [b] join once each: the roster has an entry for [a], and
    socket 0 is open and bound to [a]. *)
Lemma presence_is_exact_without_rebinding_witness :
  let s := serve_all None (core <$> two_users) init in
  (Map_has (Some "a") (onlineUsers s)
   ↔ ∃ ws v, Some "a" = Some v ∧ ws ∈ clients s ∧ bound ws s = Some v)
  ∧ (Map_has (Some "a") (onlineUsers s) ↔ owns_open_connection (Some "a") s).
Proof.
  apply (presence_is_exact_without_rebinding None (core <$> two_users)
           (Some "a")).
  by vm_compute.
Defined.

(** A first registration of [a@x.com] is read back with the clock reading
    as creation date and no ban. *)
Lemma registered_user_can_be_fetched_witness :
  let body := register_body "a@x.com" "Alice" in
  let s' := (register_user (clock_at 1) body init).1 in
  get_user "a@x.com" None s'
  = ans_user {| u_obj := make_userObj "a@x.com" (clock_at 1) body;
                u_createdAt := 1; u_banned := false |}.
Proof.
  intros body s'.
  destruct (registered_user_can_be_fetched init "a@x.com" (clock_at 1) body)
    as [Hget _]; [reflexivity | discriminate | reflexivity |].
  etrans; [exact (Hget None)|]. by vm_compute.
Defined.

(** [a@x.com] is banned, then registers again: the record keeps its
    creation date and stays banned. *)
Lemma user_records_are_kept_witness :
  let s := serve_all None
             (core <$> [http_register_user (clock_at 1)
                          (register_body "a@x.com" "Alice")]) init in
  let rqs := [http_admin_ban (clock_at 2) (Some "viralboost-admin")
                (Some "a@x.com");
              core (http_register_user (clock_at 3)
                      (register_body "a@x.com" "Alicia"))] in
  ∃ u', inMemoryUsers (serve_all None rqs s) !! "a@x.com" = Some u'
        ∧ u_createdAt u' = 1
        ∧ u_banned u' = true.
Proof.
  intros s rqs.
  assert (inMemoryUsers (serve_all None [http_admin_ban (clock_at 2)
                                           (Some "viralboost-admin")
                                           (Some "a@x.com")] s) !! "a@x.com"
          = Some {| u_obj := make_userObj "a@x.com" (clock_at 1)
                               (register_body "a@x.com" "Alice");
                    u_createdAt := 1; u_banned := true |}) as Hbanned
    by (by vm_compute).
  destruct (user_records_are_kept None
              [core (http_register_user (clock_at 3)
                       (register_body "a@x.com" "Alicia"))]
              _ _ _ Hbanned) as (u' & Hu' & Hdate & Hban).
  exists u'. split_and!; [exact Hu' | exact Hdate | by apply Hban].
Defined.

(** The default admin key bans [a@x.com], who is joined on socket 0: the
    record is flagged, socket 0 is written [banned] and stays open. *)
Lemma ban_flags_and_notifies_witness :
  let s := serve_all None (core <$> registered_and_joined) init in
  let r := admin_ban None (clock_at 3) (Some "viralboost-admin")
             (Some "a@x.com") s in
  answers r.2 = [ans_ok]
  ∧ notices_to 0%nat r.2 = [banned "Ton compte a été suspendu."]
  ∧ (u_banned <$> inMemoryUsers r.1 !! "a@x.com") = Some true
  ∧ clients r.1 = [0%nat].
Proof.
  intros s r.
  destruct (ban_flags_and_notifies None (clock_at 3) (Some "viralboost-admin")
              (Some "a@x.com") s) as [_ Hban].
  destruct Hban as (Hhub & Hans & Hout & Hrec).
  - reflexivity.
  - reflexivity.
  - apply (hub_wf_reachable None). by exists (core <$> registered_and_joined).
  - split_and!.
    + exact Hans.
    + etrans; [exact (Hout 0%nat)|]. by vm_compute.
    + etrans; [exact (f_equal (fmap u_banned) (Hrec "a@x.com"))|].
      by vm_compute.
    + by vm_compute.
Defined.

(** The first project published is alone in the list, and the open socket
    is told. *)
Lemma published_project_goes_first_witness :
  let s := serve_all None (core <$> [connection]) init in
  let body := {| pb_id := Some "p1"; pb_rest := [] |} in
  let r := post_project (clock_at 1) body s in
  inMemoryProjects r.1 = [make_project (clock_at 1) body]
  ∧ find_project "p1" r.1 = Some (make_project (clock_at 1) body)
  ∧ replies r.2 = [res_project (make_project (clock_at 1) body)]
  ∧ frames_to 0%nat r.2 = [new_project (make_project (clock_at 1) body)].
Proof.
  intros s body r.
  destruct (published_project_goes_first s (clock_at 1) body)
    as (_ & _ & Hlist & Hfind & _ & Hreply & Hout).
  - reflexivity.
  - apply (hub_wf_reachable None). by exists (core <$> [connection]).
  - split_and!.
    + etrans; [exact Hlist|]. by vm_compute.
    + exact Hfind.
    + exact Hreply.
    + etrans; [exact (Hout 0%nat)|]. by vm_compute.
Defined.

(** After one project was published and voted for. *)
Lemma project_list_is_bounded_witness :
  let s := serve_all None (core <$> one_vote) init in
  length (inMemoryProjects s) = 1%nat
  ∧ (length (inMemoryProjects s) ≤ 200)%nat.
Proof.
  intros s. split; [by vm_compute|].
  apply (project_list_is_bounded None). by exists (core <$> one_vote).
Defined.

(** After one project was published and voted for by [u1]: one vote, one
    voter. *)
Lemma votes_never_exceed_voters_witness :
  let s := serve_all None (core <$> one_vote) init in
  vote_count "p1" s = 1
  ∧ Forall (λ p, 0 ≤ pj_votes p) (inMemoryProjects s)
  ∧ votes_for "p1" (inMemoryProjects s) ≤ Z.of_nat (size (voters "p1" s))
  ∧ vote_count "p1" s ≤ Z.of_nat (size (voters "p1" s)).
Proof.
  intros s. split; [by vm_compute|].
  apply (votes_never_exceed_voters None). by exists (core <$> one_vote).
Defined.

(** [p2] is published after [p1] and [p1] gets a vote: [p1] is listed
    first, though it is second in memory. *)
Lemma projects_are_listed_by_votes_witness :
  let s := serve_all None
             (core <$> [http_post_project (clock_at 1)
                          {| pb_id := Some "p1"; pb_rest := [] |};
                        http_post_project (clock_at 2)
                          {| pb_id := Some "p2"; pb_rest := [] |};
                        http_vote "p1" (Some "u1") None]) init in
  (pj_id <$> inMemoryProjects s) = ["p2"; "p1"]
  ∧ ∃ listing,
      get_projects [] s = ans_projects listing
      ∧ listing ≡ₚ inMemoryProjects s
      ∧ StronglySorted (λ a b, pj_votes b ≤ pj_votes a) listing
      ∧ ∀ v, filter (λ p, pj_votes p = v) listing
             = filter (λ p, pj_votes p = v) (inMemoryProjects s).
Proof.
  intros s. split; [by vm_compute|].
  apply (projects_are_listed_by_votes s []). reflexivity.
Defined.

(** [p1] is deleted after [u1] voted for it, and published again: the new
    record is found, and [u1] is refused a vote. *)
Lemma deleted_project_keeps_its_voters_witness :
  let s := serve_all None (core <$> one_vote) init in
  let r := admin_delete_project None (Some "viralboost-admin") "p1" s in
  let body := {| pb_id := Some "p1"; pb_rest := [] |} in
  let s2 := (post_project (clock_at 5) body r.1).1 in
  inMemoryProjects r.1 = []
  ∧ answers r.2 = [ans_ok]
  ∧ find_project "p1" s2 = Some (make_project (clock_at 5) body)
  ∧ vote "p1" (Some "u1") None s2 = (s2, [Reply res_already_voted]).
Proof.
  intros s r body s2.
  destruct (deleted_project_keeps_its_voters None (Some "viralboost-admin")
              "p1" "u1" s) as [_ Hdel].
  destruct Hdel as (Hlist & Hans & _ & _ & Hvote).
  - reflexivity.
  - reflexivity.
  - apply (hub_wf_reachable None). by exists (core <$> one_vote).
  - destruct (Hvote ltac:(discriminate)
                ltac:(apply (bool_decide_unpack _); by vm_compute)
                (clock_at 5) body None eq_refl ltac:(discriminate))
      as [Hfind Hrefused].
    split_and!.
    + etrans; [exact Hlist|]. by vm_compute.
    + exact Hans.
    + exact Hfind.
    + exact Hrefused.
Defined.

(** A message posted to [g1] with a body that names [g2] is filed under
    [g1], read back, and written to the open socket. *)
Lemma group_message_is_filed_under_its_route_witness :
  let s := serve_all None (core <$> [connection]) init in
  let r := post_group_message "g1" (clock_at 2) "o2" group_message_body s
             board_init in
  let msg := make_group_message "g1" (clock_at 2) group_message_body in
  group_message_body !! "groupId" = Some (jstr "g2")
  ∧ msg !! "groupId" = Some (jstr "g1")
  ∧ get_group_messages "g1" [] s r.1 = ans_list [msg]
  ∧ get_group_messages "g2" [] s r.1 = ans_list []
  ∧ notices_to 0%nat r.2 = [group_message "g1" msg].
Proof.
  intros s r msg.
  destruct (group_message_is_filed_under_its_route "g1" (clock_at 2) "o2"
              group_message_body [] s board_init)
    as (Hid & _ & _ & Hget & Hother & _ & _ & _ & _ & Hout).
  - reflexivity.
  - apply (bool_decide_unpack _). by vm_compute.
  - split_and!.
    + by vm_compute.
    + exact Hid.
    + apply (Hget []). by vm_compute.
    + etrans; [apply (Hother "g2"); discriminate|]. by vm_compute.
    + etrans; [exact (Hout 0%nat)|]. by vm_compute.
Defined.

(** After [board_run], the list of [g1] holds one message, filed under
    [g1]. *)
Lemma group_messages_stay_with_their_group_witness :
  let b := board_serve_all None board_run board_init in
  let l := [make_group_message "g1" (clock_at 2) group_message_body] in
  inMemoryGroupMessages b !! "g1" = Some l
  ∧ l ≠ [] ∧ Forall (filed_under "g1") l.
Proof.
  intros b l.
  assert (inMemoryGroupMessages b !! "g1" = Some l) as Hl.
  { apply (bool_decide_unpack _). by vm_compute. }
  split; [exact Hl|].
  apply (group_messages_stay_with_their_group None b "g1" l); [|exact Hl].
  by exists board_run.
Defined.

(** Group [g1] belongs to [u1]: a settings request by [u2] leaves it as it
    was, a settings request by [u1] renames it. *)
Lemma group_settings_need_the_creator_witness :
  let b := board_serve_all None board_run board_init in
  let g := make_group (clock_at 1) group_body in
  let settings := Some {[ "name" := jstr "Mine" ]} in
  inMemoryGroups b = [g]
  ∧ inMemoryGroups
      (put_group_settings "g1" settings (Some (jstr "u2")) init b).1 !! 0%nat
    = Some g
  ∧ inMemoryGroups
      (put_group_settings "g1" settings (Some (jstr "u1")) init b).1 !! 0%nat
    = Some (Object_assign g settings)
  ∧ Object_assign g settings !! "name" = Some (jstr "Mine")
  ∧ Object_assign g settings !! "creatorId" = Some (jstr "u1").
Proof.
  intros b g settings.
  destruct (group_settings_need_the_creator "g1" settings (Some (jstr "u2"))
              init b) as (_ & _ & Hother & _); [reflexivity|].
  destruct (group_settings_need_the_creator "g1" settings (Some (jstr "u1"))
              init b) as (_ & _ & _ & Hfirst & _ & Hprops & _); [reflexivity|].
  split_and!.
  - reflexivity.
  - apply Hother; [reflexivity|].
    apply (bool_decide_unpack _). by vm_compute.
  - apply Hfirst; [reflexivity| |intros j g' Hj; lia].
    apply (bool_decide_unpack _). by vm_compute.
  - rewrite Hprops. by vm_compute.
  - rewrite Hprops. by vm_compute.
Defined.

(** Group [g1] is created with a body that claims 99 members: it is
    listed with one member, the open socket is told, and its creator can
    rename it. *)
Lemma created_group_is_listed_first_witness :
  let s := serve_all None (core <$> [connection]) init in
  let r := post_group (clock_at 1) "o1" group_body s board_init in
  let group := make_group (clock_at 1) group_body in
  let settings := Some {[ "name" := jstr "Mine" ]} in
  group_body !! "membersCount" = Some (jnum 99)
  ∧ group !! "membersCount" = Some (jnum 1)
  ∧ group !! "id" = Some (jstr "g1")
  ∧ get_groups [] s r.1 = ans_list [group]
  ∧ notices_to 0%nat r.2 = [new_group group]
  ∧ inMemoryGroups (put_group_settings "g1" settings (Some (jstr "u1")) s r.1).1
    = [Object_assign group settings].
Proof.
  intros s r group settings.
  destruct (created_group_is_listed_first (clock_at 1) "o1" group_body [] s
              board_init)
    as (Hcount & _ & Hid & _ & Hget & _ & Hout & Hset).
  - reflexivity.
  - apply (bool_decide_unpack _). by vm_compute.
  - split_and!.
    + by vm_compute.
    + exact Hcount.
    + etrans; [exact Hid|]. by vm_compute.
    + exact Hget.
    + etrans; [exact (Hout 0%nat)|]. by vm_compute.
    + apply (Hset "g1" settings); [by vm_compute|discriminate].
Defined.

(** A report whose body says [resolved] is stored as [pending]; the
    default admin key reads it, another key is refused. *)
Lemma reports_and_admin_dms_reach_the_admin_witness :
  let r := post_report (clock_at 3) report_body init board_init in
  let report := make_report (clock_at 3) report_body in
  report_body !! "status" = Some (jstr "resolved")
  ∧ report !! "status" = Some (jstr "pending")
  ∧ admin_reports None (Some "viralboost-admin") [] init r.1 = ans_list [report]
  ∧ admin_reports None (Some "guess") [] init r.1 = ans_denied.
Proof.
  intros r report.
  destruct (reports_and_admin_dms_reach_the_admin None (clock_at 3) report_body
              (Some "viralboost-admin") [] init board_init)
    as [(_ & Hstatus & _ & _ & _ & Hread & _) _]; [reflexivity|].
  destruct (reports_and_admin_dms_reach_the_admin None (clock_at 3) report_body
              (Some "guess") [] init board_init)
    as [(_ & _ & _ & _ & _ & Hrefused & _) _]; [reflexivity|].
  split_and!.
  - by vm_compute.
  - exact Hstatus.
  - etrans; [exact Hread|]. by vm_compute.
  - etrans; [exact Hrefused|]. by vm_compute.
Defined.

(** After [board_run], one report and one message to the admin are held. *)
Lemma reports_are_never_resolved_witness :
  let b := board_serve_all None board_run board_init in
  length (inMemoryReports b) = 1%nat
  ∧ length (inMemoryAdminDMs b) = 1%nat
  ∧ Forall (λ r, r !! "status" = Some (jstr "pending")) (inMemoryReports b)
  ∧ Forall (λ d, d !! "read" = Some (jbool false)) (inMemoryAdminDMs b).
Proof.
  intros b. split; [by vm_compute|]. split; [by vm_compute|].
  apply (reports_are_never_resolved None). by exists board_run.
Defined.


